(** * botPlayer: entitlement, rate limiting and lookup pipeline of the
    Telegram lookup bot

    A shallow embedding of the bot's core functions, with the theorems that
    relate them to the design document.  Every definition carries the name
    of the JavaScript function it embeds.

    Conventions of the embedding:
    - time values (Date.now(), new Date()) are integers, milliseconds since
      the epoch; an ISO date string stored in the user file is represented
      by the time value it denotes (toISOString and new Date(string) are
      inverse to each other at millisecond precision);
    - a string is the sequence of the bytes of its UTF-8 encoding; white
      space ([trim], the class [\s]) is that of ECMAScript, recognised on
      the encoding, while upper and lower case are the ASCII ones;
    - JSON numbers are integers;
    - the keys of the [users] object are chat ids printed in decimal, so a
      property lookup in it is a lookup in a finite map;
    - users.json, when it parses, is a document that [saveUsersData] wrote,
      and writes to it succeed;
    - handlers take effect one after the other, except that a lookup can
      be overtaken by other handlers, other lookups of the same chat
      included, while it waits for the lookup service ([LookupBegin] and
      [LookupEnd] in [Bot.Event]); the waits for the file system and for
      Telegram are not places where another handler comes in between. *)

From Stdlib Require Import ZArith Ascii String DecimalString List Bool Lia.
From stdpp Require Import base option gmap strings list fin_maps.
Import ListNotations.

Set Warnings "-register-all".

Local Open Scope string_scope.
Local Open Scope Z_scope.

(** ** Chat identifiers *)

(** A chat id is a number when it comes from [msg.chat.id] and a string of
    digits when it is a capture of [/adduser (\d+)], [/removeuser (\d+)] or
    [/userinfo (\d+)]. *)
Inductive ChatId : Type :=
| NumId (n : Z)
| StrId (s : string).

#[global] Instance ChatId_eq_dec : EqDecision ChatId.
Proof. solve_decision. Defined.

#[global] Instance ChatId_countable : Countable ChatId.
Proof.
  refine (inj_countable'
            (fun c => match c with NumId n => inl n | StrId s => inr s end)
            (fun x => match x with inl n => NumId n | inr s => StrId s end) _).
  intros []; reflexivity.
Defined.

(** Number.prototype.toString on an integer. *)
Definition decimal (n : Z) : string := NilZero.string_of_int (Z.to_int n).

(** [chatId.toString()] *)
Definition toString (chatId : ChatId) : string :=
  match chatId with
  | NumId n => decimal n
  | StrId s => s
  end.

(** ** JavaScript strings *)

Module Js.

Definition dquote : ascii := "034"%char.

(** The white-space characters of one byte: TAB, LF, VT, FF, CR and the
    space. *)
Definition isSpace (c : ascii) : bool :=
  let n := nat_of_ascii c in
  ((9 <=? n) && (n <=? 13))%nat || (n =? 32)%nat.

(** A byte that is a character of its own. *)
Definition isAscii (c : ascii) : bool := (nat_of_ascii c <? 128)%nat.

(** The white space of [String.prototype.trim] and of the regular
    expression class [\s] (WhiteSpace and LineTerminator of ECMAScript):
    the number of bytes of the white-space character that [s] starts with,
    and 0 when it starts with none.  Beside the characters of one byte
    these are U+00A0, U+1680, U+2000 to U+200A, U+2028, U+2029, U+202F,
    U+205F, U+3000 and U+FEFF. *)
Definition spaceWidth (s : string) : nat :=
  match s with
  | EmptyString => 0
  | String a s1 =>
      if isSpace a then 1
      else
        match s1 with
        | EmptyString => 0
        | String b s2 =>
            let x := nat_of_ascii a in
            let y := nat_of_ascii b in
            if (x =? 194) && (y =? 160) then 2
            else
              match s2 with
              | EmptyString => 0
              | String c _ =>
                  let z := nat_of_ascii c in
                  if (x =? 225) && (y =? 154) && (z =? 128) then 3
                  else if (x =? 226) && (y =? 128) &&
                          (((128 <=? z) && (z <=? 138)) || (z =? 168) ||
                           (z =? 169) || (z =? 175)) then 3
                  else if (x =? 226) && (y =? 129) && (z =? 159) then 3
                  else if (x =? 227) && (y =? 128) && (z =? 128) then 3
                  else if (x =? 239) && (y =? 187) && (z =? 191) then 3
                  else 0
              end
        end
  end%nat.

Definition isUpper (c : ascii) : bool :=
  let n := nat_of_ascii c in ((65 <=? n) && (n <=? 90))%nat.

Definition isLower (c : ascii) : bool :=
  let n := nat_of_ascii c in ((97 <=? n) && (n <=? 122))%nat.

Definition lowerChar (c : ascii) : ascii :=
  if isUpper c then ascii_of_nat (nat_of_ascii c + 32) else c.

Definition upperChar (c : ascii) : ascii :=
  if isLower c then ascii_of_nat (nat_of_ascii c - 32) else c.

Fixpoint mapChars (f : ascii -> ascii) (s : string) : string :=
  match s with
  | EmptyString => EmptyString
  | String c s' => String (f c) (mapChars f s')
  end.

(** [s.toLowerCase()] on the ASCII letters.  The source only compares the
    result with ASCII texts in which no k occurs; no character outside
    ASCII becomes one of their letters (the Kelvin sign becomes k), so
    these comparisons come out the same. *)
Definition toLowerCase (s : string) : string := mapChars lowerChar s.

(** [s.includes(needle)] *)
Fixpoint includes (needle s : string) : bool :=
  String.prefix needle s ||
  match s with
  | EmptyString => false
  | String _ s' => includes needle s'
  end.

(** [s.replace(/c/g, by)] for a one-character pattern. *)
Fixpoint replaceChar (c : ascii) (by_ : string) (s : string) : string :=
  match s with
  | EmptyString => EmptyString
  | String d s' =>
      if Ascii.eqb d c then by_ +:+ replaceChar c by_ s'
      else String d (replaceChar c by_ s')
  end.

(** Removal of the longest prefix made of members of a class of
    characters, where [width s] is the number of bytes of the member that
    [s] starts with and 0 when it starts with none; [skip] counts the bytes
    still to drop of the member being removed. *)
Fixpoint dropStartFrom (width : string -> nat) (skip : nat) (s : string) : string :=
  match s with
  | EmptyString => EmptyString
  | String _ s' =>
      match skip with
      | S k => dropStartFrom width k s'
      | O =>
          match width s with
          | S k => dropStartFrom width k s'
          | O => s
          end
      end
  end.

Definition dropStart (width : string -> nat) (s : string) : string :=
  dropStartFrom width 0 s.

(** Removal of the longest suffix made of members of the class: what
    stands before the first place from which on there are only members. *)
Fixpoint dropEnd (width : string -> nat) (s : string) : string :=
  match s with
  | EmptyString => EmptyString
  | String c s' =>
      match dropStart width s with
      | EmptyString => EmptyString
      | _ => String c (dropEnd width s')
      end
  end.

(** [s.trim()] *)
Definition trim (s : string) : string := dropEnd spaceWidth (dropStart spaceWidth s).

(** [Array.prototype.join] on strings. *)
Fixpoint join (sep : string) (l : list string) : string :=
  match l with
  | [] => EmptyString
  | [x] => x
  | x :: l' => x +:+ sep +:+ join sep l'
  end.

Definition nonEmpty (s : string) : bool :=
  match s with EmptyString => false | _ => true end.

End Js.

(** ** JSON values *)

(** The value of [response.data] and of the fields of a payload.  An object
    is the list of its own properties in enumeration order. *)
Inductive JSON : Type :=
| JNull
| JBool (b : bool)
| JNum (n : Z)
| JStr (s : string)
| JArr (items : list JSON)
| JObj (props : list (string * JSON)).

Module Json.

(** Truthiness of a value; [None] stands for [undefined]. *)
Definition truthy (v : option JSON) : bool :=
  match v with
  | None | Some JNull => false
  | Some (JBool b) => b
  | Some (JNum n) => negb (n =? 0)
  | Some (JStr s) => Js.nonEmpty s
  | Some (JArr _) | Some (JObj _) => true
  end.

Fixpoint assoc (k : string) (props : list (string * JSON)) : option JSON :=
  match props with
  | [] => None
  | (k', v) :: props' => if String.eqb k' k then Some v else assoc k props'
  end.

(** Property access [v.k] for a key that no prototype defines. *)
Definition prop (v : JSON) (k : string) : option JSON :=
  match v with
  | JObj props => assoc k props
  | _ => None
  end.

(** [String(v)], also the coercion of a template literal. *)
Fixpoint String_ (v : JSON) : string :=
  match v with
  | JNull => "null"
  | JBool true => "true"
  | JBool false => "false"
  | JNum n => decimal n
  | JStr s => s
  | JArr items =>
      Js.join ","
        (map (fun x => match x with JNull => EmptyString | _ => String_ x end)
             items)
  | JObj _ => "[object Object]"
  end.

Definition hexDigit (n : nat) : ascii :=
  if (n <? 10)%nat then ascii_of_nat (48 + n) else ascii_of_nat (87 + n).

(** The escape of one character inside a JSON string literal. *)
Definition quoteChar (c : ascii) : string :=
  let n := nat_of_ascii c in
  if Ascii.eqb c Js.dquote then String "\" (String Js.dquote EmptyString)
  else if Ascii.eqb c "\" then "\\"
  else if (n =? 8)%nat then "\b"
  else if (n =? 9)%nat then "\t"
  else if (n =? 10)%nat then "\n"
  else if (n =? 12)%nat then "\f"
  else if (n =? 13)%nat then "\r"
  else if (n <? 32)%nat then
    "\u00" +:+ String (hexDigit (n / 16)) (String (hexDigit (n mod 16)) EmptyString)
  else String c EmptyString.

Fixpoint quoteChars (s : string) : string :=
  match s with
  | EmptyString => EmptyString
  | String c s' => quoteChar c +:+ quoteChars s'
  end.

Definition quote (s : string) : string :=
  String Js.dquote (quoteChars s +:+ String Js.dquote EmptyString).

(** [JSON.stringify(v)] *)
Fixpoint stringify (v : JSON) : string :=
  match v with
  | JNull => "null"
  | JBool true => "true"
  | JBool false => "false"
  | JNum n => decimal n
  | JStr s => quote s
  | JArr items => "[" +:+ Js.join "," (map stringify items) +:+ "]"
  | JObj props =>
      "{" +:+ Js.join "," (map (fun kv => quote (fst kv) +:+ ":" +:+ stringify (snd kv))
                             props) +:+ "}"
  end.

(** [Object.entries(v)] of an object or an array. *)
Definition entries (v : JSON) : list (string * JSON) :=
  match v with
  | JObj props => props
  | JArr items => imap (fun i x => (decimal (Z.of_nat i), x)) items
  | _ => []
  end.

End Json.

(** ** HTML escaping *)

(** The three replacements of [escapeHtmlEntities], in the order of the
    source. *)
Definition escapeHtml (text : string) : string :=
  Js.replaceChar ">" "&gt;"
    (Js.replaceChar "<" "&lt;"
       (Js.replaceChar "&" "&amp;" text)).

(** [escapeHtmlEntities(text)]: a value that is not a string is returned as
    it is. *)
Definition escapeHtmlEntities (text : JSON) : JSON :=
  match text with
  | JStr s => JStr (escapeHtml s)
  | _ => text
  end.

(** ** Rate limiter *)

Module RateLimiter.

Definition RATE_LIMIT_MS : Z := 2000.

(** Truthiness of [userLastMessage.get(chatId)]: [undefined] and the
    number 0 are falsy. *)
Definition truthy (lastMessage : option Z) : bool :=
  match lastMessage with
  | None => false
  | Some t => negb (t =? 0)
  end.

(** [isRateLimited(chatId)], with the clock reading [now = Date.now()] and
    the map passed explicitly; returns the answer and the map afterwards. *)
Definition isRateLimited (userLastMessage : gmap ChatId Z) (chatId : ChatId)
    (now : Z) : bool * gmap ChatId Z :=
  let lastMessage := userLastMessage !! chatId in
  if truthy lastMessage && (now - default 0 lastMessage <? RATE_LIMIT_MS)
  then (true, userLastMessage)
  else (false, <[chatId := now]> userLastMessage).

(** The design document's [RateLimiter.allow]: the negated answer. *)
Definition allow (userLastMessage : gmap ChatId Z) (chatId : ChatId)
    (now : Z) : bool * gmap ChatId Z :=
  let '(limited, m) := isRateLimited userLastMessage chatId now in
  (negb limited, m).

(** A sequence of calls, each with its chat id and clock reading; the
    answers are returned in call order. *)
Fixpoint calls (m : gmap ChatId Z) (cs : list (ChatId * Z))
    : list bool * gmap ChatId Z :=
  match cs with
  | [] => ([], m)
  | (chatId, now) :: cs' =>
      let '(ok, m1) := allow m chatId now in
      let '(oks, m2) := calls m1 cs' in
      (ok :: oks, m2)
  end.

(** Every stored timestamp is a clock reading after the epoch. *)
Definition stamped (m : gmap ChatId Z) : Prop :=
  forall chatId t, m !! chatId = Some t -> 0 < t.

(** The calls made by [cid] in [cs] were all denied. *)
Definition deniedFor (cid : ChatId) (cs : list (ChatId * Z)) (oks : list bool) : Prop :=
  Forall2 (fun c ok => c.1 = cid -> ok = false) cs oks.

End RateLimiter.

(** ** Record store *)

Module Store.

(** One user record of users.json. *)
Record User : Type := mkUser {
  chatId : string;
  username : string;
  firstName : string;
  joinDate : Z;
  freeSearchesUsed : Z;
  totalSearches : Z;
  isSubscribed : bool;
  subscriptionExpiry : option Z
}.

(** The document kept in users.json. *)
Record UsersData : Type := mkUsersData {
  users : gmap string User;
  subscriptions : gmap string JSON
}.

(** The state of users.json: [None] is a file that is missing or that
    [JSON.parse] rejects. *)
Definition File : Type := option UsersData.

Definition emptyData : UsersData :=
  {| users := ∅; subscriptions := ∅ |}.

(** [loadUsersData()]: a failed read yields the empty document. *)
Definition loadUsersData (file : File) : UsersData :=
  match file with
  | Some data => data
  | None => emptyData
  end.

(** [saveUsersData(data)] *)
Definition saveUsersData (data : UsersData) : File := Some data.

(** The record that [getUser] stores for a new user. *)
Definition newUser (userId : string) (now : Z) : User :=
  {| chatId := userId;
     username := EmptyString;
     firstName := EmptyString;
     joinDate := now;
     freeSearchesUsed := 0;
     totalSearches := 0;
     isSubscribed := false;
     subscriptionExpiry := None |}.

Definition setUser (data : UsersData) (userId : string) (u : User) : UsersData :=
  {| users := <[userId := u]> (users data);
     subscriptions := subscriptions data |}.

(** [getUser(chatId)], at clock reading [now]; returns the record and the
    file afterwards. *)
Definition getUser (file : File) (cid : ChatId) (now : Z) : User * File :=
  let data := loadUsersData file in
  let userId := toString cid in
  match users data !! userId with
  | None =>
      let u := newUser userId now in
      (u, saveUsersData (setUser data userId u))
  | Some u => (u, file)
  end.

(** The [updates] argument of [updateUser]: the fields it names. *)
Record Updates : Type := mkUpdates {
  upd_chatId : option string;
  upd_username : option string;
  upd_firstName : option string;
  upd_joinDate : option Z;
  upd_freeSearchesUsed : option Z;
  upd_totalSearches : option Z;
  upd_isSubscribed : option bool;
  upd_subscriptionExpiry : option (option Z)
}.

(** [Object.assign(user, updates)] *)
Definition assign (u : User) (updates : Updates) : User :=
  {| chatId := default (chatId u) (upd_chatId updates);
     username := default (username u) (upd_username updates);
     firstName := default (firstName u) (upd_firstName updates);
     joinDate := default (joinDate u) (upd_joinDate updates);
     freeSearchesUsed := default (freeSearchesUsed u) (upd_freeSearchesUsed updates);
     totalSearches := default (totalSearches u) (upd_totalSearches updates);
     isSubscribed := default (isSubscribed u) (upd_isSubscribed updates);
     subscriptionExpiry :=
       default (subscriptionExpiry u) (upd_subscriptionExpiry updates) |}.

(** [updateUser(chatId, updates)] *)
Definition updateUser (file : File) (cid : ChatId) (updates : Updates) : File :=
  let data := loadUsersData file in
  let userId := toString cid in
  match users data !! userId with
  | Some u => saveUsersData (setUser data userId (assign u updates))
  | None => file
  end.

(** The record of a user id in the file, if any. *)
Definition record (file : File) (userId : string) : option User :=
  users (loadUsersData file) !! userId.

End Store.

(** ** Entitlement engine *)

Module Entitlement.
Import Store.

Inductive Reason : Type := subscribed | free_trial | limit_reached.

Record Permission : Type := mkPermission {
  allowed : bool;
  reason : Reason
}.

(** [searchPermission.reason === 'free_trial'] *)
Definition isFreeTrial (p : Permission) : bool :=
  match reason p with
  | free_trial => true
  | _ => false
  end.

(** The check on the free searches that ends [canUserSearch]. *)
Definition freeCheck (user : User) : Permission :=
  if freeSearchesUsed user <? 1
  then {| allowed := true; reason := free_trial |}
  else {| allowed := false; reason := limit_reached |}.

Definition expire : Updates :=
  mkUpdates None None None None None None (Some false) (Some None).

(** [canUserSearch(chatId)] at clock reading [now]. *)
Definition canUserSearch (file : File) (cid : ChatId) (now : Z)
    : Permission * File :=
  let '(user, file1) := getUser file cid now in
  match isSubscribed user, subscriptionExpiry user with
  | true, Some expiryDate =>
      if now <? expiryDate
      then ({| allowed := true; reason := subscribed |}, file1)
      else
        let file2 := updateUser file1 cid expire in
        (freeCheck user, file2)
  | _, _ => (freeCheck user, file1)
  end.

End Entitlement.

(** ** Lookup client *)

Module Lookup.

(** What [axios.get] does: it resolves with a response or rejects with an
    error ([code] is [undefined] or a string). *)
Inductive AxiosOutcome : Type :=
| Resolved (status : Z) (statusText : string) (data : JSON)
| Rejected (code : option string) (message : string).

(** What the lookup service does with the request: it answers, it does not
    answer within the timeout, or the request fails on the way (with the
    code and the message of the error). *)
Inductive Upstream : Type :=
| Answered (status : Z) (statusText : string) (body : JSON)
| Silent
| Unreachable (code : option string) (message : string).

(** The [code] of the error with which axios rejects a response (version 1
    of the library; earlier versions give none). *)
Definition statusErrorCode (status : Z) : option string :=
  if (400 <=? status) && (status <? 500) then Some "ERR_BAD_REQUEST"
  else if (500 <=? status) && (status <? 600) then Some "ERR_BAD_RESPONSE"
  else None.

(** [axios.get(API_BASE_URL, {params, timeout: 15000})], as the library
    documents it.  The call passes no [validateStatus], so axios resolves a
    response whose status is from 200 to 299 and rejects any other with
    the message "Request failed with status code" and the status; a request
    that runs into the timeout is rejected with the code ECONNABORTED. *)
Definition axiosGet (upstream : Upstream) : AxiosOutcome :=
  match upstream with
  | Answered status statusText body =>
      if (200 <=? status) && (status <? 300)
      then Resolved status statusText body
      else Rejected (statusErrorCode status)
                    ("Request failed with status code " +:+ decimal status)
  | Silent => Rejected (Some "ECONNABORTED") "timeout of 15000ms exceeded"
  | Unreachable code message => Rejected code message
  end.

(** The object returned by [fetchFlipcartInfo]: [{success: true, data}] or
    [{success: false, error}]. *)
Inductive FetchResult : Type :=
| Ok (data : JSON)
| Fail (error : string).

Definition NOT_FOUND_MESSAGE : string :=
  "The API returned a " +:+ String Js.dquote "not found" +:+
  String Js.dquote " response for this number.".

Definition isNotFoundText (data : JSON) : bool :=
  Json.truthy (Some data) &&
  match data with
  | JStr s => Js.includes "not found" s
  | _ => false
  end.

Definition isStatusError (v : option JSON) : bool :=
  match v with
  | Some (JStr s) => String.eqb s "error"
  | _ => false
  end.

Definition hasErrorField (data : JSON) : bool :=
  Json.truthy (Some data) &&
  (Json.truthy (Json.prop data "error") || isStatusError (Json.prop data "status")).

(** [response.data.error || JSON.stringify(response.data)] *)
Definition apiErrorOf (data : JSON) : JSON :=
  match Json.prop data "error" with
  | Some e => if Json.truthy (Some e) then e else JStr (Json.stringify data)
  | None => JStr (Json.stringify data)
  end.

(** [fetchFlipcartInfo(mobile)], given what [axios.get] did. *)
Definition fetchFlipcartInfo (mobile : string) (net : AxiosOutcome) : FetchResult :=
  match net with
  | Resolved status statusText data =>
      if isNotFoundText data then Fail NOT_FOUND_MESSAGE
      else if (200 <=? status) && (status <? 300) then
        if hasErrorField data then
          let apiError := apiErrorOf data in
          Fail ("API reported an issue: " +:+
                Json.String_ (escapeHtmlEntities apiError))
        else Ok data
      else Fail ("HTTP Error: " +:+ decimal status +:+ " " +:+ statusText)
  | Rejected code message =>
      let errorMessage :=
        match code with
        | Some c => if String.eqb c "ECONNABORTED"
                    then "Request timed out (15s)." else message
        | None => message
        end in
      Fail ("Network/API failure: " +:+
            Json.String_ (escapeHtmlEntities (JStr errorMessage)))
  end.

End Lookup.

(** ** Response formatter *)

Module Formatter.

Definition ofBytes (l : list nat) : string :=
  string_of_list_ascii (map ascii_of_nat l).

(** The pictograms of the source, byte for byte. *)
Definition EMOJI_INFO : string := ofBytes [195; 162; 226; 128; 158; 194; 185; 195; 175; 194; 184]%nat.
Definition EMOJI_RESULT : string := ofBytes [195; 162; 197; 147; 194; 168]%nat.
Definition EMOJI_ID : string := ofBytes [196; 159; 197; 184; 226; 128; 160; 226; 128; 157]%nat.
Definition EMOJI_NAME : string := ofBytes [196; 159; 197; 184; 226; 128; 152; 194; 164]%nat.
Definition EMOJI_MOBILE : string := ofBytes [196; 159; 197; 184; 226; 128; 156; 194; 177]%nat.
Definition EMOJI_CIRCLE : string := ofBytes [196; 159; 197; 184; 226; 128; 156; 194; 161]%nat.
Definition EMOJI_ADDRESS : string := ofBytes [196; 159; 197; 184; 194; 160]%nat.
Definition EMOJI_DEFAULT : string := ofBytes [195; 162; 194; 161; 195; 175; 194; 184]%nat.
Definition EMOJI_WARNING : string := ofBytes [195; 162; 197; 161; 194; 160; 195; 175; 194; 184]%nat.
Definition DANDA : string := ofBytes [195; 160; 194; 165; 194; 164]%nat.
Definition EMOJI_PARTY : string := ofBytes [196; 159; 197; 184; 226; 128; 176]%nat.
Definition EMOJI_CROSS : string := ofBytes [195; 162; 197; 146]%nat.
Definition EMOJI_CHECK : string := ofBytes [195; 162; 197; 147; 226; 128; 166]%nat.

Definition LF : string := String "010"%char EmptyString.

Definition HEADER : string := EMOJI_INFO +:+ " <b>Flipcart Information</b>" +:+ LF.

Definition NO_DETAILS : string :=
  EMOJI_WARNING +:+
  " <b>No details found</b> for this number or the information is incomplete" +:+
  DANDA.

(** [.replace(/!!/g, ', ')] *)
Fixpoint replaceBangBang (s : string) : string :=
  match s with
  | EmptyString => EmptyString
  | String c s' =>
      match s' with
      | String d s'' =>
          if Ascii.eqb c "!" && Ascii.eqb d "!"
          then ", " +:+ replaceBangBang s''
          else String c (replaceBangBang s')
      | EmptyString => String c EmptyString
      end
  end.

(** [.replace(/!/g, ', ')] *)
Definition replaceBang (s : string) : string := Js.replaceChar "!" ", " s.

(** The length of the longest match of [(\s*,){1,}] at the start of [s], if
    there is one: [pos] counts the bytes read, [last] is the position after
    the last comma matched, and [skip] counts the bytes still to read of
    the white-space character being matched. *)
Fixpoint commaRun (skip : nat) (s : string) (pos : nat) (last : option nat)
    : option nat :=
  match s with
  | EmptyString => last
  | String c s' =>
      match skip with
      | S k => commaRun k s' (S pos) last
      | O =>
          match Js.spaceWidth s with
          | S k => commaRun k s' (S pos) last
          | O =>
              if Ascii.eqb c "," then commaRun 0 s' (S pos) (Some (S pos))
              else last
          end
      end
  end.

(** [.replace(/,(\s*,){1,}/g, ', ')], reading from the left; [skip] is the
    number of bytes left of the match being replaced. *)
Fixpoint collapseFrom (skip : nat) (s : string) : string :=
  match s with
  | EmptyString => EmptyString
  | String c s' =>
      match skip with
      | S k => collapseFrom k s'
      | O =>
          if Ascii.eqb c "," then
            match commaRun 0 s' 0 None with
            | Some n => ", " +:+ collapseFrom n s'
            | None => String c (collapseFrom 0 s')
            end
          else String c (collapseFrom 0 s')
      end
  end.

Definition collapseCommas (s : string) : string := collapseFrom 0 s.

(** The class [[,\s]]: the number of bytes of its member that [s] starts
    with, and 0 when it starts with none. *)
Definition separatorWidth (s : string) : nat :=
  match s with
  | EmptyString => 0%nat
  | String c _ => if Ascii.eqb c "," then 1%nat else Js.spaceWidth s
  end.

(** [.replace(/^[,\s]+|[,\s]+$/g, '')] *)
Definition stripSeparators (s : string) : string :=
  Js.dropEnd separatorWidth (Js.dropStart separatorWidth s).

(** The clean-up of an address value in [formatResponse]. *)
Definition cleanAddress (stringValue : string) : string :=
  stripSeparators
    (Js.trim (collapseCommas (replaceBang (replaceBangBang stringValue)))).

(** [.replace(/([A-Z])/g, ' $1')] *)
Fixpoint spaceBeforeCaps (s : string) : string :=
  match s with
  | EmptyString => EmptyString
  | String c s' =>
      if Js.isUpper c then String " " (String c (spaceBeforeCaps s'))
      else String c (spaceBeforeCaps s')
  end.

(** [key.charAt(0).toUpperCase() + key.slice(1).replace(...).trim()], for a
    key whose first character is an ASCII one or has no upper case. *)
Definition titleKey (key : string) : string :=
  match key with
  | EmptyString => EmptyString
  | String c rest => String (Js.upperChar c) (Js.trim (spaceBeforeCaps rest))
  end.

(** What the loop body of [formatResponse] computes for one property. *)
Record DisplayField : Type := mkField {
  prefixEmoji : string;
  displayKey : string;
  displayValue : string
}.

Definition keeps (stringValue : string) : bool :=
  Js.nonEmpty stringValue &&
  negb (String.eqb (Js.toLowerCase stringValue) "not found") &&
  negb (String.eqb (Js.toLowerCase stringValue) "[not set]").

Definition displayField (key : string) (value : JSON) : option DisplayField :=
  let stringValue := Json.String_ value in
  if keeps stringValue then
    let k := Js.toLowerCase key in
    Some
      (if String.eqb k "id_number" then
         mkField EMOJI_ID "Aadhaar No." (escapeHtml stringValue)
       else if String.eqb k "name" then
         mkField EMOJI_NAME (titleKey key) (escapeHtml stringValue)
       else if String.eqb k "mobile" || String.eqb k "alt_mobile" then
         mkField EMOJI_MOBILE (titleKey key) (escapeHtml stringValue)
       else if String.eqb k "circle" then
         mkField EMOJI_CIRCLE (titleKey key) (escapeHtml stringValue)
       else if String.eqb k "address" then
         mkField EMOJI_ADDRESS (titleKey key)
                 (escapeHtml (cleanAddress stringValue))
       else
         mkField EMOJI_DEFAULT (titleKey key) (escapeHtml stringValue))
  else None.

(** The line appended to [currentFormatted]. *)
Definition line (f : DisplayField) : string :=
  prefixEmoji f +:+ " <b>" +:+ displayKey f +:+ ":</b> <code>" +:+
  displayValue f +:+ "</code>" +:+ LF.

(** The fields shown for one item. *)
Definition itemFields (item : JSON) : list DisplayField :=
  omap (fun kv => displayField (fst kv) (snd kv)) (Json.entries item).

Definition isObject (item : JSON) : bool :=
  match item with
  | JObj _ | JArr _ => true
  | _ => false
  end.

Definition resultHeader (index : nat) : string :=
  LF +:+ EMOJI_RESULT +:+ " <b>Result " +:+ decimal (Z.of_nat index + 1) +:+
  "</b> " +:+ EMOJI_RESULT +:+ LF.

(** The [forEach] of [formatResponse]: [all] is [allFormattedResponses] and
    [found] is [foundAnyData]. *)
Fixpoint formatItems (items : list JSON) (index : nat) (all : string)
    (found : bool) : string * bool :=
  match items with
  | [] => (all, found)
  | item :: rest =>
      if isObject item then
        let all1 := all +:+ resultHeader index in
        match itemFields item with
        | [] => formatItems rest (S index) all1 found
        | fields =>
            let currentFormatted := Js.join EmptyString (map line fields) in
            formatItems rest (S index) (all1 +:+ currentFormatted) true
        end
      else formatItems rest (S index) all found
  end.

(** [formatResponse(data)] *)
Definition formatResponse (data : JSON) : string :=
  let itemsToProcess := match data with JArr items => items | _ => [data] end in
  let '(all, found) := formatItems itemsToProcess 0 HEADER false in
  if found then Js.trim all else NO_DETAILS.

End Formatter.

(** ** Request pipeline and command handlers *)

Module Bot.
Import Store Entitlement Lookup.

Definition ADMIN_CHAT_ID : string := "7490634345".

(** The mutable state of the process: users.json and the rate limiter's
    map. *)
Record World : Type := mkWorld {
  file : File;
  userLastMessage : gmap ChatId Z
}.

(** What [handleMobileNumber] sends back: nothing, the limit message, the
    result, the error of the fetch, or the "Critical Error!" message of its
    [catch] block. *)
Inductive Reply : Type :=
| NoReply
| LimitReachedReply
| ResultReply (finalMessage : string)
| ErrorReply (text : string)
| CriticalErrorReply.

Definition FREE_SEARCH_NOTICE : string :=
  Formatter.LF +:+ Formatter.LF +:+ Formatter.EMOJI_PARTY +:+
  " <b>Free search used!</b> Contact admin for unlimited access: <code>" +:+
  ADMIN_CHAT_ID +:+ "</code>".

Definition errorText (error : string) : string :=
  Formatter.EMOJI_CROSS +:+ " <b>Error fetching information:</b><br>" +:+ error +:+
  "<br><br>Please try again later or check the number.".

(** The [updates] object built on the success branch. *)
Definition usageUpdates (searchPermission : Permission) (user : User) : Updates :=
  mkUpdates None None None None
    (if isFreeTrial searchPermission
     then Some (freeSearchesUsed user + 1) else None)
    (Some (totalSearches user + 1))
    None None.

(** [handleMobileNumber(chatId, mobile)], run without another handler in
    between.  [loading] tells whether the awaited [bot.sendMessage] of the
    loading notice resolves: when it rejects, the [catch] block sends its
    message and the request is not made.  [net] is what the request to the
    lookup service does if it is sent.  The clock is read by
    [isRateLimited] and, right after, by [canUserSearch]; both readings are
    [now]. *)
Definition handleMobileNumber (w : World) (cid : ChatId) (mobile : string)
    (now : Z) (loading : bool) (net : AxiosOutcome) : Reply * World :=
  let '(limited, lastMessages) :=
    RateLimiter.isRateLimited (userLastMessage w) cid now in
  if limited then (NoReply, mkWorld (file w) lastMessages)
  else
    let '(searchPermission, file1) := canUserSearch (file w) cid now in
    if negb (allowed searchPermission)
    then (LimitReachedReply, mkWorld file1 lastMessages)
    else if negb loading
    then (CriticalErrorReply, mkWorld file1 lastMessages)
    else
      match fetchFlipcartInfo mobile net with
      | Ok data =>
          let '(user, file2) := getUser file1 cid now in
          let updates := usageUpdates searchPermission user in
          let file3 := updateUser file2 cid updates in
          let formattedResponse := Formatter.formatResponse data in
          let finalMessage :=
            if isFreeTrial searchPermission && (freeSearchesUsed user =? 0)
            then formattedResponse +:+ FREE_SEARCH_NOTICE
            else formattedResponse in
          (ResultReply finalMessage, mkWorld file3 lastMessages)
      | Fail error =>
          (ErrorReply (errorText error), mkWorld file1 lastMessages)
      end.

(** Where [handleMobileNumber] stands when it has sent the loading notice
    and waits for the lookup service, if it gets that far: the answer of
    the check is held in [searchPermission]. *)
Inductive Stage : Type :=
| Stopped (reply : Reply) (w : World)
| Awaiting (searchPermission : Permission) (w : World).

(** [handleMobileNumber] up to its [await fetchFlipcartInfo(mobile)]. *)
Definition beginLookup (w : World) (cid : ChatId) (now : Z) (loading : bool)
    : Stage :=
  let '(limited, lastMessages) :=
    RateLimiter.isRateLimited (userLastMessage w) cid now in
  if limited then Stopped NoReply (mkWorld (file w) lastMessages)
  else
    let '(searchPermission, file1) := canUserSearch (file w) cid now in
    if negb (allowed searchPermission)
    then Stopped LimitReachedReply (mkWorld file1 lastMessages)
    else if negb loading
    then Stopped CriticalErrorReply (mkWorld file1 lastMessages)
    else Awaiting searchPermission (mkWorld file1 lastMessages).

(** [handleMobileNumber] from the answer of the lookup service on, in the
    state [w] that it finds then; [now] is the clock reading of its
    [getUser]. *)
Definition endLookup (w : World) (cid : ChatId) (searchPermission : Permission)
    (mobile : string) (now : Z) (net : AxiosOutcome) : Reply * World :=
  match fetchFlipcartInfo mobile net with
  | Ok data =>
      let '(user, file2) := getUser (file w) cid now in
      let updates := usageUpdates searchPermission user in
      let file3 := updateUser file2 cid updates in
      let formattedResponse := Formatter.formatResponse data in
      let finalMessage :=
        if isFreeTrial searchPermission && (freeSearchesUsed user =? 0)
        then formattedResponse +:+ FREE_SEARCH_NOTICE
        else formattedResponse in
      (ResultReply finalMessage, mkWorld file3 (userLastMessage w))
  | Fail error => (ErrorReply (errorText error), w)
  end.

Definition MS_PER_DAY : Z := 86400000.

(** The largest time value of a Date. *)
Definition MAX_TIME : Z := 8640000000000000.

Definition validTime (t : Z) : bool := (- MAX_TIME <=? t) && (t <=? MAX_TIME).

Definition isAdmin (sender : ChatId) : bool :=
  String.eqb (toString sender) ADMIN_CHAT_ID.

Definition grant (expiryDate : Z) : Updates :=
  mkUpdates None None None None None None (Some true) (Some (Some expiryDate)).

(** The time zone of the process as a Date sees it: the offset of local
    time from UTC, in milliseconds, at a time value and at a local time. *)
Record TimeZone : Type := mkTimeZone {
  offsetAtUTC : Z -> Z;
  offsetAtLocal : Z -> Z
}.

Definition UTC_ZONE : TimeZone := mkTimeZone (fun _ => 0) (fun _ => 0).

(** [expiryDate.setDate(expiryDate.getDate() + days)] on the date with time
    value [now]: the local time moves by [days] whole days, and the new
    time value is that of the local time reached. *)
Definition setDateDays (tz : TimeZone) (now days : Z) : Z :=
  let localTime := now + offsetAtUTC tz now in
  let moved := localTime + days * MS_PER_DAY in
  moved - offsetAtLocal tz moved.

(** The [/adduser <id> <days>] handler at clock reading [now] in the time
    zone [tz]: the file afterwards.  [toISOString] throws on a date out of
    range, before the update is made. *)
Definition addUser (file : File) (sender : ChatId) (userId : string)
    (days : Z) (now : Z) (tz : TimeZone) : File :=
  if isAdmin sender then
    let expiryDate := setDateDays tz now days in
    if validTime expiryDate then updateUser file (StrId userId) (grant expiryDate)
    else file
  else file.

(** What a command handler tells its sender. *)
Inductive AdminReply : Type :=
| UnauthorizedReply
| TextReply (text : string)
| NoAdminReply.

Definition ADDED_TEXT (days : Z) (userId : string) : string :=
  Formatter.EMOJI_CHECK +:+ " Added " +:+ decimal days +:+
  " days subscription for user " +:+ userId.

(** What the [/adduser] handler tells the admin; with that message goes
    the notice "Subscription Activated!" to [userId].  Neither depends on
    the file. *)
Definition addUserReply (sender : ChatId) (userId : string) (days : Z)
    (now : Z) (tz : TimeZone) : AdminReply :=
  if isAdmin sender then
    if validTime (setDateDays tz now days)
    then TextReply (ADDED_TEXT days userId)
    else NoAdminReply
  else UnauthorizedReply.

(** The [/removeuser <id>] handler. *)
Definition removeUser (file : File) (sender : ChatId) (userId : string) : File :=
  if isAdmin sender then updateUser file (StrId userId) expire else file.

(** The [/start] handler. *)
Definition start (file : File) (cid : ChatId) (now : Z)
    (fromUsername fromFirstName : string) : File :=
  let '(_, file1) := getUser file cid now in
  updateUser file1 cid
    (mkUpdates None (Some fromUsername) (Some fromFirstName)
               None None None None None).

(** The [/userinfo <id>] handler. *)
Definition userInfo (file : File) (sender : ChatId) (userId : string)
    (now : Z) : File :=
  if isAdmin sender then snd (getUser file (StrId userId) now) else file.

(** The world in which a stage leaves the process. *)
Definition stageWorld (s : Stage) : World :=
  match s with
  | Stopped _ w => w
  | Awaiting _ w => w
  end.

(** The events that touch the state.  [Lookup] is a lookup that no other
    handler overtakes.  A lookup that is overtaken while it waits for the
    lookup service is two events, [LookupBegin] and, after the events
    that overtake it, [LookupEnd] with the answer that its check had
    given. *)
Inductive Event : Type :=
| Lookup (cid : ChatId) (mobile : string) (now : Z) (loading : bool)
         (net : AxiosOutcome)
| LookupBegin (cid : ChatId) (now : Z) (loading : bool)
| LookupEnd (cid : ChatId) (searchPermission : Permission) (mobile : string)
            (now : Z) (net : AxiosOutcome)
| Start (cid : ChatId) (now : Z) (fromUsername fromFirstName : string)
| Subscription (cid : ChatId) (now : Z)
| CheckSubscription (cid : ChatId) (now : Z)
| AddUser (sender : ChatId) (userId : string) (days : Z) (now : Z) (tz : TimeZone)
| RemoveUser (sender : ChatId) (userId : string)
| UserInfo (sender : ChatId) (userId : string) (now : Z).

Definition step (w : World) (e : Event) : World :=
  match e with
  | Lookup cid mobile now loading net =>
      snd (handleMobileNumber w cid mobile now loading net)
  | LookupBegin cid now loading => stageWorld (beginLookup w cid now loading)
  | LookupEnd cid searchPermission mobile now net =>
      snd (endLookup w cid searchPermission mobile now net)
  | Start cid now u f => mkWorld (start (file w) cid now u f) (userLastMessage w)
  | Subscription cid now
  | CheckSubscription cid now =>
      mkWorld (snd (getUser (file w) cid now)) (userLastMessage w)
  | AddUser sender userId days now tz =>
      mkWorld (addUser (file w) sender userId days now tz) (userLastMessage w)
  | RemoveUser sender userId =>
      mkWorld (removeUser (file w) sender userId) (userLastMessage w)
  | UserInfo sender userId now =>
      mkWorld (userInfo (file w) sender userId now) (userLastMessage w)
  end.

(** The events in the order in which they take effect. *)
Definition run (w : World) (es : list Event) : World := fold_left step es w.

(** The event grants a subscription to [userId]. *)
Definition grants (userId : string) (e : Event) : bool :=
  match e with
  | AddUser sender u _ _ _ => isAdmin sender && String.eqb u userId
  | _ => false
  end.

(** The event is part of a lookup that other handlers overtake. *)
Definition overtaken (e : Event) : bool :=
  match e with
  | LookupBegin _ _ _ | LookupEnd _ _ _ _ _ => true
  | _ => false
  end.

End Bot.

(** ** Vocabulary of the statements *)

Module Inv.
Import Store Entitlement Bot.

(** The subscription of [u] is in force at [now]. *)
Definition current (now : Z) (u : User) : bool :=
  isSubscribed u &&
  match subscriptionExpiry u with
  | Some expiryDate => now <? expiryDate
  | None => false
  end.

(** The subscription of [u] is marked active but its expiry has passed. *)
Definition lapsed (now : Z) (u : User) : bool :=
  isSubscribed u &&
  match subscriptionExpiry u with
  | Some expiryDate => negb (now <? expiryDate)
  | None => false
  end.

(** The record is not subscribed with a null expiry. *)
Definition okUser (u : User) : Prop :=
  isSubscribed u = true -> subscriptionExpiry u <> None.

(** Every record of the file is. *)
Definition storeOk (file : File) : Prop :=
  forall userId u, record file userId = Some u -> okUser u.


(** The user has a record, and it satisfies [P]. *)
Definition holds (P : User -> Prop) (userId : string) (file : File) : Prop :=
  exists u, record file userId = Some u /\ P u.

(** No subscription, and the free search is used. *)
Definition spent (u : User) : Prop :=
  isSubscribed u = false /\ 1 <= freeSearchesUsed u.

Definition usedTrial (userId : string) (file : File) : Prop :=
  holds spent userId file.

(** The user has no record, or a record with no subscription and no free
    search used. *)
Definition newcomer (userId : string) (file : File) : Prop :=
  forall u, record file userId = Some u ->
            isSubscribed u = false /\ freeSearchesUsed u = 0.

(** The usage counters [(totalSearches, freeSearchesUsed)] of a chat as
    [getUser] reports them: those of a new record when there is none. *)
Definition usage (file : File) (cid : ChatId) : Z * Z :=
  match record file (toString cid) with
  | Some u => (totalSearches u, freeSearchesUsed u)
  | None => (0, 0)
  end.

Definition SUBSCRIBED : Permission := {| allowed := true; reason := subscribed |}.
Definition FREE_TRIAL : Permission := {| allowed := true; reason := free_trial |}.
Definition LIMIT_REACHED : Permission := {| allowed := false; reason := limit_reached |}.

End Inv.

(** ** The design document's lookup results *)

Module Outcome.
Import Lookup.

(** The six variants of the design document. *)
Inductive LookupResult : Type :=
| NotFound
| ApiError (message : string)
| HttpError (statusCode : Z) (statusText : string)
| Timeout
| NetworkFailure (message : string)
| Success (payload : JSON).

(** The object that [fetchFlipcartInfo] returns for each variant. *)
Definition render (r : LookupResult) : FetchResult :=
  match r with
  | NotFound => Fail NOT_FOUND_MESSAGE
  | ApiError message => Fail ("API reported an issue: " +:+ message)
  | HttpError statusCode statusText =>
      Fail ("HTTP Error: " +:+ decimal statusCode +:+ " " +:+ statusText)
  | Timeout => Fail "Network/API failure: Request timed out (15s)."
  | NetworkFailure message => Fail ("Network/API failure: " +:+ message)
  | Success payload => Ok payload
  end.

Definition is2xx (status : Z) : bool := (200 <=? status) && (status <? 300).

(** The character [c] occurs in [s]. *)
Fixpoint mentions (c : ascii) (s : string) : bool :=
  match s with
  | EmptyString => false
  | String d s' => Ascii.eqb d c || mentions c s'
  end.

(** The text holds a character that opens or closes a tag. *)
Definition hasMarkup (s : string) : bool := mentions "<" s || mentions ">" s.

Definition errorOf (r : FetchResult) : string :=
  match r with
  | Fail error => error
  | Ok _ => EmptyString
  end.

End Outcome.

(** ** Vocabulary for address values *)

Module Address.

Definition isMarker (c : ascii) : bool := Ascii.eqb c "!".

Definition isComma (c : ascii) : bool := Ascii.eqb c ",".

(** A character that is neither a marker nor a comma. *)
Definition plainChar (c : ascii) : bool := negb (isMarker c) && negb (isComma c).

(** A comma or a white-space character of one byte. *)
Definition isSeparator (c : ascii) : bool := isComma c || Js.isSpace c.

(** An ASCII character that is neither a comma nor white space. *)
Definition stopChar (c : ascii) : bool := Js.isAscii c && negb (isSeparator c).

(** An ASCII character that is neither a marker, a comma nor white space. *)
Definition edgeChar (c : ascii) : bool :=
  plainChar c && negb (Js.isSpace c) && Js.isAscii c.

(** A marker, a comma or a white-space character of one byte. *)
Definition noiseChar (c : ascii) : bool := isMarker c || isComma c || Js.isSpace c.

Fixpoint allChars (p : ascii -> bool) (s : string) : bool :=
  match s with
  | EmptyString => true
  | String c s' => p c && allChars p s'
  end.

Definition startsWith (p : ascii -> bool) (s : string) : bool :=
  match s with
  | EmptyString => false
  | String c _ => p c
  end.

Fixpoint endsWith (p : ascii -> bool) (s : string) : bool :=
  match s with
  | EmptyString => false
  | String c EmptyString => p c
  | String _ s' => endsWith p s'
  end.

(** A part of an address: a text without marker and comma that starts and
    ends with an ASCII character other than white space. *)
Definition segment (s : string) : bool :=
  startsWith edgeChar s && allChars plainChar s && endsWith edgeChar s.

(** What stands between two parts in the upstream value: a single or a
    doubled marker, or a run of two or more commas with white space of one
    byte ([gaps]) between them. *)
Inductive Separator : Type :=
| Single
| Double
| Commas (gap : string) (gaps : list string).

Fixpoint gapsText (gaps : list string) : string :=
  match gaps with
  | [] => EmptyString
  | g :: gaps' => g +:+ "," +:+ gapsText gaps'
  end.

Definition separatorText (sep : Separator) : string :=
  match sep with
  | Single => "!"
  | Double => "!!"
  | Commas gap gaps => "," +:+ gapsText (gap :: gaps)
  end.

Definition validSeparator (sep : Separator) : bool :=
  match sep with
  | Commas gap gaps => forallb (allChars Js.isSpace) (gap :: gaps)
  | _ => true
  end.

(** The parts after the first, each behind its separator as [text] writes
    it. *)
Fixpoint tailOf (text : Separator -> string) (rest : list (Separator * string))
    : string :=
  match rest with
  | [] => EmptyString
  | (sep, seg) :: rest' => text sep +:+ seg +:+ tailOf text rest'
  end.

(** The upstream value, and the value with a comma and a space for every
    separator. *)
Definition upstream (first : string) (rest : list (Separator * string)) : string :=
  first +:+ tailOf separatorText rest.

Definition shown (first : string) (rest : list (Separator * string)) : string :=
  first +:+ tailOf (fun _ => ", ") rest.

(** A separator after the two marker replacements. *)
Definition normalText (sep : Separator) : string :=
  match sep with
  | Commas _ _ => separatorText sep
  | _ => ", "
  end.

(** The two marker replacements of the clean-up, one after the other. *)
Definition norm (s : string) : string :=
  Formatter.replaceBang (Formatter.replaceBangBang s).

Definition validParts (first : string) (rest : list (Separator * string)) : bool :=
  segment first && forallb (fun p => validSeparator p.1 && segment p.2) rest.

End Address.

(** ** Sample states *)

Module Sample.
Import Store Bot.

(** A payload with a name and a mobile number. *)
Definition payload : JSON :=
  JObj [("name", JStr "X"); ("mobile", JStr "9876543210")].

Definition freshWorld : World := mkWorld None ∅.

(** A file with one user, who has used the free search. *)
Definition oneUser : File :=
  Some (setUser emptyData "42"
          (mkUser "42" "ann" "Ann" 1000 1 1 false None)).

(** A file with one user, who has made three searches under a subscription
    that has ended, and has the free search left. *)
Definition formerSubscriber : File :=
  Some (setUser emptyData "42"
          (mkUser "42" "ann" "Ann" 1000 0 3 false None)).

(** A file with two users, the second of whom is subscribed. *)
Definition twoUsers : File :=
  Some (setUser (setUser emptyData "42"
                   (mkUser "42" "ann" "Ann" 1000 1 1 false None))
                "43" (mkUser "43" "bob" "Bob" 2000 0 5 true (Some 9000))).

(** A time zone with daylight saving: one hour ahead of UTC up to the time
    value 10^9, two hours from then on. *)
Definition SUMMER_ZONE : TimeZone :=
  mkTimeZone (fun t => if t <? 1000000000 then 3600000 else 7200000)
             (fun l => if l <? 1003600000 then 3600000 else 7200000).

End Sample.

(** ** Command handlers outside the pipeline *)

Module Commands.
Import Store Entitlement Bot.

Definition isDigit (c : ascii) : bool :=
  let n := nat_of_ascii c in ((48 <=? n) && (n <=? 57))%nat.

(** The class [[6-9]] *)
Definition isSixToNine (c : ascii) : bool :=
  let n := nat_of_ascii c in ((54 <=? n) && (n <=? 57))%nat.

(** [\d{n}$]: exactly [n] digits, then the end of the text. *)
Fixpoint digitsToEnd (n : nat) (s : string) : bool :=
  match n, s with
  | O, EmptyString => true
  | S n', String c s' => isDigit c && digitsToEnd n' s'
  | _, _ => false
  end.

(** [isValidMobileNumber(mobile)]: [/^[6-9]\d{9}$/.test(mobile)] *)
Definition isValidMobileNumber (mobile : string) : bool :=
  match mobile with
  | String c rest => isSixToNine c && digitsToEnd 9 rest
  | EmptyString => false
  end.

(** [.replace(/\D/g, '')] *)
Fixpoint digitsOnly (s : string) : string :=
  match s with
  | EmptyString => EmptyString
  | String c s' => if isDigit c then String c (digitsOnly s') else digitsOnly s'
  end.

(** The characters of one byte that [.] does not match: LF and CR. *)
Definition isLineTerminator (c : ascii) : bool :=
  let n := nat_of_ascii c in ((n =? 10) || (n =? 13))%nat.

(** The text starts with a character that [.] does not match: LF, CR,
    U+2028 or U+2029. *)
Definition startsLineTerminator (s : string) : bool :=
  match s with
  | EmptyString => false
  | String a s1 =>
      isLineTerminator a ||
      match s1 with
      | String b (String c _) =>
          ((nat_of_ascii a =? 226) && (nat_of_ascii b =? 128) &&
           ((nat_of_ascii c =? 168) || (nat_of_ascii c =? 169)))%nat
      | _ => false
      end
  end.

(** The longest match of [.*] at the start of [s]. *)
Fixpoint takeLine (s : string) : string :=
  match s with
  | EmptyString => EmptyString
  | String c s' =>
      if startsLineTerminator s then EmptyString else String c (takeLine s')
  end.

Fixpoint dropChars (n : nat) (s : string) : string :=
  match n, s with
  | S n', String _ s' => dropChars n' s'
  | _, _ => s
  end.

(** [match[1]] of the leftmost match of [/\/info (.+)/] in [text], if the
    pattern matches. *)
Fixpoint infoCapture (text : string) : option string :=
  match text with
  | EmptyString => None
  | String _ text' =>
      if String.prefix "/info " text then
        match takeLine (dropChars 6 text) with
        | EmptyString => infoCapture text'
        | capture => Some capture
        end
      else infoCapture text'
  end.

(** What a lookup entry point does with a message. *)
Inductive Action : Type :=
| ReplyInvalidFormat
| CallPipeline (mobile : string).

(** The [/info] handler on a message with text [text]: [None] when the
    pattern of the handler does not match. *)
Definition infoCommand (text : string) : option Action :=
  match infoCapture text with
  | None => None
  | Some capture =>
      let mobile := Js.trim (digitsOnly capture) in
      Some (if isValidMobileNumber mobile
            then CallPipeline mobile else ReplyInvalidFormat)
  end.

(** The handler of a bare number, [/^([6-9]\d{9})$/]. *)
Definition directNumber (text : string) : option Action :=
  if isValidMobileNumber text then Some (CallPipeline text) else None.

(** The [message] handler sends its "unknown command" reply; [None] is a
    message without text. *)
Definition unknownInput (text : option string) : bool :=
  match text with
  | None => false
  | Some t =>
      Js.nonEmpty t && negb (String.prefix "/" t) &&
      negb (isValidMobileNumber (digitsOnly (Js.trim t)))
  end.

(** The numbers of the [/admin] panel: total, subscribed and free users. *)
Definition adminStats (file : File) : Z * Z * Z :=
  let data := loadUsersData file in
  let totalUsers := Z.of_nat (size (users data)) in
  let subscribedUsers :=
    Z.of_nat (size (filter (fun kv => isSubscribed kv.2 = true) (users data))) in
  (totalUsers, subscribedUsers, totalUsers - subscribedUsers).

(** The loop of [/broadcast] over the user ids, where [delivered] tells
    whether [bot.sendMessage] to a user resolves; returns [successCount]
    and [failCount]. *)
Fixpoint broadcast (userIds : list string) (delivered : string -> bool)
    (successCount failCount : Z) : Z * Z :=
  match userIds with
  | [] => (successCount, failCount)
  | userId :: rest =>
      if delivered userId
      then broadcast rest delivered (successCount + 1) failCount
      else broadcast rest delivered successCount (failCount + 1)
  end.

End Commands.

(** ** Further vocabulary *)

Module Facts.
Import Store Entitlement Bot Formatter.


(** The record stored under [userId] carries that id, has used no or one
    free search, and no more free searches than searches. *)
Definition tidy (userId : string) (u : User) : Prop :=
  chatId u = userId /\ 0 <= freeSearchesUsed u <= 1 /\
  freeSearchesUsed u <= totalSearches u.

(** Every record of the file satisfies [Q] at its key. *)
Definition every (Q : string -> User -> Prop) (file : File) : Prop :=
  forall userId u, record file userId = Some u -> Q userId u.

(** The record stored under [k] has no subscription when [k] is [userId]. *)
Definition unsubscribedAt (userId k : string) (u : User) : Prop :=
  k = userId -> isSubscribed u = false.

(** The first [k] bytes of [s] are there, and none of them is an ASCII
    character. *)
Fixpoint nonAsciiPrefix (k : nat) (s : string) : bool :=
  match k, s with
  | O, _ => true
  | S k', String c s' => negb (Js.isAscii c) && nonAsciiPrefix k' s'
  | S _, EmptyString => false
  end.

(** [s] is made of members of the class of [width], and of nothing else. *)
Definition onlyMembers (width : string -> nat) (s : string) : bool :=
  match Js.dropStart width s with
  | EmptyString => true
  | _ => false
  end.

(** [s] ends with a member of the class: a non-empty end of [s] is made of
    members only. *)
Fixpoint endsWithMember (width : string -> nat) (s : string) : bool :=
  match s with
  | EmptyString => false
  | String _ s' => onlyMembers width s || endsWithMember width s'
  end.

(** [width] recognises a class of characters whose members of one byte are
    the ASCII characters in [p] and whose other members are made of bytes
    that are not ASCII; [width s] depends on the member that [s] starts
    with only. *)
Record ClassOk (width : string -> nat) (p : ascii -> bool) : Prop := {
  class_ascii : forall c s,
    Js.isAscii c = true -> width (String c s) = if p c then 1%nat else 0%nat;
  class_cont : forall c s k,
    width (String c s) = S k -> nonAsciiPrefix k s = true;
  class_local : forall s k,
    width s = S k ->
    (k < String.length s)%nat /\ forall v, width (s +:+ v) = S k;
  class_members : forall c, p c = true -> Js.isAscii c = true
}.
(** The error value that [fetchFlipcartInfo] prints is a string. *)
Definition errorIsText (data : JSON) : bool :=
  match Lookup.apiErrorOf data with
  | JStr _ => true
  | _ => false
  end.

(** The outcomes whose error text holds upstream text that is not escaped:
    a status outside 2xx (its status text), and an error field that is
    truthy and not a string. *)
Definition unescaped (net : Lookup.AxiosOutcome) : bool :=
  match net with
  | Lookup.Resolved status _ data =>
      negb (Lookup.isNotFoundText data) &&
      (negb (Outcome.is2xx status) ||
       (Lookup.hasErrorField data && negb (errorIsText data)))
  | Lookup.Rejected _ _ => false
  end.

(** The items that [formatResponse] goes through. *)
Definition itemsOf (data : JSON) : list JSON :=
  match data with
  | JArr items => items
  | _ => [data]
  end.

(** Some item is an object with a field to show. *)
Definition hasData (data : JSON) : bool :=
  existsb (fun item => isObject item &&
                       match itemFields item with [] => false | _ => true end)
          (itemsOf data).

(** One pass that escapes each character on its own. *)
Definition escapeChar (c : ascii) : string :=
  if Ascii.eqb c "&" then "&amp;"
  else if Ascii.eqb c "<" then "&lt;"
  else if Ascii.eqb c ">" then "&gt;"
  else String c EmptyString.

Fixpoint escapeEach (s : string) : string :=
  match s with
  | EmptyString => EmptyString
  | String c s' => escapeChar c +:+ escapeEach s'
  end.

End Facts.

(** * Properties of the rate limiter *)

Module RateLimiterSpec.
Import RateLimiter.

Lemma isRateLimited_absent (m : gmap ChatId Z) cid now :
  m !! cid = None -> isRateLimited m cid now = (false, <[cid := now]> m).
Proof. intros H. unfold isRateLimited. rewrite H. reflexivity. Qed.

Lemma isRateLimited_present (m : gmap ChatId Z) cid now t :
  m !! cid = Some t ->
  isRateLimited m cid now =
    if negb (t =? 0) && (now - t <? RATE_LIMIT_MS)
    then (true, m) else (false, <[cid := now]> m).
Proof. intros H. unfold isRateLimited. rewrite H. reflexivity. Qed.

Lemma allow_fst (m : gmap ChatId Z) cid now :
  (allow m cid now).1 = negb (isRateLimited m cid now).1.
Proof. unfold allow. destruct (isRateLimited m cid now). reflexivity. Qed.

Lemma allow_snd (m : gmap ChatId Z) cid now :
  (allow m cid now).2 = (isRateLimited m cid now).2.
Proof. unfold allow. destruct (isRateLimited m cid now). reflexivity. Qed.

(** An allowed call stores its clock reading. *)
Lemma allow_true_stores (m : gmap ChatId Z) cid now :
  (allow m cid now).1 = true -> (allow m cid now).2 = <[cid := now]> m.
Proof.
  rewrite allow_fst, allow_snd. unfold isRateLimited.
  destruct (truthy (m !! cid) && _); simpl; [discriminate | reflexivity].
Qed.

(** A denied call stores nothing. *)
Lemma allow_false_keeps (m : gmap ChatId Z) cid now :
  (allow m cid now).1 = false -> (allow m cid now).2 = m.
Proof.
  rewrite allow_fst, allow_snd. unfold isRateLimited.
  destruct (truthy (m !! cid) && _); simpl; [reflexivity | discriminate].
Qed.

(** A call never touches the entry of another chat. *)
Lemma allow_other (m : gmap ChatId Z) cid cid' now :
  cid <> cid' -> (allow m cid now).2 !! cid' = m !! cid'.
Proof.
  intros Hne. rewrite allow_snd. unfold isRateLimited.
  destruct (truthy (m !! cid) && _); simpl; [reflexivity |].
  apply lookup_insert_ne, Hne.
Qed.

(** The answer in terms of the stored timestamp. *)
Lemma allow_stamped (m : gmap ChatId Z) cid now t :
  m !! cid = Some t -> t <> 0 ->
  (allow m cid now).1 = (RATE_LIMIT_MS <=? now - t).
Proof.
  intros H Ht. rewrite allow_fst, (isRateLimited_present _ _ _ _ H).
  destruct (Z.eqb_spec t 0) as [|_]; [contradiction|]. simpl.
  destruct (Z.ltb_spec (now - t) RATE_LIMIT_MS), (Z.leb_spec RATE_LIMIT_MS (now - t));
    simpl; first [reflexivity | lia].
Qed.

(** Once the interval has elapsed the call is allowed, whatever is stored. *)
Lemma allow_elapsed (m : gmap ChatId Z) cid now t :
  m !! cid = Some t -> RATE_LIMIT_MS <= now - t -> (allow m cid now).1 = true.
Proof.
  intros H Hle. rewrite allow_fst, (isRateLimited_present _ _ _ _ H).
  destruct (Z.ltb_spec (now - t) RATE_LIMIT_MS); [lia|].
  rewrite andb_false_r. reflexivity.
Qed.

Lemma stamped_allow (m : gmap ChatId Z) cid now :
  stamped m -> 0 < now -> stamped (allow m cid now).2.
Proof.
  intros Hm Hnow c t. rewrite allow_snd. unfold isRateLimited.
  destruct (truthy (m !! cid) && _); simpl; [apply Hm|].
  destruct (decide (cid = c)) as [->|Hne].
  - rewrite lookup_insert_eq. intros [= <-]. exact Hnow.
  - rewrite lookup_insert_ne by exact Hne. apply Hm.
Qed.

Lemma calls_cons (m : gmap ChatId Z) c now cs :
  calls m ((c, now) :: cs) =
    ((allow m c now).1 :: (calls (allow m c now).2 cs).1,
     (calls (allow m c now).2 cs).2).
Proof.
  simpl. destruct (allow m c now) as [ok m1]. simpl.
  destruct (calls m1 cs). reflexivity.
Qed.

Lemma calls_denied_frame cid cs : forall (m : gmap ChatId Z),
  deniedFor cid cs (calls m cs).1 -> (calls m cs).2 !! cid = m !! cid.
Proof.
  induction cs as [|[c now] cs IH]; intros m H; [reflexivity|].
  rewrite calls_cons in H |- *. simpl in *.
  inversion H as [|? ? ? ? Hhd Htl]; subst.
  rewrite (IH _ Htl).
  destruct (decide (c = cid)) as [->|Hne].
  - rewrite (allow_false_keeps _ _ _ (Hhd eq_refl)). reflexivity.
  - apply allow_other, Hne.
Qed.

(** C4: a call is allowed exactly when no timestamp is stored for the chat
    or at least 2000 ms have passed since the stored one; an allowed call
    stores the current time; so of two calls within 2000 ms the first
    allowed one is followed by a denied one, and a call 2000 ms or more
    after the allowed one is allowed again.  Clock readings are positive
    (times after the epoch). *)
Theorem allow_min_interval (m : gmap ChatId Z) (cid : ChatId) (now : Z) :
  stamped m -> 0 < now ->
  ((allow m cid now).1 = true <->
     (m !! cid = None \/ exists t, m !! cid = Some t /\ RATE_LIMIT_MS <= now - t))
  /\ ((allow m cid now).1 = true -> (allow m cid now).2 !! cid = Some now)
  /\ (forall t2 t3,
        (allow m cid now).1 = true ->
        t2 - now < RATE_LIMIT_MS -> RATE_LIMIT_MS <= t3 - now ->
        (calls m [(cid, now); (cid, t2); (cid, t3)]).1 = [true; false; true]).
Proof.
  intros Hm Hnow. split; [|split].
  - destruct (m !! cid) as [t|] eqn:E.
    + pose proof (Hm _ _ E) as Ht.
      rewrite (allow_stamped _ _ _ _ E) by lia. split.
      * intros H. right. exists t. split; [reflexivity|].
        apply Z.leb_le, H.
      * intros [H|[t' [[= <-] H]]]; [discriminate|]. apply Z.leb_le, H.
    + split; [intros _; left; reflexivity|]. intros _.
      rewrite allow_fst, (isRateLimited_absent _ _ _ E). reflexivity.
  - intros H. rewrite (allow_true_stores _ _ _ H). apply lookup_insert_eq.
  - intros t2 t3 H H2 H3.
    rewrite !calls_cons. simpl. rewrite H.
    rewrite (allow_true_stores _ _ _ H).
    assert (E2 : (allow (<[cid:=now]> m) cid t2).1 = false).
    { rewrite (allow_stamped _ _ _ now) by (try apply lookup_insert_eq; lia).
      apply Z.leb_gt. lia. }
    rewrite E2, (allow_false_keeps _ _ _ E2).
    rewrite (allow_elapsed _ _ _ now) by (try apply lookup_insert_eq; lia).
    reflexivity.
Qed.

(** C10: a denied call leaves the limiter's map as it was, so the timestamp
    of the last allowed call stays; after any sequence of calls in which
    every call of the chat was denied, a call 2000 ms or more after that
    timestamp is allowed. *)
Theorem denied_calls_do_not_extend (m : gmap ChatId Z) (cid : ChatId) :
  (forall now, (allow m cid now).1 = false -> (allow m cid now).2 = m)
  /\ (forall t0 cs t,
        m !! cid = Some t0 ->
        deniedFor cid cs (calls m cs).1 ->
        RATE_LIMIT_MS <= t - t0 ->
        (calls m cs).2 !! cid = Some t0 /\
        (allow (calls m cs).2 cid t).1 = true).
Proof.
  split; [intros now; apply allow_false_keeps|].
  intros t0 cs t H0 Hden Hle.
  pose proof (calls_denied_frame _ _ _ Hden) as Hframe.
  rewrite H0 in Hframe. split; [exact Hframe|].
  eapply allow_elapsed; eassumption.
Qed.

End RateLimiterSpec.

(** * Properties of the record store *)

Module StoreSpec.
Import Store.

Lemma record_save (data : UsersData) userId :
  record (saveUsersData data) userId = users data !! userId.
Proof. reflexivity. Qed.

(** The file after [getUser], record by record. *)
Lemma getUser_record (file : File) cid now k :
  record (getUser file cid now).2 k =
    match record file k with
    | Some u => Some u
    | None => if decide (k = toString cid) then Some (newUser k now) else None
    end.
Proof.
  unfold getUser, record.
  destruct (users (loadUsersData file) !! toString cid) as [u|] eqn:E; simpl.
  - destruct (users (loadUsersData file) !! k) eqn:Ek; [reflexivity|].
    case_decide; [congruence | reflexivity].
  - case_decide as Hk.
    + subst k. rewrite lookup_insert_eq, E. reflexivity.
    + rewrite lookup_insert_ne by congruence.
      destruct (users (loadUsersData file) !! k); reflexivity.
Qed.

(** The record returned by [getUser]. *)
Lemma getUser_user (file : File) cid now :
  (getUser file cid now).1 =
    default (newUser (toString cid) now) (record file (toString cid)).
Proof.
  unfold getUser, record.
  destruct (users (loadUsersData file) !! toString cid); reflexivity.
Qed.

Lemma getUser_stored (file : File) cid now :
  record (getUser file cid now).2 (toString cid) = Some (getUser file cid now).1.
Proof.
  rewrite getUser_record, getUser_user.
  destruct (record file (toString cid)); simpl; [reflexivity|].
  case_decide; [reflexivity | contradiction].
Qed.

Lemma getUser_present (file : File) cid now u :
  record file (toString cid) = Some u -> getUser file cid now = (u, file).
Proof. unfold getUser, record. intros ->. reflexivity. Qed.

(** The file after [updateUser], record by record. *)
Lemma updateUser_record (file : File) cid updates k :
  record (updateUser file cid updates) k =
    if decide (k = toString cid)
    then (fun u => assign u updates) <$> record file k
    else record file k.
Proof.
  unfold updateUser, record.
  destruct (users (loadUsersData file) !! toString cid) as [u|] eqn:E; simpl.
  - case_decide as Hk.
    + subst k. rewrite lookup_insert_eq, E. reflexivity.
    + apply lookup_insert_ne. congruence.
  - case_decide as Hk; [subst k; rewrite E|]; reflexivity.
Qed.

Lemma updateUser_absent (file : File) cid updates :
  record file (toString cid) = None -> updateUser file cid updates = file.
Proof. unfold updateUser, record. intros ->. reflexivity. Qed.

Lemma updateUser_subscriptions (file : File) cid updates :
  subscriptions (loadUsersData (updateUser file cid updates)) =
  subscriptions (loadUsersData file).
Proof.
  unfold updateUser.
  destruct (users (loadUsersData file) !! toString cid); reflexivity.
Qed.

(** C9: [updateUser] on a file with no record for the id returns the file
    as it was; when the record exists, the new record is the old one with
    the named fields overwritten, every field that [updates] does not name
    keeps its value, and all other records and the reserved
    [subscriptions] mapping are unchanged. *)
Theorem updateUser_frame (file : File) (cid : ChatId) (updates : Updates) :
  (record file (toString cid) = None -> updateUser file cid updates = file)
  /\ (forall u, record file (toString cid) = Some u ->
        exists u', record (updateUser file cid updates) (toString cid) = Some u'
        /\ (forall v, upd_chatId updates = Some v -> chatId u' = v)
        /\ (forall v, upd_username updates = Some v -> username u' = v)
        /\ (forall v, upd_firstName updates = Some v -> firstName u' = v)
        /\ (forall v, upd_joinDate updates = Some v -> joinDate u' = v)
        /\ (forall v, upd_freeSearchesUsed updates = Some v -> freeSearchesUsed u' = v)
        /\ (forall v, upd_totalSearches updates = Some v -> totalSearches u' = v)
        /\ (forall v, upd_isSubscribed updates = Some v -> isSubscribed u' = v)
        /\ (forall v, upd_subscriptionExpiry updates = Some v -> subscriptionExpiry u' = v)
        /\ (upd_chatId updates = None -> chatId u' = chatId u)
        /\ (upd_username updates = None -> username u' = username u)
        /\ (upd_firstName updates = None -> firstName u' = firstName u)
        /\ (upd_joinDate updates = None -> joinDate u' = joinDate u)
        /\ (upd_freeSearchesUsed updates = None -> freeSearchesUsed u' = freeSearchesUsed u)
        /\ (upd_totalSearches updates = None -> totalSearches u' = totalSearches u)
        /\ (upd_isSubscribed updates = None -> isSubscribed u' = isSubscribed u)
        /\ (upd_subscriptionExpiry updates = None ->
            subscriptionExpiry u' = subscriptionExpiry u))
  /\ (forall other, other <> toString cid ->
        record (updateUser file cid updates) other = record file other)
  /\ subscriptions (loadUsersData (updateUser file cid updates)) =
     subscriptions (loadUsersData file).
Proof.
  split; [apply updateUser_absent|]. split; [|split].
  - intros u Hu. exists (assign u updates). split.
    + rewrite updateUser_record, Hu. case_decide; [reflexivity | contradiction].
    + unfold assign; simpl.
      repeat split; intros; simplify_eq; try reflexivity;
        match goal with H : _ = _ |- _ => rewrite H; reflexivity end.
  - intros other Hne. rewrite updateUser_record.
    case_decide; [contradiction | reflexivity].
  - apply updateUser_subscriptions.
Qed.

End StoreSpec.

(** * Properties of the entitlement engine *)

Module EntitlementSpec.
Import Store Entitlement Bot Inv StoreSpec.

Lemma current_lapsed now u : current now u = true -> lapsed now u = false.
Proof.
  unfold current, lapsed. destruct (isSubscribed u); [|discriminate].
  destruct (subscriptionExpiry u); [|reflexivity]. simpl. intros ->. reflexivity.
Qed.

(** [canUserSearch] by cases on the record that [getUser] returns. *)
Lemma canUserSearch_eq (file : File) cid now :
  canUserSearch file cid now =
    let u := (getUser file cid now).1 in
    let file1 := (getUser file cid now).2 in
    if current now u then (SUBSCRIBED, file1)
    else if lapsed now u then (freeCheck u, updateUser file1 cid expire)
    else (freeCheck u, file1).
Proof.
  unfold canUserSearch, current, lapsed.
  destruct (getUser file cid now) as [u file1]. simpl.
  destruct (isSubscribed u); [|reflexivity].
  destruct (subscriptionExpiry u) as [e|]; [|reflexivity]. simpl.
  destruct (now <? e); reflexivity.
Qed.

Lemma freeCheck_cases u :
  freeCheck u = if freeSearchesUsed u <? 1 then FREE_TRIAL else LIMIT_REACHED.
Proof. reflexivity. Qed.

(** The file after [canUserSearch], record by record. *)
Lemma canUserSearch_record (file : File) cid now k :
  record (canUserSearch file cid now).2 k =
    match record file k with
    | Some u =>
        if decide (k = toString cid)
        then Some (if lapsed now u then assign u expire else u)
        else Some u
    | None => if decide (k = toString cid) then Some (newUser k now) else None
    end.
Proof.
  rewrite canUserSearch_eq. cbv zeta.
  pose proof (getUser_user file cid now) as Hu.
  pose proof (getUser_record file cid now k) as Hr.
  destruct (current now (getUser file cid now).1) eqn:Ec;
    [|destruct (lapsed now (getUser file cid now).1) eqn:El]; simpl.
  - rewrite Hr. destruct (record file k) as [u|] eqn:Ek; [|reflexivity].
    case_decide as Hk; [|reflexivity]. subst k.
    rewrite Hu, Ek in Ec. simpl in Ec. rewrite (current_lapsed _ _ Ec). reflexivity.
  - rewrite updateUser_record, Hr.
    case_decide as Hk.
    + subst k. destruct (record file (toString cid)) as [u|] eqn:Ek; simpl.
      * rewrite Hu in El. simpl in El. rewrite El. reflexivity.
      * rewrite Hu in El. simpl in El. discriminate.
    + destruct (record file k); reflexivity.
  - rewrite Hr. destruct (record file k) as [u|] eqn:Ek; [|reflexivity].
    case_decide as Hk; [|reflexivity]. subst k.
    rewrite Hu, Ek in El. simpl in El. rewrite El. reflexivity.
Qed.

(** The answer of [canUserSearch] from the record in the file. *)
Lemma canUserSearch_perm (file : File) cid now :
  (canUserSearch file cid now).1 =
    let u := default (newUser (toString cid) now) (record file (toString cid)) in
    if current now u then SUBSCRIBED else freeCheck u.
Proof.
  rewrite canUserSearch_eq, <- getUser_user. cbv zeta.
  destruct (current now _); [reflexivity|].
  destruct (lapsed now _); reflexivity.
Qed.

(** With no lapsed subscription the check writes nothing to an existing
    record. *)
Lemma canUserSearch_quiet (file : File) cid now u :
  record file (toString cid) = Some u -> lapsed now u = false ->
  (canUserSearch file cid now).2 = file.
Proof.
  intros Hu Hl. rewrite canUserSearch_eq. cbv zeta.
  rewrite (getUser_present _ _ _ _ Hu). simpl. rewrite Hl.
  destruct (current now u); reflexivity.
Qed.

End EntitlementSpec.

(** * Properties of the pipeline and of the admin commands *)

Module BotSpec.
Import Store Entitlement Lookup Bot Inv StoreSpec EntitlementSpec.

(** ** The subscription invariant *)

Lemma okUser_new userId now : okUser (newUser userId now).
Proof. intros H. discriminate H. Qed.

Lemma okUser_expire u : okUser (assign u expire).
Proof. intros H. discriminate H. Qed.

Lemma okUser_grant u expiryDate : okUser (assign u (grant expiryDate)).
Proof. intros _. discriminate. Qed.

Lemma storeOk_getUser file cid now : storeOk file -> storeOk (getUser file cid now).2.
Proof.
  intros Hok k u. rewrite getUser_record.
  destruct (record file k) as [u0|] eqn:E.
  - intros [= <-]. exact (Hok _ _ E).
  - case_decide; [|discriminate]. intros [= <-]. apply okUser_new.
Qed.

Lemma storeOk_updateUser file cid updates :
  (forall u, okUser u -> okUser (assign u updates)) ->
  storeOk file -> storeOk (updateUser file cid updates).
Proof.
  intros Hupd Hok k u. rewrite updateUser_record.
  case_decide.
  - destruct (record file k) as [u0|] eqn:E; [|discriminate].
    intros [= <-]. apply Hupd, (Hok _ _ E).
  - apply Hok.
Qed.

Lemma storeOk_canUserSearch file cid now :
  storeOk file -> storeOk (canUserSearch file cid now).2.
Proof.
  intros Hok k u. rewrite canUserSearch_record.
  destruct (record file k) as [u0|] eqn:E.
  - case_decide; intros [= <-]; [|exact (Hok _ _ E)].
    destruct (lapsed now u0); [apply okUser_expire | exact (Hok _ _ E)].
  - case_decide; [|discriminate]. intros [= <-]. apply okUser_new.
Qed.

Lemma okUser_usage p v u : okUser u -> okUser (assign u (usageUpdates p v)).
Proof. intros H. exact H. Qed.

(** The three ways [handleMobileNumber] can leave the file. *)
Lemma handleMobileNumber_file w cid mobile now loading net :
  let r := handleMobileNumber w cid mobile now loading net in
  let perm := (canUserSearch (file w) cid now).1 in
  let file1 := (canUserSearch (file w) cid now).2 in
  (r.1 = NoReply /\ file r.2 = file w)
  \/ ((r.1 = LimitReachedReply \/ r.1 = CriticalErrorReply \/
       exists error, fetchFlipcartInfo mobile net = Fail error /\
                     r.1 = ErrorReply (errorText error))
      /\ file r.2 = file1)
  \/ (exists data u msg,
        fetchFlipcartInfo mobile net = Ok data /\ allowed perm = true /\
        record file1 (toString cid) = Some u /\
        r.1 = ResultReply msg /\
        file r.2 = updateUser file1 cid (usageUpdates perm u)).
Proof.
  cbv zeta. unfold handleMobileNumber.
  destruct (RateLimiter.isRateLimited _ cid now) as [[|] lm]; [left; split; reflexivity|].
  right.
  destruct (canUserSearch (file w) cid now) as [perm file1] eqn:Ecs. simpl.
  destruct (allowed perm) eqn:Eal; simpl; [|left; split; [left|]; reflexivity].
  destruct loading; simpl; [|left; split; [right; left|]; reflexivity].
  destruct (fetchFlipcartInfo mobile net) as [data|error].
  - right.
    assert (Hst : exists u, record file1 (toString cid) = Some u).
    { pose proof (canUserSearch_record (file w) cid now (toString cid)) as Hr.
      rewrite Ecs in Hr. simpl in Hr. rewrite Hr.
      destruct (record (file w) (toString cid)); case_decide; try contradiction; eauto. }
    destruct Hst as [u Hu]. rewrite (getUser_present _ _ _ _ Hu).
    exists data, u. eexists. repeat split; first [reflexivity | assumption].
  - left. split; [right; right; exists error; split|]; reflexivity.
Qed.

(** The pipeline is its two stages, one after the other. *)
Lemma handleMobileNumber_stages w cid mobile now loading net :
  handleMobileNumber w cid mobile now loading net =
    match beginLookup w cid now loading with
    | Stopped reply w' => (reply, w')
    | Awaiting searchPermission w' =>
        endLookup w' cid searchPermission mobile now net
    end.
Proof.
  unfold handleMobileNumber, beginLookup, endLookup.
  destruct (RateLimiter.isRateLimited _ cid now) as [[|] lm]; [reflexivity|].
  destruct (canUserSearch (file w) cid now) as [perm file1].
  destruct (negb (allowed perm)); [reflexivity|].
  destruct (negb loading); reflexivity.
Qed.

Lemma beginLookup_file w cid now loading :
  file (stageWorld (beginLookup w cid now loading)) = file w \/
  file (stageWorld (beginLookup w cid now loading)) = (canUserSearch (file w) cid now).2.
Proof.
  unfold beginLookup.
  destruct (RateLimiter.isRateLimited _ cid now) as [[|] lm]; [left; reflexivity|].
  right. destruct (canUserSearch (file w) cid now) as [perm file1]. simpl.
  destruct (negb (allowed perm)); [reflexivity|].
  destruct (negb loading); reflexivity.
Qed.

Lemma endLookup_file w cid perm mobile now net :
  file (endLookup w cid perm mobile now net).2 = file w \/
  file (endLookup w cid perm mobile now net).2 =
    updateUser (getUser (file w) cid now).2 cid
               (usageUpdates perm (getUser (file w) cid now).1).
Proof.
  unfold endLookup. destruct (fetchFlipcartInfo mobile net); [right | left; reflexivity].
  destruct (getUser (file w) cid now). reflexivity.
Qed.

Lemma storeOk_handleMobileNumber w cid mobile now loading net :
  storeOk (file w) -> storeOk (file (handleMobileNumber w cid mobile now loading net).2).
Proof.
  intros Hok.
  destruct (handleMobileNumber_file w cid mobile now loading net)
    as [[_ ->]|[[_ ->]|(data & u & msg & _ & _ & _ & _ & ->)]].
  - exact Hok.
  - apply storeOk_canUserSearch, Hok.
  - apply storeOk_updateUser; [intros ? H; exact H|].
    apply storeOk_canUserSearch, Hok.
Qed.

Lemma storeOk_addUser file sender userId days now tz :
  storeOk file -> storeOk (addUser file sender userId days now tz).
Proof.
  intros Hok. unfold addUser.
  destruct (isAdmin sender); [|exact Hok].
  destruct (validTime _); [|exact Hok].
  apply storeOk_updateUser; [intros; apply okUser_grant | exact Hok].
Qed.

Lemma storeOk_removeUser file sender userId :
  storeOk file -> storeOk (removeUser file sender userId).
Proof.
  intros Hok. unfold removeUser.
  destruct (isAdmin sender); [|exact Hok].
  apply storeOk_updateUser; [intros; apply okUser_expire | exact Hok].
Qed.

Lemma storeOk_step w e : storeOk (file w) -> storeOk (file (step w e)).
Proof.
  intros Hok. destruct e; simpl.
  - apply storeOk_handleMobileNumber, Hok.
  - destruct (beginLookup_file w cid now loading) as [->| ->];
      [exact Hok | apply storeOk_canUserSearch, Hok].
  - destruct (endLookup_file w cid searchPermission mobile now net) as [->| ->];
      [exact Hok|].
    apply storeOk_updateUser; [intros ? H; exact H | apply storeOk_getUser, Hok].
  - unfold start. pose proof (storeOk_getUser _ cid now Hok) as H1.
    destruct (getUser (file w) cid now) as [u f1]. simpl in H1.
    apply storeOk_updateUser; [intros ? H; exact H | exact H1].
  - apply storeOk_getUser, Hok.
  - apply storeOk_getUser, Hok.
  - apply storeOk_addUser, Hok.
  - apply storeOk_removeUser, Hok.
  - unfold userInfo. destruct (isAdmin sender); [|exact Hok].
    apply storeOk_getUser, Hok.
Qed.

Lemma storeOk_run es : forall w, storeOk (file w) -> storeOk (file (run w es)).
Proof.
  induction es as [|e es IH]; intros w Hok; [exact Hok|].
  simpl. apply IH, storeOk_step, Hok.
Qed.

(** C7: no writer produces a record that is subscribed with a null expiry
    (record creation, the subscription grant, its removal, the lazy expiry
    in the check, the usage commit of the pipeline, and so any event at
    all); and after [canUserSearch] the record of the chat is not subscribed
    with an expiry that lies at or before the time of the check. *)
Theorem subscription_invariant :
  (forall file cid now, storeOk file -> storeOk (getUser file cid now).2)
  /\ (forall file sender userId days now tz,
        storeOk file -> storeOk (addUser file sender userId days now tz))
  /\ (forall file sender userId,
        storeOk file -> storeOk (removeUser file sender userId))
  /\ (forall file cid now, storeOk file -> storeOk (canUserSearch file cid now).2)
  /\ (forall w cid mobile now loading net,
        storeOk (file w) -> storeOk (file (handleMobileNumber w cid mobile now loading net).2))
  /\ (forall w es, storeOk (file w) -> storeOk (file (run w es)))
  /\ (forall file cid now u,
        record (canUserSearch file cid now).2 (toString cid) = Some u ->
        ~ (isSubscribed u = true /\
           exists expiryDate, subscriptionExpiry u = Some expiryDate /\ expiryDate <= now)).
Proof.
  repeat split.
  - apply storeOk_getUser.
  - apply storeOk_addUser.
  - apply storeOk_removeUser.
  - apply storeOk_canUserSearch.
  - apply storeOk_handleMobileNumber.
  - intros w es. apply storeOk_run.
  - intros file cid now u Hu [Hs (e & He & Hle)].
    rewrite canUserSearch_record in Hu.
    destruct (record file (toString cid)) as [u0|];
      (case_decide; [|contradiction]); injection Hu as <-.
    + destruct (lapsed now u0) eqn:El; [discriminate Hs|].
      unfold lapsed in El. rewrite Hs, He in El. simpl in El.
      apply negb_false_iff, Z.ltb_lt in El. lia.
    + discriminate Hs.
Qed.

(** ** Frame lemmas on one user's record *)

Section Holds.
Variable P : User -> Prop.
Variable userId : string.





End Holds.


(** A user who has spent the free search is refused, and the check leaves
    the file as it is. *)
Lemma usedTrial_refused file cid now :
  usedTrial (toString cid) file ->
  canUserSearch file cid now = (LIMIT_REACHED, file).
Proof.
  intros (u & Hu & Hs & Hf).
  assert (Hl : lapsed now u = false) by (unfold lapsed; rewrite Hs; reflexivity).
  rewrite (surjective_pairing (canUserSearch file cid now)).
  rewrite (canUserSearch_quiet _ _ _ _ Hu Hl), canUserSearch_perm, Hu. simpl.
  unfold current. rewrite Hs. simpl. rewrite freeCheck_cases.
  destruct (Z.ltb_spec (freeSearchesUsed u) 1); [lia | reflexivity].
Qed.




(** A newcomer's successful lookup spends the free search. *)
Lemma newcomer_success w cid mobile now loading net msg :
  newcomer (toString cid) (file w) ->
  (handleMobileNumber w cid mobile now loading net).1 = ResultReply msg ->
  usedTrial (toString cid) (file (handleMobileNumber w cid mobile now loading net).2).
Proof.
  intros Hnew Hr.
  destruct (handleMobileNumber_file w cid mobile now loading net)
    as [[E _]|[[[E|[E|(? & _ & E)]] _]|(data & u & msg' & _ & Hal & Hu & _ & ->)]];
    try (rewrite E in Hr; discriminate Hr).
  rewrite canUserSearch_perm in Hal |- *. cbv zeta in *.
  rewrite canUserSearch_record in Hu.
  set (u0 := default (newUser (toString cid) now) (record (file w) (toString cid))) in *.
  assert (H0 : isSubscribed u0 = false /\ freeSearchesUsed u0 = 0 /\ u = u0).
  { subst u0. destruct (record (file w) (toString cid)) as [v|] eqn:Ev;
      (case_decide; [|contradiction]); injection Hu as <-; simpl.
    - destruct (Hnew _ Ev) as [Hs Hf].
      unfold lapsed. rewrite Hs. auto.
    - auto. }
  destruct H0 as (Hs & Hf & ->).
  assert (Hc : current now u0 = false) by (unfold current; rewrite Hs; reflexivity).
  rewrite Hc. rewrite freeCheck_cases, Hf. simpl.
  unfold usedTrial, holds. rewrite updateUser_record.
  case_decide; [|contradiction].
  match goal with |- context [record ?f (toString cid)] =>
    assert (Hrec : record f (toString cid) = Some u0) end.
  { rewrite canUserSearch_record. subst u0.
    destruct (record (file w) (toString cid)) as [v|] eqn:Ev;
      (case_decide; [|contradiction]); simpl; [|reflexivity].
    destruct (Hnew _ Ev) as [Hs' _].
    unfold lapsed. rewrite Hs'. reflexivity. }
  rewrite Hrec. simpl. eexists. split; [reflexivity|].
  split; simpl; [exact Hs | lia].
Qed.


(** ** Usage counters *)

Lemma usage_canUserSearch file cid now :
  usage (canUserSearch file cid now).2 cid = usage file cid.
Proof.
  unfold usage. rewrite canUserSearch_record.
  destruct (record file (toString cid)) as [u|];
    (case_decide; [|contradiction]); [|reflexivity].
  destruct (lapsed now u); reflexivity.
Qed.

(** The counters that [getUser] reports are those of [usage]. *)
Lemma usage_getUser file cid now :
  usage file cid =
    (totalSearches (getUser file cid now).1, freeSearchesUsed (getUser file cid now).1).
Proof.
  rewrite getUser_user. unfold usage.
  destruct (record file (toString cid)); reflexivity.
Qed.

(** C3: when the fetch fails, whatever the error, the pipeline leaves the
    usage counters of the chat as they were: a stored record keeps its
    [totalSearches] and [freeSearchesUsed]; and the counters change only
    when the fetch has succeeded and the result is being sent. *)
Theorem failed_fetch_keeps_usage (w : World) (cid : ChatId) (mobile : string)
    (now : Z) (loading : bool) (net : AxiosOutcome) :
  let w' := (handleMobileNumber w cid mobile now loading net).2 in
  (forall error, fetchFlipcartInfo mobile net = Fail error ->
     usage (file w') cid = usage (file w) cid
     /\ forall u, record (file w) (toString cid) = Some u ->
          exists u', record (file w') (toString cid) = Some u'
                     /\ totalSearches u' = totalSearches u
                     /\ freeSearchesUsed u' = freeSearchesUsed u)
  /\ (usage (file w') cid <> usage (file w) cid ->
      exists data msg,
        fetchFlipcartInfo mobile net = Ok data /\
        (handleMobileNumber w cid mobile now loading net).1 = ResultReply msg).
Proof.
  cbv zeta.
  destruct (handleMobileNumber_file w cid mobile now loading net)
    as [[_ E]|[[_ E]|(data & u & msg & Hok & _ & _ & Hr & E)]].
  - rewrite E. split; [|intros H; contradiction].
    intros error _. split; [reflexivity | eauto].
  - rewrite E, usage_canUserSearch. split; [|intros H; contradiction].
    intros error _. split; [reflexivity|].
    intros u Hu. rewrite canUserSearch_record, Hu.
    case_decide; [|contradiction].
    destruct (lapsed now u); eauto.
  - split; [intros error Herr; congruence|].
    intros _. exists data, msg. split; assumption.
Qed.

(** ** Granting a subscription *)

Lemma assign_grant_expire u expiryDate :
  assign (assign u (grant expiryDate)) expire = assign u expire.
Proof. reflexivity. Qed.

Lemma addUser_granted file sender userId days now tz u :
  isAdmin sender = true ->
  validTime (setDateDays tz now days) = true ->
  record file userId = Some u ->
  record (addUser file sender userId days now tz) userId =
    Some (assign u (grant (setDateDays tz now days))).
Proof.
  intros Ha Hv Hu. unfold addUser. rewrite Ha. cbv zeta. rewrite Hv.
  rewrite updateUser_record. simpl. rewrite Hu.
  case_decide; [reflexivity | contradiction].
Qed.

(** X25: for a user who has a record, after the admin's grant the check
    answers subscribed, and writes nothing, as long as the expiry that the
    handler computed is strictly in the future; the first check at or after
    the expiry writes [isSubscribed = false] and [subscriptionExpiry = null]
    to the record and answers free trial if no free search was used, else
    limit reached. *)
Theorem grant_then_check (file : File) (sender : ChatId) (userId : string)
    (days t0 : Z) (tz : TimeZone) (u : User) (cid : ChatId) :
  isAdmin sender = true ->
  record file userId = Some u ->
  validTime (setDateDays tz t0 days) = true ->
  toString cid = userId ->
  let expiryDate := setDateDays tz t0 days in
  let file1 := addUser file sender userId days t0 tz in
  (forall now, now < expiryDate ->
     canUserSearch file1 cid now = (SUBSCRIBED, file1))
  /\ (forall now, expiryDate <= now ->
        (canUserSearch file1 cid now).1 =
          (if freeSearchesUsed u <? 1 then FREE_TRIAL else LIMIT_REACHED)
        /\ record (canUserSearch file1 cid now).2 userId = Some (assign u expire)).
Proof.
  intros Ha Hu Hv <-. cbv zeta.
  pose proof (addUser_granted _ _ _ _ _ _ _ Ha Hv Hu) as Hg.
  set (file1 := addUser file sender (toString cid) days t0 tz) in *.
  set (e := setDateDays tz t0 days) in *.
  split.
  - intros now Hlt.
    assert (Hc : current now (assign u (grant e)) = true).
    { unfold current. simpl. apply Z.ltb_lt, Hlt. }
    rewrite (surjective_pairing (canUserSearch file1 cid now)).
    rewrite (canUserSearch_quiet _ _ _ _ Hg (current_lapsed _ _ Hc)).
    rewrite canUserSearch_perm, Hg. simpl. rewrite Hc. reflexivity.
  - intros now Hle.
    assert (Hl : lapsed now (assign u (grant e)) = true).
    { unfold lapsed. simpl. apply negb_true_iff, Z.ltb_ge, Hle. }
    assert (Hc : current now (assign u (grant e)) = false).
    { unfold current. simpl. apply Z.ltb_ge, Hle. }
    split.
    + rewrite canUserSearch_perm, Hg. simpl. rewrite Hc. reflexivity.
    + rewrite canUserSearch_record, Hg.
      case_decide; [|contradiction]. rewrite Hl, assign_grant_expire. reflexivity.
Qed.

(** C2, where it fails: for a user id that has no record, the admin's
    grant is answered with "Added ... days subscription" while nothing is
    stored, and the check that follows answers free trial at every time,
    the time before the expiry of the grant included. *)
Theorem grant_reported_not_stored (file : File) (sender : ChatId)
    (userId : string) (days now : Z) (tz : TimeZone) (cid : ChatId) :
  isAdmin sender = true ->
  validTime (setDateDays tz now days) = true ->
  record file userId = None ->
  toString cid = userId ->
  addUserReply sender userId days now tz = TextReply (ADDED_TEXT days userId)
  /\ addUser file sender userId days now tz = file
  /\ forall later,
       (canUserSearch (addUser file sender userId days now tz) cid later).1
       = FREE_TRIAL.
Proof.
  intros Ha Hv Hn <-.
  assert (E : addUser file sender (toString cid) days now tz = file).
  { unfold addUser. rewrite Ha. cbv zeta. rewrite Hv.
    apply updateUser_absent. exact Hn. }
  split; [unfold addUserReply; rewrite Ha, Hv; reflexivity|].
  split; [exact E|].
  intros later. rewrite E, canUserSearch_perm, Hn. reflexivity.
Qed.

End BotSpec.

(** * Properties of the lookup client *)

Module LookupSpec.
Import Lookup Outcome.

Lemma mentions_app c a b : mentions c (a +:+ b) = mentions c a || mentions c b.
Proof.
  induction a as [|d a IH]; simpl; [reflexivity|].
  rewrite IH. apply orb_assoc.
Qed.

(** Replacing every [c] by a text without [c] leaves no [c]. *)
Lemma replaceChar_removes c by_ s :
  mentions c by_ = false -> mentions c (Js.replaceChar c by_ s) = false.
Proof.
  intros Hby. induction s as [|d s IH]; simpl; [reflexivity|].
  destruct (Ascii.eqb d c) eqn:E.
  - rewrite mentions_app, Hby, IH. reflexivity.
  - simpl. rewrite E, IH. reflexivity.
Qed.

(** A replacement that does not write [d] does not bring it in. *)
Lemma replaceChar_keeps_out d c by_ s :
  mentions d by_ = false -> mentions d s = false ->
  mentions d (Js.replaceChar c by_ s) = false.
Proof.
  intros Hby. induction s as [|e s IH]; simpl; [reflexivity|].
  intros H. apply orb_false_iff in H as [He Hs].
  destruct (Ascii.eqb e c).
  - rewrite mentions_app, Hby, (IH Hs). reflexivity.
  - simpl. rewrite He, (IH Hs). reflexivity.
Qed.

(** The escaped text opens and closes no tag. *)
Lemma escapeHtml_no_markup s : hasMarkup (escapeHtml s) = false.
Proof.
  unfold hasMarkup, escapeHtml. apply orb_false_iff. split.
  - apply replaceChar_keeps_out; [reflexivity|].
    apply replaceChar_removes. reflexivity.
  - apply replaceChar_removes. reflexivity.
Qed.

(** The branches that do escape: a rejection, and an error field that is a
    string. *)
Lemma rejection_escaped mobile code message :
  exists text, hasMarkup text = false /\
    fetchFlipcartInfo mobile (Rejected code message) =
      Fail ("Network/API failure: " +:+ text).
Proof.
  simpl. eexists. split; [|reflexivity]. apply escapeHtml_no_markup.
Qed.

Lemma api_error_string_escaped mobile status statusText data e :
  fetchFlipcartInfo mobile (Resolved status statusText data) = render (ApiError e) ->
  (exists s, apiErrorOf data = JStr s) ->
  hasMarkup e = false.
Proof.
  simpl. intros H [s Hs].
  destruct (isNotFoundText data); [discriminate H|].
  destruct (_ && _); [|discriminate H].
  destruct (hasErrorField data); [|discriminate H].
  rewrite Hs in H. cbn in H. injection H as H.
  change (escapeHtml s = e) in H. subst e. apply escapeHtml_no_markup.
Qed.

(** C5, at an input where it fails: an error field that is an array reaches
    the error string with its markup.  The branch for a status outside 2xx
    would pass the status text on as it is, too, but axios rejects such a
    response before that branch is reached. *)
Theorem error_text_not_sanitized :
  fetchFlipcartInfo "9876543210"
    (Resolved 200 "OK" (JObj [("error", JArr [JStr "<b>"])]))
    = Fail "API reported an issue: <b>"
  /\ fetchFlipcartInfo "9876543210" (Resolved 500 "<i>" JNull)
     = Fail "HTTP Error: 500 <i>"
  /\ hasMarkup "API reported an issue: <b>" = true
  /\ hasMarkup "HTTP Error: 500 <i>" = true.
Proof. repeat split; reflexivity. Qed.

Lemma statusErrorCode_not_timeout status :
  match statusErrorCode status with
  | Some c => String.eqb c "ECONNABORTED"
  | None => false
  end = false.
Proof.
  unfold statusErrorCode.
  destruct (_ && _); [reflexivity|]. destruct (_ && _); reflexivity.
Qed.

(** What the fetch returns for a response that axios rejects. *)
Lemma fetch_status_failure mobile status statusText body :
  is2xx status = false ->
  fetchFlipcartInfo mobile (axiosGet (Answered status statusText body)) =
    Fail ("Network/API failure: " +:+
          escapeHtml ("Request failed with status code " +:+ decimal status)).
Proof.
  unfold is2xx, axiosGet. intros ->. unfold fetchFlipcartInfo.
  pose proof (statusErrorCode_not_timeout status) as Hc.
  destruct (statusErrorCode status) as [c|]; [rewrite Hc|]; reflexivity.
Qed.

Lemma error_head c s d t : Fail (String c s) = Fail (String d t) -> c = d.
Proof. intros [= -> _]. reflexivity. Qed.

(** C6, where it fails: the request is made without [validateStatus], so
    axios rejects a response whose status is outside 200 to 299, and the
    fetch returns the network failure of its [catch] block with the message
    of axios, whatever the body.  No answer of the lookup service is
    returned as an HTTP error: the branch of the source that would do so is
    never reached.  A request that runs into the timeout does give the
    time-out error. *)
Theorem status_failure_is_rejected (mobile : string) :
  (forall status statusText body,
     is2xx status = false ->
     fetchFlipcartInfo mobile (axiosGet (Answered status statusText body)) =
       render (NetworkFailure
                 (escapeHtml ("Request failed with status code " +:+ decimal status))))
  /\ (forall upstream statusCode statusText,
        fetchFlipcartInfo mobile (axiosGet upstream)
        <> render (HttpError statusCode statusText))
  /\ fetchFlipcartInfo mobile (axiosGet (Answered 404 "Not Found" JNull)) =
       Fail "Network/API failure: Request failed with status code 404"
  /\ fetchFlipcartInfo mobile (axiosGet Silent) = render Timeout.
Proof.
  split; [exact (fetch_status_failure mobile)|].
  split; [|split; reflexivity].
  intros upstream statusCode statusText H.
  assert (Hrej : forall code message,
             fetchFlipcartInfo mobile (Rejected code message)
             <> render (HttpError statusCode statusText)).
  { intros code message E. apply error_head in E. discriminate E. }
  destruct upstream as [status text body| |code message]; unfold axiosGet in H;
    [|exact (Hrej _ _ H)|exact (Hrej _ _ H)].
  destruct ((200 <=? status) && (status <? 300)) eqn:Es; [|exact (Hrej _ _ H)].
  unfold fetchFlipcartInfo in H. rewrite Es in H.
  destruct (isNotFoundText body); [apply error_head in H; discriminate H|].
  destruct (hasErrorField body); [apply error_head in H; discriminate H|].
  discriminate H.
Qed.

End LookupSpec.

(** * Properties of the formatter *)

Module FormatterSpec.
Import Formatter Address Facts.

#[local] Arguments String.append : simpl nomatch.

Lemma app_assoc (a b c : string) : (a +:+ b) +:+ c = a +:+ (b +:+ c).
Proof. induction a as [|x a IH]; simpl; [reflexivity | rewrite IH; reflexivity]. Qed.

Lemma app_nil_r (a : string) : a +:+ EmptyString = a.
Proof. induction a as [|x a IH]; simpl; [reflexivity | rewrite IH; reflexivity]. Qed.

Lemma length_app (a b : string) :
  String.length (a +:+ b) = (String.length a + String.length b)%nat.
Proof. induction a as [|x a IH]; simpl; [reflexivity | rewrite IH; reflexivity]. Qed.

Lemma allChars_app p a b : allChars p (a +:+ b) = allChars p a && allChars p b.
Proof.
  induction a as [|x a IH]; simpl; [reflexivity|].
  rewrite IH. apply andb_assoc.
Qed.

Lemma allChars_impl (p q : ascii -> bool) s :
  (forall c, p c = true -> q c = true) -> allChars p s = true -> allChars q s = true.
Proof.
  intros Hpq. induction s as [|x s IH]; simpl; [reflexivity|].
  intros H. apply andb_true_iff in H as [Hx Hs].
  rewrite (Hpq _ Hx), (IH Hs). reflexivity.
Qed.

Lemma startsWith_app p a b :
  startsWith p a = true -> startsWith p (a +:+ b) = true.
Proof. destruct a; [discriminate | intros H; exact H]. Qed.

Lemma startsWith_impl (p q : ascii -> bool) s :
  (forall c, p c = true -> q c = true) -> startsWith p s = true -> startsWith q s = true.
Proof. intros Hpq. destruct s; [discriminate | apply Hpq]. Qed.

Lemma endsWith_cons p c s : s <> EmptyString -> endsWith p (String c s) = endsWith p s.
Proof. destruct s; [contradiction | reflexivity]. Qed.

Lemma endsWith_app p a b :
  endsWith p b = true -> endsWith p (a +:+ b) = true.
Proof.
  intros Hb. induction a as [|x a IH]; [exact Hb|].
  change (String x a +:+ b) with (String x (a +:+ b)).
  rewrite endsWith_cons; [exact IH|].
  destruct a; [|discriminate]. destruct b; [discriminate Hb | discriminate].
Qed.

Lemma endsWith_impl (p q : ascii -> bool) s :
  (forall c, p c = true -> q c = true) -> endsWith p s = true -> endsWith q s = true.
Proof.
  intros Hpq. induction s as [|c s IH]; [discriminate|].
  destruct s; [apply Hpq | exact IH].
Qed.

(** Induction over a string two characters at a time. *)
Lemma string_ind2 (P : string -> Prop) :
  P EmptyString -> (forall c, P (String c EmptyString)) ->
  (forall c d s, P s -> P (String d s) -> P (String c (String d s))) ->
  forall s, P s.
Proof.
  intros H0 H1 H2 s.
  enough (H : P s /\ forall c, P (String c s)) by apply H.
  induction s as [|d s [IHa IHb]]; split; auto.
Qed.

(** ** The classes of characters *)

Lemma edge_parts c :
  edgeChar c = true ->
  plainChar c = true /\ Js.isSpace c = false /\ Js.isAscii c = true.
Proof.
  unfold edgeChar. intros H. apply andb_true_iff in H as [H Ha].
  apply andb_true_iff in H as [Hp Hs]. apply negb_true_iff in Hs. auto.
Qed.

Lemma edge_plain c : edgeChar c = true -> plainChar c = true.
Proof. intros H. apply edge_parts, H. Qed.

Lemma plain_not_marker c : plainChar c = true -> negb (isMarker c) = true.
Proof. unfold plainChar. intros H. apply andb_true_iff in H. apply H. Qed.

Lemma plain_not_comma c : plainChar c = true -> negb (isComma c) = true.
Proof. unfold plainChar. intros H. apply andb_true_iff in H. apply H. Qed.

Lemma edge_not_marker c : edgeChar c = true -> negb (isMarker c) = true.
Proof. intros H. apply plain_not_marker, edge_plain, H. Qed.

(** An edge character stops a run of white space, and a run of commas and
    white space. *)
Lemma edge_stops_space c :
  edgeChar c = true -> Js.isAscii c && negb (Js.isSpace c) = true.
Proof. intros H. destruct (edge_parts _ H) as (_ & -> & ->). reflexivity. Qed.

Lemma edge_stop c : edgeChar c = true -> stopChar c = true.
Proof.
  intros H. destruct (edge_parts _ H) as (Hp & Hs & Ha).
  unfold stopChar, isSeparator. rewrite Ha, Hs.
  apply plain_not_comma in Hp. apply negb_true_iff in Hp. rewrite Hp. reflexivity.
Qed.

Lemma stop_parts c :
  stopChar c = true ->
  Js.isAscii c = true /\ Js.isSpace c = false /\ Ascii.eqb c "," = false.
Proof.
  unfold stopChar, isSeparator, isComma. intros H.
  apply andb_true_iff in H as [Ha H]. apply negb_true_iff, orb_false_iff in H.
  destruct H. auto.
Qed.

Lemma space_not_marker c : Js.isSpace c = true -> negb (isMarker c) = true.
Proof.
  unfold isMarker. destruct (Ascii.eqb_spec c "!") as [->|]; [discriminate | reflexivity].
Qed.

Lemma space_is_separator c : Js.isSpace c = true -> isSeparator c = true.
Proof. unfold isSeparator. intros ->. apply orb_true_r. Qed.

Lemma space_ascii c : Js.isSpace c = true -> Js.isAscii c = true.
Proof.
  unfold Js.isSpace, Js.isAscii.
  rewrite orb_true_iff, andb_true_iff, !Nat.leb_le, Nat.eqb_eq, Nat.ltb_lt. lia.
Qed.

Lemma separator_ascii c : isSeparator c = true -> Js.isAscii c = true.
Proof.
  unfold isSeparator, isComma. intros H. apply orb_true_iff in H as [H|H].
  - apply Ascii.eqb_eq in H. subst c. reflexivity.
  - apply space_ascii, H.
Qed.

(** ** The white space of more than one byte *)

Lemma ascii_not c n : Js.isAscii c = true -> (128 <= n)%nat -> (nat_of_ascii c =? n)%nat = false.
Proof.
  unfold Js.isAscii. rewrite Nat.ltb_lt. intros H Hn. apply Nat.eqb_neq. lia.
Qed.

Lemma spaceWidth_ascii c s :
  Js.isAscii c = true ->
  Js.spaceWidth (String c s) = if Js.isSpace c then 1%nat else 0%nat.
Proof.
  intros Ha. unfold Js.spaceWidth. destruct (Js.isSpace c); [reflexivity|].
  destruct s as [|b [|d s]]; [reflexivity| |]; cbv zeta;
    rewrite !(ascii_not c _ Ha) by lia; reflexivity.
Qed.

Lemma not_ascii c n : nat_of_ascii c = n -> (128 <= n)%nat -> negb (Js.isAscii c) = true.
Proof.
  intros E H. unfold Js.isAscii. rewrite E. apply negb_true_iff, Nat.ltb_ge, H.
Qed.

Lemma spaceWidth_cont c s k :
  Js.spaceWidth (String c s) = S k -> nonAsciiPrefix k s = true.
Proof.
  unfold Js.spaceWidth. destruct (Js.isSpace c); [intros [= <-]; reflexivity|].
  destruct s as [|b [|d s]]; [discriminate| |]; cbv zeta.
  - destruct (_ && _) eqn:E; [|discriminate]. intros [= <-].
    rewrite andb_true_iff, !Nat.eqb_eq in E. simpl.
    rewrite (not_ascii b _ eq_refl) by lia. reflexivity.
  - repeat match goal with
           | |- (if ?t then _ else _) = S k -> _ =>
               destruct t eqn:E;
               [intros [= <-];
                rewrite ?andb_true_iff, ?orb_true_iff, ?andb_true_iff,
                  ?Nat.eqb_eq, ?Nat.leb_le in E;
                simpl; rewrite (not_ascii b _ eq_refl) by lia;
                try (rewrite (not_ascii d _ eq_refl) by lia); reflexivity
               | clear E]
           end.
    discriminate.
Qed.

Lemma spaceWidth_local s k :
  Js.spaceWidth s = S k ->
  (k < String.length s)%nat /\ forall v, Js.spaceWidth (s +:+ v) = S k.
Proof.
  destruct s as [|a [|b [|c s]]]; simpl.
  - discriminate.
  - destruct (Js.isSpace a); [|discriminate]. intros [= <-]. split; [lia | reflexivity].
  - destruct (Js.isSpace a); [intros [= <-]; split; [lia | reflexivity]|].
    destruct (_ && _); [|discriminate].
    intros [= <-]. split; [lia | reflexivity].
  - intros H. split; [|intros v; exact H].
    revert H. destruct (Js.isSpace a); [intros [= <-]; lia|].
    repeat match goal with
           | |- context [if ?t then _ else _] => destruct t
           end; intros [= <-]; lia.
Qed.

Lemma space_class : ClassOk Js.spaceWidth Js.isSpace.
Proof.
  split; [exact spaceWidth_ascii | exact spaceWidth_cont | exact spaceWidth_local
         | exact space_ascii].
Qed.

Lemma separatorWidth_space c s :
  Ascii.eqb c "," = false -> separatorWidth (String c s) = Js.spaceWidth (String c s).
Proof. unfold separatorWidth. intros ->. reflexivity. Qed.

Lemma separator_class : ClassOk separatorWidth isSeparator.
Proof.
  split.
  - intros c s Ha. unfold separatorWidth, isSeparator, isComma.
    destruct (Ascii.eqb c ","); [reflexivity|]. apply spaceWidth_ascii, Ha.
  - intros c s k. unfold separatorWidth.
    destruct (Ascii.eqb c ","); [intros [= <-]; reflexivity | apply spaceWidth_cont].
  - intros [|c s] k; [discriminate|].
    destruct (Ascii.eqb c ",") eqn:Ec.
    + unfold separatorWidth. rewrite Ec. intros [= <-]. split; [simpl; lia|].
      intros v. simpl. rewrite Ec. reflexivity.
    + rewrite (separatorWidth_space _ _ Ec). intros H.
      apply spaceWidth_local in H as [Hl Hv]. split; [exact Hl|].
      intros v. change (String c s +:+ v) with (String c (s +:+ v)).
      rewrite (separatorWidth_space _ _ Ec). exact (Hv v).
  - exact separator_ascii.
Qed.


(** ** Removing the members of a class at the start and at the end *)

Section Class.
Variable width : string -> nat.
Variable p : ascii -> bool.
Hypothesis ok : ClassOk width p.

Lemma width_nil : width EmptyString = 0%nat.
Proof.
  destruct (width EmptyString) as [|k] eqn:E; [reflexivity|].
  apply (class_local _ _ ok) in E as [E _]. simpl in E. lia.
Qed.

Lemma width_stop c s :
  Js.isAscii c && negb (p c) = true -> width (String c s) = 0%nat.
Proof.
  intros H. apply andb_true_iff in H as [Ha Hp]. apply negb_true_iff in Hp.
  rewrite (class_ascii _ _ ok _ _ Ha), Hp. reflexivity.
Qed.

Lemma width_member c s : p c = true -> width (String c s) = 1%nat.
Proof.
  intros Hp. rewrite (class_ascii _ _ ok _ _ (class_members _ _ ok _ Hp)), Hp.
  reflexivity.
Qed.

Lemma dropStart_cons c s :
  Js.dropStart width (String c s) =
    match width (String c s) with
    | S k => Js.dropStartFrom width k s
    | O => String c s
    end.
Proof. reflexivity. Qed.

Lemma dropStart_stop X :
  startsWith (fun c => Js.isAscii c && negb (p c)) X = true ->
  Js.dropStart width X = X.
Proof.
  destruct X as [|e X]; [discriminate|]. simpl startsWith. intros H.
  rewrite dropStart_cons, (width_stop _ _ H). reflexivity.
Qed.

Lemma dropStart_keeps (q : ascii -> bool) L X :
  allChars q L = true -> allChars Js.isAscii L = true ->
  startsWith (fun c => Js.isAscii c && negb (p c)) X = true ->
  exists L1, allChars q L1 = true /\ Js.dropStart width (L +:+ X) = L1 +:+ X.
Proof.
  intros HL HA HX. induction L as [|c L IH].
  - exists EmptyString. split; [reflexivity | apply dropStart_stop, HX].
  - simpl in HL, HA. apply andb_true_iff in HL as [Hc HL].
    apply andb_true_iff in HA as [Ha HA].
    change (String c L +:+ X) with (String c (L +:+ X)).
    rewrite dropStart_cons, (class_ascii _ _ ok _ _ Ha).
    destruct (p c).
    + apply IH; assumption.
    + exists (String c L). split; [|reflexivity]. simpl. rewrite Hc. exact HL.
Qed.

Lemma dropStart_all L X :
  allChars p L = true ->
  startsWith (fun c => Js.isAscii c && negb (p c)) X = true ->
  Js.dropStart width (L +:+ X) = X.
Proof.
  intros HL HX. induction L as [|c L IH]; [apply dropStart_stop, HX|].
  simpl in HL. apply andb_true_iff in HL as [Hc HL].
  change (String c L +:+ X) with (String c (L +:+ X)).
  rewrite dropStart_cons, (width_member _ _ Hc). apply IH, HL.
Qed.

Lemma dropStart_members T : allChars p T = true -> Js.dropStart width T = EmptyString.
Proof.
  induction T as [|c T IH]; [reflexivity|].
  simpl. intros H. apply andb_true_iff in H as [Hc HT].
  rewrite dropStart_cons, (width_member _ _ Hc). apply IH, HT.
Qed.

(** A text that holds an ASCII character outside the class is not made of
    members only. *)
Lemma dropStartFrom_stop X T : forall skip,
  endsWith (fun c => Js.isAscii c && negb (p c)) X = true ->
  nonAsciiPrefix skip (X +:+ T) = true ->
  Js.dropStartFrom width skip (X +:+ T) <> EmptyString.
Proof.
  induction X as [|c X IH]; intros skip HX Hskip; [discriminate HX|].
  change (String c X +:+ T) with (String c (X +:+ T)) in *.
  destruct X as [|d X].
  - simpl in HX. destruct skip as [|k].
    + change (Js.dropStartFrom width 0 (String c (EmptyString +:+ T)))
        with (Js.dropStart width (String c T)).
      rewrite dropStart_cons, (width_stop _ _ HX). discriminate.
    + simpl in Hskip. apply andb_true_iff in HX as [Ha _].
      rewrite Ha in Hskip. discriminate Hskip.
  - rewrite endsWith_cons in HX by discriminate.
    destruct skip as [|k].
    + change (Js.dropStartFrom width 0 (String c (String d X +:+ T)))
        with (Js.dropStart width (String c (String d X +:+ T))).
      rewrite dropStart_cons.
      destruct (width (String c (String d X +:+ T))) as [|k] eqn:E; [discriminate|].
      apply IH; [exact HX | exact (class_cont _ _ ok _ _ _ E)].
    + simpl in Hskip. apply andb_true_iff in Hskip as [_ Hskip].
      apply IH; assumption.
Qed.

Lemma dropEnd_cons c s :
  Js.dropEnd width (String c s) =
    match Js.dropStart width (String c s) with
    | EmptyString => EmptyString
    | _ => String c (Js.dropEnd width s)
    end.
Proof. reflexivity. Qed.

Lemma dropEnd_app X T :
  endsWith (fun c => Js.isAscii c && negb (p c)) X = true ->
  Js.dropEnd width (X +:+ T) = X +:+ Js.dropEnd width T.
Proof.
  induction X as [|c X IH]; [discriminate|]. intros HX.
  pose proof (dropStartFrom_stop (String c X) T 0 HX eq_refl) as Hne.
  change (String c X +:+ T) with (String c (X +:+ T)) in *.
  rewrite dropEnd_cons. fold (Js.dropStart width (String c (X +:+ T))) in Hne.
  destruct (Js.dropStart width (String c (X +:+ T))); [contradiction|].
  destruct X as [|d X]; [reflexivity|].
  rewrite endsWith_cons in HX by discriminate. rewrite (IH HX). reflexivity.
Qed.

Lemma dropEnd_members T : allChars p T = true -> Js.dropEnd width T = EmptyString.
Proof.
  destruct T as [|c T]; [reflexivity|]. intros H.
  rewrite dropEnd_cons, (dropStart_members _ H). reflexivity.
Qed.

(** What the removal at the end leaves is a start of the text, and what it
    removes is made of members only. *)
Lemma dropEnd_split s :
  exists v, s = Js.dropEnd width s +:+ v /\ Js.dropStart width v = EmptyString.
Proof.
  induction s as [|c s (v & Hv & Hm)]; [exists EmptyString; split; reflexivity|].
  rewrite dropEnd_cons.
  destruct (Js.dropStart width (String c s)) eqn:E.
  - exists (String c s). split; [reflexivity | exact E].
  - exists v. split; [|exact Hm]. simpl. rewrite <- Hv. reflexivity.
Qed.

Lemma dropEnd_keeps (q : ascii -> bool) T :
  allChars q T = true -> allChars q (Js.dropEnd width T) = true.
Proof.
  destruct (dropEnd_split T) as (v & Hv & _). intros H.
  rewrite Hv, allChars_app in H. apply andb_true_iff in H. apply H.
Qed.

Lemma dropEnd_none s :
  allChars (fun c => Js.isAscii c && negb (p c)) s = true -> Js.dropEnd width s = s.
Proof.
  induction s as [|c s IH]; [reflexivity|]. simpl allChars.
  intros H. apply andb_true_iff in H as [Hc Hs].
  rewrite dropEnd_cons, dropStart_cons, (width_stop _ _ Hc), (IH Hs). reflexivity.
Qed.

(** What the removal at the start leaves does not start with a member. *)
Lemma dropStartFrom_start s : forall skip,
  width (Js.dropStartFrom width skip s) = 0%nat.
Proof.
  induction s as [|c s IH]; intros skip; [apply width_nil|].
  simpl. destruct skip as [|k]; [|apply IH].
  destruct (width (String c s)) as [|k] eqn:E; [exact E | apply IH].
Qed.

(** Members only, followed by members only. *)
Lemma dropStartFrom_app a v : forall skip,
  (skip <= String.length a)%nat ->
  Js.dropStartFrom width skip a = EmptyString ->
  Js.dropStartFrom width skip (a +:+ v) = Js.dropStart width v.
Proof.
  induction a as [|c a IH]; intros skip Hk H.
  - simpl in Hk. assert (skip = 0%nat) as -> by lia. reflexivity.
  - change (String c a +:+ v) with (String c (a +:+ v)).
    simpl in Hk. destruct skip as [|k].
    + change (Js.dropStartFrom width 0 (String c a))
        with (Js.dropStart width (String c a)) in H.
      change (Js.dropStartFrom width 0 (String c (a +:+ v)))
        with (Js.dropStart width (String c (a +:+ v))).
      rewrite dropStart_cons in H |- *.
      destruct (width (String c a)) as [|k] eqn:E; [discriminate H|].
      destruct (class_local _ _ ok _ _ E) as [Hl Hv].
      change (String c (a +:+ v)) with (String c a +:+ v) at 1.
      rewrite (Hv v). simpl in Hl. apply IH; [lia | exact H].
    + simpl in H |- *. apply IH; [lia | exact H].
Qed.

(** What the removal at the end leaves does not end with a member. *)
Lemma dropEnd_ends s : endsWithMember width (Js.dropEnd width s) = false.
Proof.
  induction s as [|c s IH]; [reflexivity|].
  rewrite dropEnd_cons.
  destruct (Js.dropStart width (String c s)) as [|x r] eqn:E; [reflexivity|].
  cbn [endsWithMember]. rewrite IH, orb_false_r.
  unfold onlyMembers.
  destruct (Js.dropStart width (String c (Js.dropEnd width s))) eqn:E1; [|reflexivity].
  exfalso. destruct (dropEnd_split s) as (v & Hv & Hm).
  pose proof (dropStartFrom_app (String c (Js.dropEnd width s)) v 0
                ltac:(simpl; lia) E1) as H.
  change (String c (Js.dropEnd width s) +:+ v)
    with (String c (Js.dropEnd width s +:+ v)) in H.
  rewrite <- Hv in H. fold (Js.dropStart width (String c s)) in H.
  rewrite E, Hm in H. discriminate H.
Qed.

Lemma dropEnd_start s : width s = 0%nat -> width (Js.dropEnd width s) = 0%nat.
Proof.
  intros H. destruct (dropEnd_split s) as (v & Hv & _).
  destruct (width (Js.dropEnd width s)) as [|k] eqn:E; [reflexivity|].
  destruct (class_local _ _ ok _ _ E) as [_ Hl].
  rewrite Hv, (Hl v) in H. discriminate H.
Qed.

End Class.

(** ** The two marker replacements *)

Lemma replaceBangBang_plain c s :
  negb (isMarker c) = true ->
  replaceBangBang (String c s) = String c (replaceBangBang s).
Proof.
  unfold isMarker. intros H. apply negb_true_iff in H.
  destruct s; simpl; rewrite ?H; reflexivity.
Qed.

Lemma replaceBangBang_single X :
  startsWith (fun c => negb (isMarker c)) X = true ->
  replaceBangBang (String "!" X) = String "!" (replaceBangBang X).
Proof.
  destruct X as [|d X]; [discriminate|]. unfold isMarker. simpl.
  intros H. apply negb_true_iff in H. rewrite H. reflexivity.
Qed.

Lemma replaceBangBang_app a X :
  startsWith (fun c => negb (isMarker c)) X = true ->
  replaceBangBang (a +:+ X) = replaceBangBang a +:+ replaceBangBang X.
Proof.
  intros HX. induction a as [|c|c d a IHa IHb] using string_ind2.
  - reflexivity.
  - destruct X as [|e X]; [discriminate|]. simpl in HX |- *.
    unfold isMarker in HX. apply negb_true_iff in HX. rewrite HX, andb_false_r.
    reflexivity.
  - change (String c (String d a) +:+ X) with (String c (String d (a +:+ X))).
    change (replaceBangBang (String c (String d (a +:+ X)))) with
      (if Ascii.eqb c "!" && Ascii.eqb d "!"
       then ", " +:+ replaceBangBang (a +:+ X)
       else String c (replaceBangBang (String d (a +:+ X)))).
    change (replaceBangBang (String c (String d a))) with
      (if Ascii.eqb c "!" && Ascii.eqb d "!"
       then ", " +:+ replaceBangBang a
       else String c (replaceBangBang (String d a))).
    destruct (Ascii.eqb c "!" && Ascii.eqb d "!").
    + rewrite IHa. reflexivity.
    + change (String d (a +:+ X)) with (String d a +:+ X). rewrite IHb. reflexivity.
Qed.

Lemma replaceBangBang_prefix seg X :
  allChars (fun c => negb (isMarker c)) seg = true ->
  replaceBangBang (seg +:+ X) = seg +:+ replaceBangBang X.
Proof.
  induction seg as [|c seg IH]; [reflexivity|].
  intros H. simpl in H. apply andb_true_iff in H as [Hc Hs].
  change (String c seg +:+ X) with (String c (seg +:+ X)).
  rewrite (replaceBangBang_plain _ _ Hc), (IH Hs). reflexivity.
Qed.

Lemma replaceChar_app c by_ a b :
  Js.replaceChar c by_ (a +:+ b) = Js.replaceChar c by_ a +:+ Js.replaceChar c by_ b.
Proof.
  induction a as [|x a IH]; simpl; [reflexivity|].
  rewrite IH. destruct (Ascii.eqb x c); [rewrite app_assoc|]; reflexivity.
Qed.

Lemma replaceBang_prefix seg :
  allChars (fun c => negb (isMarker c)) seg = true -> replaceBang seg = seg.
Proof.
  unfold replaceBang, isMarker.
  induction seg as [|c seg IH]; simpl; [reflexivity|].
  intros H. apply andb_true_iff in H as [Hc Hs]. apply negb_true_iff in Hc.
  rewrite Hc, (IH Hs). reflexivity.
Qed.

Lemma norm_lead lead X :
  startsWith (fun c => negb (isMarker c)) X = true ->
  norm (lead +:+ X) = norm lead +:+ norm X.
Proof.
  intros HX. unfold norm. rewrite (replaceBangBang_app _ _ HX).
  apply replaceChar_app.
Qed.

Lemma norm_prefix seg X :
  allChars (fun c => negb (isMarker c)) seg = true ->
  norm (seg +:+ X) = seg +:+ norm X.
Proof.
  intros H. unfold norm. rewrite (replaceBangBang_prefix _ _ H).
  unfold replaceBang. rewrite replaceChar_app.
  fold (replaceBang seg). rewrite (replaceBang_prefix _ H). reflexivity.
Qed.

Lemma norm_double X : norm ("!!" +:+ X) = ", " +:+ norm X.
Proof. reflexivity. Qed.

Lemma norm_single X :
  startsWith (fun c => negb (isMarker c)) X = true ->
  norm ("!" +:+ X) = ", " +:+ norm X.
Proof.
  intros HX. unfold norm. change ("!" +:+ X) with (String "!" X).
  rewrite (replaceBangBang_single _ HX). reflexivity.
Qed.

Lemma replaceBangBang_noise s :
  allChars noiseChar s = true -> allChars noiseChar (replaceBangBang s) = true.
Proof.
  induction s as [|c|c d s IHa IHb] using string_ind2; [reflexivity | intros H; exact H |].
  intros H.
  change (replaceBangBang (String c (String d s))) with
    (if Ascii.eqb c "!" && Ascii.eqb d "!"
     then ", " +:+ replaceBangBang s
     else String c (replaceBangBang (String d s))).
  simpl in H. apply andb_true_iff in H as [Hc H]. apply andb_true_iff in H as [Hd Hs].
  destruct (Ascii.eqb c "!" && Ascii.eqb d "!").
  - simpl. apply IHa, Hs.
  - simpl. rewrite Hc. apply IHb. simpl. rewrite Hd. exact Hs.
Qed.

Lemma replaceBang_noise s :
  allChars noiseChar s = true -> allChars isSeparator (replaceBang s) = true.
Proof.
  unfold replaceBang. induction s as [|c s IH]; simpl; [reflexivity|].
  intros H. apply andb_true_iff in H as [Hc Hs].
  destruct (Ascii.eqb_spec c "!") as [->|Hne]; simpl.
  - apply IH, Hs.
  - rewrite (IH Hs), andb_true_r.
    unfold noiseChar, isMarker in Hc. unfold isSeparator.
    destruct (Ascii.eqb_spec c "!"); [contradiction|]. exact Hc.
Qed.

Lemma norm_noise s :
  allChars noiseChar s = true -> allChars isSeparator (norm s) = true.
Proof. intros H. apply replaceBang_noise, replaceBangBang_noise, H. Qed.


(** ** The collapse of repeated commas *)

(** One step of [commaRun] at an ASCII character. *)
Lemma commaRun_cons c s pos last :
  Js.isAscii c = true ->
  commaRun 0 (String c s) pos last =
    if Js.isSpace c then commaRun 0 s (S pos) last
    else if Ascii.eqb c "," then commaRun 0 s (S pos) (Some (S pos))
    else last.
Proof.
  intros Ha. cbn [commaRun]. rewrite (spaceWidth_ascii _ _ Ha).
  destruct (Js.isSpace c); reflexivity.
Qed.

Lemma commaRun_stop X pos last :
  startsWith stopChar X = true -> commaRun 0 X pos last = last.
Proof.
  destruct X as [|e X]; [discriminate|]. simpl startsWith. intros H.
  destruct (stop_parts _ H) as (Ha & Hs & Hc).
  rewrite (commaRun_cons _ _ _ _ Ha), Hs, Hc. reflexivity.
Qed.

Lemma commaRun_app_stop a X : forall pos last,
  allChars isSeparator a = true ->
  startsWith stopChar X = true ->
  commaRun 0 (a +:+ X) pos last = commaRun 0 a pos last.
Proof.
  induction a as [|c a IH]; intros pos last Ha HX; [apply commaRun_stop, HX|].
  simpl in Ha. apply andb_true_iff in Ha as [Hc Ha].
  change (String c a +:+ X) with (String c (a +:+ X)).
  rewrite !(commaRun_cons _ _ _ _ (separator_ascii _ Hc)).
  destruct (Js.isSpace c); [apply IH; assumption|].
  destruct (Ascii.eqb c ","); [apply IH; assumption | reflexivity].
Qed.

Lemma commaRun_bound a : forall pos last n,
  allChars isSeparator a = true ->
  commaRun 0 a pos last = Some n ->
  last = Some n \/ (pos < n <= pos + String.length a)%nat.
Proof.
  induction a as [|c a IH]; intros pos last n Ha; [simpl; auto|].
  simpl in Ha. apply andb_true_iff in Ha as [Hc Ha].
  rewrite (commaRun_cons _ _ _ _ (separator_ascii _ Hc)). simpl String.length.
  destruct (Js.isSpace c).
  - intros H. destruct (IH _ _ _ Ha H); [auto | right; lia].
  - destruct (Ascii.eqb c ","); [|auto].
    intros H. destruct (IH _ _ _ Ha H) as [[= <-]|]; right; lia.
Qed.

Lemma collapseFrom_cons c s k :
  collapseFrom k (String c s) =
    match k with
    | S k' => collapseFrom k' s
    | O =>
        if Ascii.eqb c "," then
          match commaRun 0 s 0 None with
          | Some n => ", " +:+ collapseFrom n s
          | None => String c (collapseFrom 0 s)
          end
        else String c (collapseFrom 0 s)
    end.
Proof. reflexivity. Qed.

Lemma collapseFrom_app a X : forall k,
  allChars isSeparator a = true ->
  (k <= String.length a)%nat ->
  startsWith stopChar X = true ->
  collapseFrom k (a +:+ X) = collapseFrom k a +:+ collapseFrom 0 X.
Proof.
  induction a as [|c a IH]; intros k Ha Hk HX.
  - simpl in Hk. assert (k = 0%nat) as -> by lia. reflexivity.
  - simpl in Ha. apply andb_true_iff in Ha as [Hc Ha].
    simpl in Hk. change (String c a +:+ X) with (String c (a +:+ X)).
    rewrite !collapseFrom_cons. destruct k as [|k].
    + rewrite (commaRun_app_stop _ _ _ _ Ha HX).
      destruct (Ascii.eqb c ",").
      * destruct (commaRun 0 a 0 None) as [n|] eqn:E.
        -- destruct (commaRun_bound _ _ _ _ Ha E) as [|]; [discriminate|].
           rewrite IH by (try assumption; lia). reflexivity.
        -- rewrite IH by (try assumption; lia). reflexivity.
      * rewrite IH by (try assumption; lia). reflexivity.
    + apply IH; [exact Ha | lia | exact HX].
Qed.

Lemma collapseFrom_prefix seg X :
  allChars (fun c => negb (isComma c)) seg = true ->
  collapseFrom 0 (seg +:+ X) = seg +:+ collapseFrom 0 X.
Proof.
  induction seg as [|c seg IH]; [reflexivity|].
  intros H. simpl in H. apply andb_true_iff in H as [Hc Hs].
  unfold isComma in Hc. apply negb_true_iff in Hc.
  change (String c seg +:+ X) with (String c (seg +:+ X)).
  rewrite collapseFrom_cons, Hc, (IH Hs). reflexivity.
Qed.

Lemma collapseFrom_comma_space X :
  startsWith stopChar X = true ->
  collapseFrom 0 (", " +:+ X) = ", " +:+ collapseFrom 0 X.
Proof.
  intros HX. change (", " +:+ X) with (String "," (String " " X)).
  rewrite collapseFrom_cons. change (Ascii.eqb "," ",") with true. cbv iota.
  rewrite (commaRun_cons " " X 0 None eq_refl). change (Js.isSpace " ") with true.
  cbv iota. rewrite (commaRun_stop _ _ _ HX), collapseFrom_cons. reflexivity.
Qed.

Lemma collapseFrom_skip a X :
  collapseFrom (String.length a) (a +:+ X) = collapseFrom 0 X.
Proof. induction a as [|c a IH]; [reflexivity | exact IH]. Qed.

Lemma commaRun_gap g Y : forall pos last,
  allChars Js.isSpace g = true ->
  commaRun 0 (g +:+ String "," Y) pos last =
    commaRun 0 Y (S (pos + String.length g)) (Some (S (pos + String.length g))).
Proof.
  induction g as [|c g IH]; intros pos last H.
  - change (EmptyString +:+ String "," Y) with (String "," Y).
    rewrite (commaRun_cons "," Y pos last eq_refl). simpl. rewrite Nat.add_0_r.
    reflexivity.
  - simpl in H. apply andb_true_iff in H as [Hc Hg].
    change (String c g +:+ String "," Y) with (String c (g +:+ String "," Y)).
    rewrite (commaRun_cons _ _ _ _ (space_ascii _ Hc)), Hc, (IH _ _ Hg).
    simpl String.length.
    replace (S pos + String.length g)%nat with (pos + S (String.length g))%nat by lia.
    reflexivity.
Qed.

Lemma commaRun_gaps gaps X : forall pos,
  forallb (allChars Js.isSpace) gaps = true ->
  startsWith stopChar X = true ->
  commaRun 0 (gapsText gaps +:+ X) pos (Some pos) =
    Some (pos + String.length (gapsText gaps))%nat.
Proof.
  induction gaps as [|g gaps IH]; intros pos Hg HX.
  - change (gapsText [] +:+ X) with X.
    rewrite (commaRun_stop _ _ _ HX). simpl. rewrite Nat.add_0_r. reflexivity.
  - simpl in Hg. apply andb_true_iff in Hg as [Hg Hgs].
    change (gapsText (g :: gaps)) with (g +:+ "," +:+ gapsText gaps).
    rewrite app_assoc.
    change (("," +:+ gapsText gaps) +:+ X) with (String "," (gapsText gaps +:+ X)).
    rewrite (commaRun_gap _ _ _ _ Hg), (IH _ Hgs HX).
    rewrite length_app. simpl. f_equal. lia.
Qed.

Lemma collapseFrom_commas gap gaps X :
  validSeparator (Commas gap gaps) = true ->
  startsWith stopChar X = true ->
  collapseFrom 0 (separatorText (Commas gap gaps) +:+ X) = ", " +:+ collapseFrom 0 X.
Proof.
  intros Hv HX. unfold validSeparator in Hv.
  change (separatorText (Commas gap gaps) +:+ X)
    with (String "," (gapsText (gap :: gaps) +:+ X)).
  assert (E : commaRun 0 (gapsText (gap :: gaps) +:+ X) 0 None =
              Some (String.length (gapsText (gap :: gaps)))).
  { simpl in Hv. apply andb_true_iff in Hv as [Hg Hgs].
    change (gapsText (gap :: gaps)) with (gap +:+ "," +:+ gapsText gaps).
    rewrite app_assoc.
    change (("," +:+ gapsText gaps) +:+ X) with (String "," (gapsText gaps +:+ X)).
    rewrite (commaRun_gap _ _ _ _ Hg), (commaRun_gaps _ _ _ Hgs HX).
    rewrite length_app. simpl. f_equal. lia. }
  rewrite collapseFrom_cons. change (Ascii.eqb "," ",") with true. cbv iota.
  rewrite E, collapseFrom_skip. reflexivity.
Qed.

Lemma collapseFrom_separators s : forall k,
  allChars isSeparator s = true -> allChars isSeparator (collapseFrom k s) = true.
Proof.
  induction s as [|c s IH]; intros k H; [reflexivity|].
  simpl in H. apply andb_true_iff in H as [Hc Hs].
  rewrite collapseFrom_cons. destruct k as [|k]; [|apply IH, Hs].
  destruct (Ascii.eqb c ",").
  - destruct (commaRun 0 s 0 None); simpl; [apply IH, Hs|].
    rewrite Hc, (IH _ Hs). reflexivity.
  - simpl. rewrite Hc. apply IH, Hs.
Qed.

(** ** Trimming *)

(** Trimming and stripping remove separators around a value that starts
    and ends with an ASCII character that is none. *)
Lemma strip_trim L core T :
  allChars isSeparator L = true -> allChars isSeparator T = true ->
  startsWith edgeChar core = true -> endsWith edgeChar core = true ->
  stripSeparators (Js.trim (L +:+ core +:+ T)) = core.
Proof.
  intros HL HT Hs He. unfold stripSeparators, Js.trim.
  assert (HLa : allChars Js.isAscii L = true)
    by (revert HL; apply allChars_impl, separator_ascii).
  assert (Hs1 : startsWith (fun c => Js.isAscii c && negb (Js.isSpace c)) (core +:+ T) = true).
  { apply startsWith_app. revert Hs. apply startsWith_impl, edge_stops_space. }
  destruct (dropStart_keeps _ _ space_class isSeparator L _ HL HLa Hs1) as (L1 & HL1 & ->).
  rewrite <- app_assoc.
  assert (He1 : endsWith (fun c => Js.isAscii c && negb (Js.isSpace c)) (L1 +:+ core) = true).
  { apply endsWith_app. revert He. apply endsWith_impl, edge_stops_space. }
  rewrite (dropEnd_app _ _ space_class _ _ He1), app_assoc.
  rewrite (dropStart_all _ _ separator_class).
  - rewrite (dropEnd_app _ _ separator_class).
    + rewrite (dropEnd_members _ _ separator_class), app_nil_r; [reflexivity|].
      apply dropEnd_keeps, HT.
    + revert He. apply endsWith_impl, edge_stop.
  - exact HL1.
  - apply startsWith_app. revert Hs. apply startsWith_impl, edge_stop.
Qed.

(** ** Parts and separators *)

Lemma segment_parts seg :
  segment seg = true ->
  startsWith edgeChar seg = true /\ allChars plainChar seg = true /\
  endsWith edgeChar seg = true.
Proof.
  unfold segment. intros H. apply andb_true_iff in H as [H He].
  apply andb_true_iff in H as [Hs Ha]. auto.
Qed.

Lemma gapsText_no_marker gaps :
  forallb (allChars Js.isSpace) gaps = true ->
  allChars (fun c => negb (isMarker c)) (gapsText gaps) = true.
Proof.
  induction gaps as [|g gaps IH]; [reflexivity|].
  simpl. intros H. apply andb_true_iff in H as [Hg Hgs].
  rewrite allChars_app. simpl. rewrite (IH Hgs), andb_true_r.
  apply (allChars_impl Js.isSpace); [apply space_not_marker | exact Hg].
Qed.

Lemma norm_tail rest trail :
  forallb (fun p => validSeparator p.1 && segment p.2) rest = true ->
  norm (tailOf separatorText rest +:+ trail) = tailOf normalText rest +:+ norm trail.
Proof.
  induction rest as [|[sep seg] rest IH]; [reflexivity|].
  simpl forallb. intros H. apply andb_true_iff in H as [H Hrest].
  apply andb_true_iff in H as [Hsep Hseg].
  destruct (segment_parts _ Hseg) as (Hs & Ha & _).
  assert (Hnm : allChars (fun c => negb (isMarker c)) seg = true)
    by (apply (allChars_impl plainChar); [apply plain_not_marker | exact Ha]).
  assert (HY : forall Z, startsWith (fun c => negb (isMarker c)) (seg +:+ Z) = true).
  { intros Z. apply startsWith_app, (startsWith_impl edgeChar);
      [apply edge_not_marker | exact Hs]. }
  change (tailOf separatorText ((sep, seg) :: rest))
    with (separatorText sep +:+ seg +:+ tailOf separatorText rest).
  change (tailOf normalText ((sep, seg) :: rest))
    with (normalText sep +:+ seg +:+ tailOf normalText rest).
  rewrite !app_assoc.
  destruct sep as [| |gap gaps].
  - rewrite (norm_single _ (HY _)), (norm_prefix _ _ Hnm), (IH Hrest). reflexivity.
  - rewrite norm_double, (norm_prefix _ _ Hnm), (IH Hrest). reflexivity.
  - rewrite norm_prefix, (norm_prefix _ _ Hnm), (IH Hrest); [reflexivity|].
    change (separatorText (Commas gap gaps)) with (String "," (gapsText (gap :: gaps))).
    cbn [allChars]. exact (gapsText_no_marker (gap :: gaps) Hsep).
Qed.

Lemma collapse_tail rest T :
  forallb (fun p => validSeparator p.1 && segment p.2) rest = true ->
  collapseFrom 0 (tailOf normalText rest +:+ T) =
    tailOf (fun _ => ", ") rest +:+ collapseFrom 0 T.
Proof.
  induction rest as [|[sep seg] rest IH]; [reflexivity|].
  simpl forallb. intros H. apply andb_true_iff in H as [H Hrest].
  apply andb_true_iff in H as [Hsep Hseg].
  destruct (segment_parts _ Hseg) as (Hs & Ha & _).
  assert (Hnc : allChars (fun c => negb (isComma c)) seg = true)
    by (apply (allChars_impl plainChar); [apply plain_not_comma | exact Ha]).
  assert (HY : forall Z, startsWith stopChar (seg +:+ Z) = true).
  { intros Z. apply startsWith_app, (startsWith_impl edgeChar);
      [apply edge_stop | exact Hs]. }
  change (tailOf normalText ((sep, seg) :: rest))
    with (normalText sep +:+ seg +:+ tailOf normalText rest).
  change (tailOf (fun _ => ", ") ((sep, seg) :: rest))
    with (", " +:+ seg +:+ tailOf (fun _ : Separator => ", ") rest).
  rewrite !app_assoc.
  destruct sep as [| |gap gaps].
  - change (normalText Single) with ", ".
    rewrite (collapseFrom_comma_space _ (HY _)), (collapseFrom_prefix _ _ Hnc), (IH Hrest).
    reflexivity.
  - change (normalText Double) with ", ".
    rewrite (collapseFrom_comma_space _ (HY _)), (collapseFrom_prefix _ _ Hnc), (IH Hrest).
    reflexivity.
  - change (normalText (Commas gap gaps)) with (separatorText (Commas gap gaps)).
    rewrite (collapseFrom_commas _ _ _ Hsep (HY _)), (collapseFrom_prefix _ _ Hnc), (IH Hrest).
    reflexivity.
Qed.

Lemma shown_ends rest : forall a,
  endsWith edgeChar a = true ->
  forallb (fun p => validSeparator p.1 && segment p.2) rest = true ->
  endsWith edgeChar (a +:+ tailOf (fun _ => ", ") rest) = true.
Proof.
  induction rest as [|[sep seg] rest IH]; intros a Ha H.
  - simpl. rewrite app_nil_r. exact Ha.
  - simpl forallb in H. apply andb_true_iff in H as [H Hrest].
    apply andb_true_iff in H as [_ Hseg].
    destruct (segment_parts _ Hseg) as (_ & _ & He).
    change (tailOf (fun _ => ", ") ((sep, seg) :: rest))
      with (", " +:+ seg +:+ tailOf (fun _ : Separator => ", ") rest).
    rewrite <- !app_assoc. apply IH; [|exact Hrest].
    apply endsWith_app, He.
Qed.

(** The clean-up of an upstream value leaves its parts, joined by a comma
    and a space. *)
Lemma cleanAddress_parts lead first rest trail :
  allChars noiseChar lead = true ->
  validParts first rest = true ->
  allChars noiseChar trail = true ->
  cleanAddress (lead +:+ upstream first rest +:+ trail) = shown first rest.
Proof.
  intros Hlead Hparts Htrail. unfold validParts in Hparts.
  apply andb_true_iff in Hparts as [Hfirst Hrest].
  destruct (segment_parts _ Hfirst) as (Hs & Ha & He).
  unfold cleanAddress, collapseCommas. fold (norm (lead +:+ upstream first rest +:+ trail)).
  unfold upstream. rewrite app_assoc.
  rewrite norm_lead, norm_prefix, (norm_tail _ _ Hrest).
  - rewrite collapseFrom_app, collapseFrom_prefix, (collapse_tail _ _ Hrest).
    + rewrite <- (app_assoc first). apply strip_trim.
      * apply collapseFrom_separators, norm_noise, Hlead.
      * apply collapseFrom_separators, norm_noise, Htrail.
      * apply startsWith_app, Hs.
      * apply shown_ends; assumption.
    + apply (allChars_impl plainChar); [apply plain_not_comma | exact Ha].
    + apply norm_noise, Hlead.
    + lia.
    + apply startsWith_app, (startsWith_impl edgeChar);
        [apply edge_stop | exact Hs].
  - apply (allChars_impl plainChar); [apply plain_not_marker | exact Ha].
  - apply startsWith_app, (startsWith_impl edgeChar); [apply edge_not_marker | exact Hs].
Qed.

(** The value shown for an address property is the escaped clean-up. *)
Lemma displayField_address key value f :
  Js.toLowerCase key = "address" ->
  displayField key value = Some f ->
  prefixEmoji f = EMOJI_ADDRESS /\
  displayValue f = escapeHtml (cleanAddress (Json.String_ value)).
Proof.
  unfold displayField. intros Hk. rewrite Hk.
  destruct (keeps (Json.String_ value)); [|discriminate].
  intros [= <-]. split; reflexivity.
Qed.

(** C8: the clean-up of an address turns every single marker, every doubled
    marker and every run of commas between two parts into one comma and one
    space, and drops the markers, commas and white space before the first
    part and after the last, where a part is a text without marker and
    comma that starts and ends with an ASCII character other than white
    space; the value shown for an address property is the escaped clean-up;
    and the payload whose only property is address = H1!!Street!Area is
    shown as one address field with the value H1, Street, Area. *)
Theorem address_normalised :
  (forall lead first rest trail,
     allChars noiseChar lead = true ->
     validParts first rest = true ->
     allChars noiseChar trail = true ->
     cleanAddress (lead +:+ upstream first rest +:+ trail) = shown first rest)
  /\ (forall key value f,
        Js.toLowerCase key = "address" ->
        displayField key value = Some f ->
        prefixEmoji f = EMOJI_ADDRESS /\
        displayValue f = escapeHtml (cleanAddress (Json.String_ value)))
  /\ itemFields (JObj [("address", JStr "H1!!Street!Area")]) =
       [mkField EMOJI_ADDRESS "Address" "H1, Street, Area"]
  /\ formatResponse (JObj [("address", JStr "H1!!Street!Area")]) =
       HEADER +:+ resultHeader 0 +:+
       EMOJI_ADDRESS +:+ " <b>Address:</b> <code>H1, Street, Area</code>".
Proof.
  split; [exact cleanAddress_parts|]. split; [exact displayField_address|].
  split; vm_compute; reflexivity.
Qed.

End FormatterSpec.

(** * The statements at concrete inputs *)

Module Examples.
Import Store Entitlement Lookup Bot Inv Outcome Formatter Address.
Import RateLimiter Sample.

(** The map with one positive timestamp is well stamped. *)
Lemma stamped_singleton : stamped {[NumId 7 := 1000]}.
Proof.
  intros c t H. apply lookup_singleton_Some in H as [_ <-]. reflexivity.
Qed.

(** C4 at a chat last allowed at 1000: calls at 3500, 4000 and 5500. *)
Lemma allow_min_interval_witness :
  stamped {[NumId 7 := 1000]} /\ 0 < 3500 /\
  (calls {[NumId 7 := 1000]}
         [(NumId 7, 3500); (NumId 7, 4000); (NumId 7, 5500)]).1
  = [true; false; true].
Proof.
  split; [exact stamped_singleton|]. split; [reflexivity|].
  destruct (RateLimiterSpec.allow_min_interval
              {[NumId 7 := 1000]} (NumId 7) 3500 stamped_singleton eq_refl)
    as (Hiff & _ & H3).
  apply H3; [|reflexivity|discriminate].
  apply Hiff. right. exists 1000. split; [apply lookup_singleton_eq | discriminate].
Defined.

(** C10 at a chat last allowed at 1000: two denied calls, another chat's
    call in between, then a call at 3000. *)
Lemma denied_calls_do_not_extend_witness :
  (allow (calls {[NumId 7 := 1000]}
            [(NumId 7, 1500); (NumId 8, 1600); (NumId 7, 2900)]).2
         (NumId 7) 3000).1 = true.
Proof.
  destruct (RateLimiterSpec.denied_calls_do_not_extend {[NumId 7 := 1000]} (NumId 7))
    as [_ H].
  apply (H 1000); [apply lookup_singleton_eq | | discriminate].
  vm_compute. repeat constructor; intros; try reflexivity; discriminate.
Defined.


(** X25 at user 42, who has a record: a grant of 30 days at time 2000 in a
    time zone that moves its clocks forward by an hour in between, so that
    the expiry comes an hour before 30 times 24 hours are over. *)
Lemma grant_then_check_witness :
  (canUserSearch (addUser oneUser (StrId ADMIN_CHAT_ID) "42" 30 2000 SUMMER_ZONE)
                 (NumId 42) 5000).1 = SUBSCRIBED /\
  (canUserSearch (addUser oneUser (StrId ADMIN_CHAT_ID) "42" 30 2000 SUMMER_ZONE)
                 (NumId 42) (2000 + 30 * MS_PER_DAY - 3600000)).1 = LIMIT_REACHED.
Proof.
  destruct (BotSpec.grant_then_check oneUser (StrId ADMIN_CHAT_ID) "42" 30 2000
              SUMMER_ZONE (mkUser "42" "ann" "Ann" 1000 1 1 false None) (NumId 42)
              eq_refl eq_refl eq_refl eq_refl) as [H1 H2].
  split.
  - rewrite (H1 5000); reflexivity.
  - destruct (H2 (2000 + 30 * MS_PER_DAY - 3600000)) as [H _]; [discriminate|]. exact H.
Defined.

(** C2 where it fails: the users file is missing, the admin grants user 42
    thirty days at time 1000, and the check is made at time 2000. *)
Lemma grant_reported_not_stored_witness :
  addUserReply (StrId ADMIN_CHAT_ID) "42" 30 1000 UTC_ZONE
    = TextReply (ADDED_TEXT 30 "42") /\
  2000 < setDateDays UTC_ZONE 1000 30 /\
  addUser None (StrId ADMIN_CHAT_ID) "42" 30 1000 UTC_ZONE = None /\
  (canUserSearch (addUser None (StrId ADMIN_CHAT_ID) "42" 30 1000 UTC_ZONE)
                 (NumId 42) 2000).1 = FREE_TRIAL.
Proof.
  destruct (BotSpec.grant_reported_not_stored None (StrId ADMIN_CHAT_ID) "42" 30 1000
              UTC_ZONE (NumId 42) eq_refl eq_refl eq_refl eq_refl) as (H1 & H2 & H3).
  split; [exact H1|]. split; [reflexivity|]. split; [exact H2 | apply H3].
Defined.

(** C3 at user 42, who has the free search left and three earlier
    searches: the request passes the limiter and the check, the fetch times
    out, the error is sent and the counters stay at 3 and 0. *)
Lemma failed_fetch_keeps_usage_witness :
  (handleMobileNumber (mkWorld formerSubscriber ∅) (NumId 42) "9876543210" 5000 true
     (Rejected (Some "ECONNABORTED") "timeout of 15000ms exceeded")).1
  = ErrorReply (errorText "Network/API failure: Request timed out (15s).") /\
  usage (file (handleMobileNumber (mkWorld formerSubscriber ∅) (NumId 42)
                 "9876543210" 5000 true
                 (Rejected (Some "ECONNABORTED") "timeout of 15000ms exceeded")).2)
        (NumId 42)
  = (3, 0).
Proof.
  split; [reflexivity|].
  destruct (BotSpec.failed_fetch_keeps_usage (mkWorld formerSubscriber ∅) (NumId 42)
              "9876543210" 5000 true
              (Rejected (Some "ECONNABORTED") "timeout of 15000ms exceeded"))
    as [H _].
  destruct (H "Network/API failure: Request timed out (15s)." eq_refl) as [Hu _].
  rewrite Hu. reflexivity.
Defined.

(** The sample file satisfies the invariant. *)
Lemma storeOk_oneUser : storeOk oneUser.
Proof.
  intros k u H Hs. unfold oneUser, record in H. simpl in H.
  apply lookup_insert_Some in H as [[_ <-]|[_ H]]; [discriminate Hs|].
  rewrite lookup_empty in H. discriminate H.
Qed.

(** C7 at the sample file and a grant to its user. *)
Lemma subscription_invariant_witness :
  storeOk (addUser oneUser (StrId ADMIN_CHAT_ID) "42" 30 2000 UTC_ZONE).
Proof.
  destruct BotSpec.subscription_invariant as (_ & H & _).
  apply H, storeOk_oneUser.
Defined.

(** C9 at an unreadable file, and at a file with two users, of whom the
    second loses the subscription while the first stays as it is. *)
Lemma updateUser_frame_witness :
  updateUser None (NumId 42) expire = None /\
  record (updateUser twoUsers (NumId 43) expire) "43"
    = Some (mkUser "43" "bob" "Bob" 2000 0 5 false None) /\
  record (updateUser twoUsers (NumId 43) expire) "42"
    = Some (mkUser "42" "ann" "Ann" 1000 1 1 false None).
Proof.
  destruct (StoreSpec.updateUser_frame None (NumId 42) expire) as (H1 & _).
  destruct (StoreSpec.updateUser_frame twoUsers (NumId 43) expire) as (_ & _ & H3 & _).
  split; [apply H1; reflexivity|]. split; [reflexivity|].
  rewrite (H3 "42"); [reflexivity | discriminate].
Defined.

(** C8 at a value with all three kinds of separator and noise around. *)
Lemma address_normalised_witness :
  cleanAddress (" !" +:+ upstream "H1" [(Double, "Street 5"); (Single, "Area");
                                        (Commas " " [EmptyString], "City")] +:+ "!!, ")
  = "H1, Street 5, Area, City".
Proof.
  destruct FormatterSpec.address_normalised as (H & _).
  apply (H " !" "H1" [(Double, "Street 5"); (Single, "Area"); (Commas " " [EmptyString], "City")]
           "!!, "); reflexivity.
Defined.

End Examples.

(** * Properties of the lookup entry points and admin panels *)

Module CommandsSpec.
Import Store Entitlement Bot Commands Address.

#[local] Arguments String.append : simpl nomatch.

Lemma digit_range c : isDigit c = true <-> (48 <= nat_of_ascii c <= 57)%nat.
Proof.
  unfold isDigit. rewrite andb_true_iff, !Nat.leb_le. reflexivity.
Qed.

Lemma digit_not_space c : isDigit c = true -> Js.isSpace c = false.
Proof.
  intros H. apply digit_range in H. unfold Js.isSpace.
  apply orb_false_iff. split.
  - apply andb_false_iff. right. apply Nat.leb_gt. lia.
  - apply Nat.eqb_neq. lia.
Qed.

Lemma digit_not_terminator c : isDigit c = true -> isLineTerminator c = false.
Proof.
  intros H. apply digit_range in H. unfold isLineTerminator.
  apply orb_false_iff. split; apply Nat.eqb_neq; lia.
Qed.

Lemma sixToNine_digit c : isSixToNine c = true -> isDigit c = true.
Proof.
  unfold isSixToNine. rewrite andb_true_iff, !Nat.leb_le.
  intros H. apply digit_range. lia.
Qed.

Lemma digitsToEnd_shape n s :
  digitsToEnd n s = true <-> String.length s = n /\ allChars isDigit s = true.
Proof.
  revert s. induction n as [|n IH]; intros [|c s]; simpl;
    try (split; [discriminate | intros [H _]; discriminate H]).
  - split; auto.
  - rewrite !andb_true_iff, IH. split.
    + intros (Hc & Hl & Hd). rewrite Hl. auto.
    + intros (Hl & Hc & Hd). injection Hl as Hl. auto.
Qed.

(** The shape of a valid number. *)
Lemma valid_shape mobile :
  isValidMobileNumber mobile = true <->
  String.length mobile = 10%nat /\ startsWith isSixToNine mobile = true /\
  allChars isDigit mobile = true.
Proof.
  destruct mobile as [|c rest].
  - split; [discriminate | intros (H & _); discriminate H].
  - unfold isValidMobileNumber. cbn [String.length startsWith allChars].
    rewrite andb_true_iff, digitsToEnd_shape. split.
    + intros (Hc & Hl & Hd). rewrite Hl, (sixToNine_digit _ Hc). auto.
    + intros (Hl & Hc & Hd). apply andb_true_iff in Hd as [_ Hd].
      repeat split; [exact Hc | congruence | exact Hd].
Qed.

Lemma digitsOnly_digits s : allChars isDigit (digitsOnly s) = true.
Proof.
  induction s as [|c s IH]; [reflexivity|]. simpl.
  destruct (isDigit c) eqn:E; [simpl; rewrite E|]; exact IH.
Qed.

Lemma digitsOnly_fixed s : allChars isDigit s = true -> digitsOnly s = s.
Proof.
  induction s as [|c s IH]; [reflexivity|]. simpl.
  intros H. apply andb_true_iff in H as [Hc Hs]. rewrite Hc, (IH Hs). reflexivity.
Qed.

Lemma digit_not_line_start c s :
  isDigit c = true -> startsLineTerminator (String c s) = false.
Proof.
  intros H. unfold startsLineTerminator. rewrite (digit_not_terminator _ H).
  apply digit_range in H.
  destruct (Nat.eqb_spec (nat_of_ascii c) 226) as [E|_]; [lia|].
  destruct s as [|b [|d s]]; reflexivity.
Qed.

Lemma takeLine_digits s : allChars isDigit s = true -> takeLine s = s.
Proof.
  induction s as [|c s IH]; [reflexivity|]. cbn [takeLine allChars].
  intros H. apply andb_true_iff in H as [Hc Hs].
  rewrite (digit_not_line_start _ _ Hc), (IH Hs). reflexivity.
Qed.

Lemma digit_stops_space c :
  isDigit c = true -> Js.isAscii c && negb (Js.isSpace c) = true.
Proof.
  intros H. rewrite (digit_not_space _ H), andb_true_r.
  apply digit_range in H. unfold Js.isAscii. apply Nat.ltb_lt. lia.
Qed.

Lemma trim_digits s : allChars isDigit s = true -> Js.trim s = s.
Proof.
  intros H. unfold Js.trim.
  assert (Hst : allChars (fun c => Js.isAscii c && negb (Js.isSpace c)) s = true)
    by (revert H; apply FormatterSpec.allChars_impl, digit_stops_space).
  assert (Hs : Js.dropStart Js.spaceWidth s = s).
  { destruct s as [|c s]; [reflexivity|].
    apply (FormatterSpec.dropStart_stop _ _ FormatterSpec.space_class).
    simpl in Hst |- *. apply andb_true_iff in Hst. apply Hst. }
  rewrite Hs.
  apply (FormatterSpec.dropEnd_none _ _ FormatterSpec.space_class), Hst.
Qed.

Lemma infoCapture_cons c text :
  infoCapture (String c text) =
    if String.prefix "/info " (String c text) then
      match takeLine (dropChars 6 (String c text)) with
      | EmptyString => infoCapture text
      | capture => Some capture
      end
    else infoCapture text.
Proof. reflexivity. Qed.

(** X1: a text is a valid mobile number exactly when it has ten characters,
    all of them digits, the first of which is 6, 7, 8 or 9. *)
Theorem valid_mobile_shape (mobile : string) :
  isValidMobileNumber mobile = true <->
  String.length mobile = 10%nat /\ startsWith isSixToNine mobile = true /\
  allChars isDigit mobile = true.
Proof. apply valid_shape. Qed.

(** The /info handler reads the digits of its argument and nothing else. *)
Lemma infoCommand_digits text mobile :
  infoCommand text = Some (CallPipeline mobile) ->
  exists capture, infoCapture text = Some capture /\ mobile = digitsOnly capture.
Proof.
  unfold infoCommand. destruct (infoCapture text) as [cap|]; [|discriminate].
  rewrite (trim_digits _ (digitsOnly_digits cap)).
  destruct (isValidMobileNumber (digitsOnly cap)); [|discriminate].
  intros [= <-]. eauto.
Qed.

(** X2: the two lookup entry points enter the pipeline with valid numbers
    only; for a valid number the bare text and the text behind /info enter
    it with that same number, while the handler of unknown input stays
    silent; and the number that /info passes on is made of the digits of
    its argument, whatever stands between them. *)
Theorem entry_points_agree :
  (forall text mobile,
     infoCommand text = Some (CallPipeline mobile) \/
     directNumber text = Some (CallPipeline mobile) ->
     isValidMobileNumber mobile = true)
  /\ (forall mobile,
        isValidMobileNumber mobile = true ->
        directNumber mobile = Some (CallPipeline mobile) /\
        infoCommand ("/info " +:+ mobile) = Some (CallPipeline mobile) /\
        unknownInput (Some mobile) = false)
  /\ (forall text mobile,
        infoCommand text = Some (CallPipeline mobile) ->
        exists capture,
          infoCapture text = Some capture /\ mobile = digitsOnly capture).
Proof.
  split; [|split; [|exact infoCommand_digits]].
  - intros text mobile [H|H].
    + unfold infoCommand in H. destruct (infoCapture text) as [cap|]; [|discriminate].
      destruct (isValidMobileNumber (Js.trim (digitsOnly cap))) eqn:E; [|discriminate].
      injection H as <-. exact E.
    + unfold directNumber in H.
      destruct (isValidMobileNumber text) eqn:E; [|discriminate].
      injection H as <-. exact E.
  - intros mobile Hv. pose proof Hv as Hshape.
    apply valid_shape in Hshape as (Hl & _ & Hd).
    split; [unfold directNumber; rewrite Hv; reflexivity|]. split.
    + unfold infoCommand.
      assert (E : infoCapture ("/info " +:+ mobile) = Some mobile).
      { change ("/info " +:+ mobile) with (String "/" ("info " +:+ mobile)).
        rewrite infoCapture_cons.
        change (String "/" ("info " +:+ mobile)) with ("/info " +:+ mobile).
        assert (Hp : String.prefix "/info " ("/info " +:+ mobile) = true)
          by (destruct mobile; reflexivity).
        rewrite Hp. change (dropChars 6 ("/info " +:+ mobile)) with mobile.
        rewrite (takeLine_digits _ Hd). destruct mobile; [discriminate Hl | reflexivity]. }
      rewrite E. cbv zeta.
      rewrite (digitsOnly_fixed _ Hd), (trim_digits _ Hd), Hv. reflexivity.
    + unfold unknownInput.
      rewrite (trim_digits _ Hd), (digitsOnly_fixed _ Hd), Hv.
      rewrite andb_false_r. reflexivity.
Qed.

(** X3: the panel's numbers add up: the subscribed users are at most all
    users, and the free users are the rest, never negative. *)
Theorem admin_stats_add_up (file : File) :
  let '(totalUsers, subscribedUsers, freeUsers) := adminStats file in
  0 <= subscribedUsers <= totalUsers /\ 0 <= freeUsers /\
  totalUsers = subscribedUsers + freeUsers.
Proof.
  unfold adminStats. cbv zeta.
  pose proof (map_filter_subseteq (fun kv : string * User => isSubscribed kv.2 = true)
                (users (loadUsersData file))) as Hsub.
  apply map_subseteq_size in Hsub. lia.
Qed.

Lemma broadcast_counts userIds delivered : forall s f,
  let '(s', f') := broadcast userIds delivered s f in
  s' + f' = s + f + Z.of_nat (length userIds) /\ s <= s' /\ f <= f'.
Proof.
  induction userIds as [|u rest IH]; intros s f; simpl; [lia|].
  destruct (delivered u).
  - specialize (IH (s + 1) f). destruct (broadcast rest delivered (s + 1) f). lia.
  - specialize (IH s (f + 1)). destruct (broadcast rest delivered s (f + 1)). lia.
Qed.

(** X4: the broadcast loop sends to every user id once: the counts of
    successes and failures that it reports add up to the number of user
    ids, and the successes are the users to whom the message went. *)
Theorem broadcast_reports_add_up (userIds : list string) (delivered : string -> bool) :
  let '(successCount, failCount) := broadcast userIds delivered 0 0 in
  successCount + failCount = Z.of_nat (length userIds) /\
  successCount = Z.of_nat (length (filter (fun u => delivered u = true) userIds)).
Proof.
  pose proof (broadcast_counts userIds delivered 0 0) as Hc.
  assert (Hs : forall l s f,
             (broadcast l delivered s f).1 =
             s + Z.of_nat (length (filter (fun u => delivered u = true) l))).
  { induction l as [|u l IH]; intros s f; simpl; [lia|].
    rewrite filter_cons. destruct (delivered u) eqn:E.
    - rewrite IH. rewrite decide_True by reflexivity. simpl length. lia.
    - rewrite IH. rewrite decide_False by discriminate. reflexivity. }
  specialize (Hs userIds 0 0).
  destruct (broadcast userIds delivered 0 0) as [s f]. simpl in Hs. lia.
Qed.

End CommandsSpec.

(** * Further properties of the rate limiter, the store and the check *)

Module StateSpec.
Import Store Entitlement Lookup Bot Inv Facts StoreSpec EntitlementSpec BotSpec.
Import RateLimiter RateLimiterSpec.

(** The answer for a chat depends on that chat's entry only. *)
Lemma allow_local (m m' : gmap ChatId Z) cid now :
  m !! cid = m' !! cid -> (allow m cid now).1 = (allow m' cid now).1.
Proof.
  intros H. rewrite !allow_fst. unfold isRateLimited. rewrite H.
  destruct (truthy (m' !! cid) && _); reflexivity.
Qed.

Lemma allow_keeps_known (m : gmap ChatId Z) cid now c :
  is_Some (m !! c) -> is_Some ((allow m cid now).2 !! c).
Proof.
  intros H. rewrite allow_snd. unfold isRateLimited.
  destruct (truthy (m !! cid) && _); simpl; [exact H|].
  destruct (decide (cid = c)) as [->|Hne].
  - rewrite lookup_insert_eq. eauto.
  - rewrite lookup_insert_ne by exact Hne. exact H.
Qed.

Lemma calls_others_frame cid cs : forall (m : gmap ChatId Z),
  Forall (fun c => c.1 <> cid) cs -> (calls m cs).2 !! cid = m !! cid.
Proof.
  induction cs as [|[c now] cs IH]; intros m H; [reflexivity|].
  rewrite calls_cons. simpl. inversion H as [|? ? Hhd Htl]; subst.
  rewrite (IH _ Htl). apply allow_other, Hhd.
Qed.

Lemma calls_keep_known cs : forall (m : gmap ChatId Z) c,
  is_Some (m !! c) -> is_Some ((calls m cs).2 !! c).
Proof.
  induction cs as [|[c' now] cs IH]; intros m c H; [exact H|].
  rewrite calls_cons. simpl. apply IH, allow_keeps_known, H.
Qed.

(** X5: the limiter keeps the chats apart and forgets none: whatever calls
    other chats make, a chat gets the answer it would have got without
    them, and a chat that has an entry keeps one through any calls. *)
Theorem limiter_isolation (m : gmap ChatId Z) (cid : ChatId)
    (cs : list (ChatId * Z)) (now : Z) :
  Forall (fun c => c.1 <> cid) cs ->
  (allow (calls m cs).2 cid now).1 = (allow m cid now).1
  /\ (calls m cs).2 !! cid = m !! cid
  /\ forall c, is_Some (m !! c) -> is_Some ((calls m cs).2 !! c).
Proof.
  intros H. pose proof (calls_others_frame _ _ m H) as Hf.
  split; [apply allow_local, Hf|]. split; [exact Hf|].
  intros c. apply calls_keep_known.
Qed.

(** X6: [getUser] creates a record once: a second call returns the record
    of the first and writes nothing; an existing record is returned as it
    is, with the file untouched; a missing one is created with the
    defaults; and no other record changes. *)
Theorem getUser_once (file : File) (cid : ChatId) (now later : Z) :
  getUser (getUser file cid now).2 cid later = getUser file cid now
  /\ (forall v, record file (toString cid) = Some v ->
        getUser file cid now = (v, file))
  /\ (record file (toString cid) = None ->
        (getUser file cid now).1 = newUser (toString cid) now /\
        record (getUser file cid now).2 (toString cid) =
          Some (newUser (toString cid) now))
  /\ (forall other, other <> toString cid ->
        record (getUser file cid now).2 other = record file other).
Proof.
  split; [|split; [|split]].
  - rewrite (getUser_present _ _ later _ (getUser_stored file cid now)).
    symmetry. apply surjective_pairing.
  - intros v. apply getUser_present.
  - intros Hn. rewrite getUser_user, getUser_record, Hn. simpl.
    split; [reflexivity|]. case_decide; [reflexivity | contradiction].
  - intros other Hne. rewrite getUser_record.
    destruct (record file other); [reflexivity|].
    case_decide; [contradiction | reflexivity].
Qed.

Lemma lapsed_after_check file cid now u :
  record (canUserSearch file cid now).2 (toString cid) = Some u ->
  lapsed now u = false.
Proof.
  rewrite canUserSearch_record.
  destruct (record file (toString cid)) as [u0|];
    (case_decide; [|contradiction]); intros [= <-]; [|reflexivity].
  destruct (lapsed now u0) eqn:E; [reflexivity | exact E].
Qed.

(** X7: the check settles the record: repeated at the same time it gives
    the same answer and writes nothing; and an answer other than
    subscribed stays the same, with nothing written, at every later or
    earlier time. *)
Theorem canUserSearch_settles (file : File) (cid : ChatId) (now : Z) :
  let p := (canUserSearch file cid now).1 in
  let file1 := (canUserSearch file cid now).2 in
  canUserSearch file1 cid now = (p, file1)
  /\ (p <> SUBSCRIBED -> forall other, canUserSearch file1 cid other = (p, file1)).
Proof.
  cbv zeta.
  assert (Hex : exists u, record (canUserSearch file cid now).2 (toString cid) = Some u).
  { rewrite canUserSearch_record.
    destruct (record file (toString cid)); case_decide; try contradiction; eauto. }
  destruct Hex as [u Hu].
  pose proof (lapsed_after_check _ _ _ _ Hu) as Hl.
  assert (Hp : (canUserSearch file cid now).1 =
               if current now u then SUBSCRIBED else freeCheck u).
  { rewrite canUserSearch_perm. cbv zeta.
    rewrite canUserSearch_record in Hu.
    destruct (record file (toString cid)) as [u0|];
      (case_decide; [|contradiction]); injection Hu as <-; simpl; [|reflexivity].
    destruct (lapsed now u0) eqn:E; [|reflexivity].
    assert (Hc : current now u0 = false).
    { destruct (current now u0) eqn:Ec; [|reflexivity].
      rewrite (current_lapsed _ _ Ec) in E. discriminate E. }
    rewrite Hc. reflexivity. }
  split.
  - rewrite (surjective_pairing (canUserSearch _ cid now)) at 1.
    rewrite (canUserSearch_quiet _ _ _ _ Hu Hl), canUserSearch_perm, Hu, Hp.
    reflexivity.
  - intros Hns other. rewrite Hp in Hns |- *.
    destruct (current now u) eqn:Ec; [contradiction|].
    assert (Hsub : isSubscribed u && match subscriptionExpiry u with
                                     | Some _ => true | None => false end = false).
    { unfold current, lapsed in Ec, Hl.
      destruct (isSubscribed u); [|reflexivity].
      destruct (subscriptionExpiry u); [|reflexivity]. simpl in *.
      destruct (now <? z); discriminate. }
    assert (Hl' : lapsed other u = false).
    { unfold lapsed. destruct (isSubscribed u); [|reflexivity].
      destruct (subscriptionExpiry u); [discriminate Hsub | reflexivity]. }
    assert (Hc' : current other u = false).
    { unfold current. destruct (isSubscribed u); [|reflexivity].
      destruct (subscriptionExpiry u); [discriminate Hsub | reflexivity]. }
    rewrite (surjective_pairing (canUserSearch _ cid other)).
    rewrite (canUserSearch_quiet _ _ _ _ Hu Hl'), canUserSearch_perm, Hu. simpl.
    rewrite Hc'. reflexivity.
Qed.

End StateSpec.

(** * Further properties of the pipeline and of the admin commands *)

Module PipelineSpec.
Import Store Entitlement Lookup Bot Inv Facts Commands.
Import StoreSpec EntitlementSpec BotSpec StateSpec.

Lemma world_eta w : mkWorld (file w) (userLastMessage w) = w.
Proof. destruct w; reflexivity. Qed.

(** [handleMobileNumber] by cases, with the limiter's map. *)
Lemma handleMobileNumber_eq w cid mobile now loading net :
  handleMobileNumber w cid mobile now loading net =
    if (RateLimiter.isRateLimited (userLastMessage w) cid now).1 then (NoReply, w)
    else
      let perm := (canUserSearch (file w) cid now).1 in
      let file1 := (canUserSearch (file w) cid now).2 in
      let stamped := <[cid := now]> (userLastMessage w) in
      if negb (allowed perm) then (LimitReachedReply, mkWorld file1 stamped)
      else if negb loading then (CriticalErrorReply, mkWorld file1 stamped)
      else
        match fetchFlipcartInfo mobile net with
        | Ok data =>
            let user := (getUser file1 cid now).1 in
            (ResultReply
               (if isFreeTrial perm && (freeSearchesUsed user =? 0)
                then Formatter.formatResponse data +:+ FREE_SEARCH_NOTICE
                else Formatter.formatResponse data),
             mkWorld (updateUser (getUser file1 cid now).2 cid (usageUpdates perm user))
                     stamped)
        | Fail error => (ErrorReply (errorText error), mkWorld file1 stamped)
        end.
Proof.
  unfold handleMobileNumber, RateLimiter.isRateLimited.
  destruct (RateLimiter.truthy _ && _); simpl; [rewrite world_eta; reflexivity|].
  destruct (canUserSearch (file w) cid now) as [perm file1]. simpl.
  destruct (negb (allowed perm)); [reflexivity|].
  destruct (negb loading); [reflexivity|].
  destruct (fetchFlipcartInfo mobile net); [|reflexivity].
  destruct (getUser file1 cid now). reflexivity.
Qed.

(** X9: a rate-limited request changes nothing, and neither it nor a
    refused request depends on the lookup service or on the delivery of
    the loading notice: whatever the service would have answered, reply
    and state are the same. *)
Theorem no_fetch_when_stopped (w : World) (cid : ChatId) (mobile : string)
    (now : Z) (loading loading' : bool) (net net' : AxiosOutcome) :
  (handleMobileNumber w cid mobile now loading net).1 = NoReply \/
  (handleMobileNumber w cid mobile now loading net).1 = LimitReachedReply ->
  handleMobileNumber w cid mobile now loading' net'
  = handleMobileNumber w cid mobile now loading net
  /\ ((handleMobileNumber w cid mobile now loading net).1 = NoReply ->
      (handleMobileNumber w cid mobile now loading net).2 = w).
Proof.
  rewrite !handleMobileNumber_eq. cbv zeta.
  destruct (RateLimiter.isRateLimited _ cid now).1; simpl; [auto|].
  destruct (allowed (canUserSearch (file w) cid now).1); simpl.
  - destruct loading; simpl; [|intros [H|H]; discriminate H].
    destruct (fetchFlipcartInfo mobile net); simpl; intros [H|H]; discriminate H.
  - intros _. split; [reflexivity | discriminate].
Qed.

Lemma stamped_unless_limited w cid mobile now loading net :
  (handleMobileNumber w cid mobile now loading net).1 <> NoReply ->
  userLastMessage (handleMobileNumber w cid mobile now loading net).2
  = <[cid := now]> (userLastMessage w).
Proof.
  rewrite handleMobileNumber_eq. cbv zeta.
  destruct (RateLimiter.isRateLimited _ cid now).1; simpl; [contradiction|].
  intros _.
  destruct (negb _); [reflexivity|].
  destruct (negb loading); [reflexivity|].
  destruct (fetchFlipcartInfo mobile net); reflexivity.
Qed.

(** X10: every request that passes the limiter is stamped at its time,
    whether it is then refused, ends in the [catch] block, fails or
    succeeds, and the entries of other chats stay as they are. *)
Theorem passed_request_is_stamped (w : World) (cid : ChatId) (mobile : string)
    (now : Z) (loading : bool) (net : AxiosOutcome) :
  (handleMobileNumber w cid mobile now loading net).1 <> NoReply ->
  userLastMessage (handleMobileNumber w cid mobile now loading net).2
  = <[cid := now]> (userLastMessage w)
  /\ forall other, other <> cid ->
       userLastMessage (handleMobileNumber w cid mobile now loading net).2 !! other
       = userLastMessage w !! other.
Proof.
  intros H. rewrite (stamped_unless_limited _ _ _ _ _ _ H). split; [reflexivity|].
  intros other Hne. apply lookup_insert_ne. congruence.
Qed.

Lemma usage_updateUser file cid updates u :
  record file (toString cid) = Some u ->
  usage (updateUser file cid updates) cid =
    (totalSearches (assign u updates), freeSearchesUsed (assign u updates)).
Proof.
  intros Hu. unfold usage. rewrite updateUser_record, Hu.
  case_decide; [reflexivity | contradiction].
Qed.

(** X11: a successful lookup adds one to the total, adds one to the free
    searches exactly when the check had answered free trial, and its
    message is the formatted payload, followed by the notice exactly when
    that free search was the user's first. *)
Theorem success_accounting (w : World) (cid : ChatId) (mobile : string)
    (now : Z) (loading : bool) (net : AxiosOutcome) (msg : string) :
  (handleMobileNumber w cid mobile now loading net).1 = ResultReply msg ->
  let perm := (canUserSearch (file w) cid now).1 in
  let total := (usage (file w) cid).1 in
  let free := (usage (file w) cid).2 in
  exists data,
    fetchFlipcartInfo mobile net = Ok data /\
    usage (file (handleMobileNumber w cid mobile now loading net).2) cid =
      (total + 1, if isFreeTrial perm then free + 1 else free) /\
    msg = (if isFreeTrial perm && (free =? 0)
           then Formatter.formatResponse data +:+ FREE_SEARCH_NOTICE
           else Formatter.formatResponse data).
Proof.
  cbv zeta. rewrite handleMobileNumber_eq. cbv zeta.
  destruct (RateLimiter.isRateLimited _ cid now).1; simpl; [discriminate|].
  destruct (negb _); [discriminate|].
  destruct (negb loading); [discriminate|].
  destruct (fetchFlipcartInfo mobile net) as [data|error]; [|discriminate].
  simpl. intros [= <-]. exists data. split; [reflexivity|].
  set (file1 := (canUserSearch (file w) cid now).2).
  set (perm := (canUserSearch (file w) cid now).1).
  pose proof (usage_canUserSearch (file w) cid now) as Hus. fold file1 in Hus.
  pose proof (usage_getUser file1 cid now) as Hg. rewrite Hus in Hg.
  pose proof (getUser_stored file1 cid now) as Hst.
  assert (Hsame : (getUser file1 cid now).2 = file1).
  { assert (Hex : exists u, record file1 (toString cid) = Some u).
    { subst file1. rewrite canUserSearch_record.
      destruct (record (file w) (toString cid)); case_decide; try contradiction; eauto. }
    destruct Hex as [u Hu]. rewrite (getUser_present _ _ _ _ Hu). reflexivity. }
  rewrite Hsame in Hst |- *.
  rewrite (usage_updateUser _ _ _ _ Hst).
  rewrite Hg. simpl. split; [|reflexivity].
  unfold usageUpdates. simpl. destruct (isFreeTrial perm); reflexivity.
Qed.

(** ** Invariants of every event *)

Section Every.
Variable Q : string -> User -> Prop.
Hypothesis Q_new : forall userId now, Q userId (newUser userId now).

Lemma every_getUser file cid now : every Q file -> every Q (getUser file cid now).2.
Proof.
  intros H k u. rewrite getUser_record.
  destruct (record file k) as [u0|] eqn:E.
  - intros [= <-]. exact (H _ _ E).
  - case_decide; [|discriminate]. intros [= <-]. apply Q_new.
Qed.

Lemma every_updateUser file cid updates :
  (forall u, record file (toString cid) = Some u ->
             Q (toString cid) u -> Q (toString cid) (assign u updates)) ->
  every Q file -> every Q (updateUser file cid updates).
Proof.
  intros Hupd H k u. rewrite updateUser_record. case_decide as Hk.
  - subst k. destruct (record file (toString cid)) as [u0|] eqn:E; [|discriminate].
    intros [= <-]. apply (Hupd _ eq_refl), (H _ _ E).
  - apply H.
Qed.

Hypothesis Q_expire : forall userId u, Q userId u -> Q userId (assign u expire).

Lemma every_canUserSearch file cid now :
  every Q file -> every Q (canUserSearch file cid now).2.
Proof.
  intros H k u. rewrite canUserSearch_record.
  destruct (record file k) as [u0|] eqn:E.
  - case_decide; intros [= <-]; [|exact (H _ _ E)].
    destruct (lapsed now u0); [apply Q_expire|]; exact (H _ _ E).
  - case_decide; [|discriminate]. intros [= <-]. apply Q_new.
Qed.

Hypothesis Q_names : forall userId u a b,
  Q userId u ->
  Q userId (assign u (mkUpdates None (Some a) (Some b) None None None None None)).

Lemma every_start file cid now a b : every Q file -> every Q (start file cid now a b).
Proof.
  intros H. unfold start.
  pose proof (every_getUser _ cid now H) as H1.
  destruct (getUser file cid now) as [u f1]. simpl in H1.
  apply every_updateUser; [intros; apply Q_names; assumption | exact H1].
Qed.

(** The usage update keeps [Q] when it is made after a check that allowed
    the request. *)
Hypothesis Q_usage : forall userId u perm,
  Q userId u -> allowed perm = true ->
  (isFreeTrial perm = true -> freeSearchesUsed u < 1) ->
  Q userId (assign u (usageUpdates perm u)).

Lemma every_handleMobileNumber w cid mobile now loading net :
  every Q (file w) -> every Q (file (handleMobileNumber w cid mobile now loading net).2).
Proof.
  intros H.
  destruct (handleMobileNumber_file w cid mobile now loading net)
    as [[_ ->]|[[_ ->]|(data & u & msg & _ & Hal & Hu & _ & ->)]].
  - exact H.
  - apply every_canUserSearch, H.
  - pose proof (every_canUserSearch _ cid now H) as H1.
    apply every_updateUser; [|exact H1].
    intros u' Hu' HQ. rewrite Hu in Hu'. injection Hu' as <-.
    apply Q_usage; [exact HQ | exact Hal |].
    intros Hft. rewrite canUserSearch_perm in Hft. cbv zeta in Hft.
    rewrite canUserSearch_record in Hu.
    set (u0 := default (newUser (toString cid) now) (record (file w) (toString cid))) in *.
    assert (Hf : freeSearchesUsed u = freeSearchesUsed u0).
    { subst u0. destruct (record (file w) (toString cid)) as [v|];
        (case_decide; [|contradiction]); injection Hu as <-; simpl; [|reflexivity].
      destruct (lapsed now v); reflexivity. }
    rewrite Hf. destruct (current now u0); [discriminate Hft|].
    rewrite freeCheck_cases in Hft.
    destruct (Z.ltb_spec (freeSearchesUsed u0) 1); [assumption | discriminate Hft].
Qed.

End Every.






Lemma tidy_new userId now : tidy userId (newUser userId now).
Proof. unfold tidy. simpl. repeat split; lia. Qed.

Lemma tidy_assign userId u updates :
  upd_chatId updates = None ->
  upd_freeSearchesUsed updates = None -> upd_totalSearches updates = None ->
  tidy userId u -> tidy userId (assign u updates).
Proof. unfold tidy, assign. simpl. intros -> -> -> H. exact H. Qed.

Lemma tidy_usage userId u perm :
  tidy userId u -> allowed perm = true ->
  (isFreeTrial perm = true -> freeSearchesUsed u < 1) ->
  tidy userId (assign u (usageUpdates perm u)).
Proof.
  unfold tidy, assign, usageUpdates. simpl. intros (Hc & Hf & Ht) _ Hft.
  destruct (isFreeTrial perm); simpl; [specialize (Hft eq_refl)|];
    repeat split; first [assumption | lia].
Qed.

Lemma tidy_step w e :
  overtaken e = false -> every tidy (file w) -> every tidy (file (step w e)).
Proof.
  intros Ho H. destruct e; simpl; try discriminate Ho.
  - apply every_handleMobileNumber;
      [apply tidy_new | intros; apply tidy_assign; auto | apply tidy_usage | exact H].
  - apply every_start; [apply tidy_new | intros; apply tidy_assign; auto | exact H].
  - apply every_getUser; [apply tidy_new | exact H].
  - apply every_getUser; [apply tidy_new | exact H].
  - unfold addUser. destruct (isAdmin sender); [|exact H].
    destruct (validTime _); [|exact H].
    apply every_updateUser; [intros; apply tidy_assign; auto | exact H].
  - unfold removeUser. destruct (isAdmin sender); [|exact H].
    apply every_updateUser; [intros; apply tidy_assign; auto | exact H].
  - unfold userInfo. destruct (isAdmin sender); [|exact H].
    apply every_getUser; [apply tidy_new | exact H].
Qed.

Lemma tidy_run es : forall w,
  Forall (fun e => overtaken e = false) es ->
  every tidy (file w) -> every tidy (file (run w es)).
Proof.
  induction es as [|e es IH]; intros w Ho H; [exact H|].
  inversion Ho; subst. simpl. apply IH; [assumption|].
  apply tidy_step; assumption.
Qed.

(** What the check answers to a newcomer, and the record it leaves. *)
Lemma newcomer_check file cid now :
  newcomer (toString cid) file ->
  exists u,
    canUserSearch file cid now = (FREE_TRIAL, (canUserSearch file cid now).2) /\
    record (canUserSearch file cid now).2 (toString cid) = Some u /\
    isSubscribed u = false /\ freeSearchesUsed u = 0 /\
    totalSearches u = (usage file cid).1.
Proof.
  intros Hnew.
  exists (default (newUser (toString cid) now) (record file (toString cid))).
  rewrite (surjective_pairing (canUserSearch file cid now)) at 1.
  rewrite canUserSearch_perm, canUserSearch_record. cbv zeta. unfold usage.
  destruct (record file (toString cid)) as [v|] eqn:Ev;
    (case_decide; [|contradiction]); simpl.
  - destruct (Hnew _ Ev) as [Hs Hf].
    unfold current, lapsed. rewrite Hs. simpl. rewrite freeCheck_cases, Hf. auto.
  - auto.
Qed.

Lemma isRateLimited_eq (m : gmap ChatId Z) cid now :
  RateLimiter.isRateLimited m cid now =
    ((RateLimiter.isRateLimited m cid now).1,
     if (RateLimiter.isRateLimited m cid now).1 then m else <[cid := now]> m).
Proof.
  unfold RateLimiter.isRateLimited. destruct (RateLimiter.truthy _ && _); reflexivity.
Qed.

(** A newcomer's lookup gets as far as the request when it passes the
    limiter and the loading notice is delivered. *)
Lemma newcomer_begins w cid now :
  newcomer (toString cid) (file w) ->
  (RateLimiter.isRateLimited (userLastMessage w) cid now).1 = false ->
  beginLookup w cid now true =
    Awaiting FREE_TRIAL
      (mkWorld (canUserSearch (file w) cid now).2 (<[cid := now]> (userLastMessage w))).
Proof.
  intros Hnew Hlim. unfold beginLookup.
  rewrite isRateLimited_eq, Hlim.
  destruct (newcomer_check _ _ now Hnew) as (u & -> & _). reflexivity.
Qed.

Lemma endLookup_success w cid perm mobile now net data u :
  fetchFlipcartInfo mobile net = Ok data ->
  record (file w) (toString cid) = Some u ->
  record (file (endLookup w cid perm mobile now net).2) (toString cid)
  = Some (assign u (usageUpdates perm u)).
Proof.
  intros Hok Hu. unfold endLookup. rewrite Hok, (getUser_present _ _ now _ Hu).
  simpl. rewrite updateUser_record, Hu. case_decide; [reflexivity | contradiction].
Qed.

(** X13: the allowance is one free search as long as no lookup is
    overtaken: if every record carries the id it is stored under, has used
    no or one free search and no more free searches than searches, then so
    it is after any sequence of events that are handled one after the
    other.  A lookup that begins while another lookup of the same newcomer
    waits for the lookup service is let through as free trial as well, and
    when both succeed the record counts two free searches. *)
Theorem free_search_allowance :
  (forall w es,
     Forall (fun e => overtaken e = false) es ->
     every tidy (file w) -> every tidy (file (run w es)))
  /\ (forall w cid t1 t2 m1 m2 l1 l2 net1 net2 data1 data2,
        newcomer (toString cid) (file w) ->
        (RateLimiter.isRateLimited (userLastMessage w) cid t1).1 = false ->
        RateLimiter.RATE_LIMIT_MS <= t2 - t1 ->
        fetchFlipcartInfo m1 net1 = Ok data1 ->
        fetchFlipcartInfo m2 net2 = Ok data2 ->
        exists w1 w2,
          beginLookup w cid t1 true = Awaiting FREE_TRIAL w1 /\
          beginLookup w1 cid t2 true = Awaiting FREE_TRIAL w2 /\
          usage (file (run w [LookupBegin cid t1 true;
                              LookupBegin cid t2 true;
                              LookupEnd cid FREE_TRIAL m1 l1 net1;
                              LookupEnd cid FREE_TRIAL m2 l2 net2])) cid
          = ((usage (file w) cid).1 + 2, 2)).
Proof.
  split; [intros w es; apply tidy_run|].
  intros w cid t1 t2 m1 m2 l1 l2 net1 net2 data1 data2 Hnew Hlim Hlate Hok1 Hok2.
  pose proof (newcomer_begins w cid t1 Hnew Hlim) as Hb1.
  destruct (newcomer_check _ _ t1 Hnew) as (u & _ & Hu & Hs & Hf & Ht).
  set (w1 := mkWorld (canUserSearch (file w) cid t1).2
                     (<[cid := t1]> (userLastMessage w))) in *.
  assert (Hnew1 : newcomer (toString cid) (file w1)).
  { intros v Hv. simpl in Hv. rewrite Hu in Hv. injection Hv as <-. auto. }
  assert (Hlim1 : (RateLimiter.isRateLimited (userLastMessage w1) cid t2).1 = false).
  { pose proof (RateLimiterSpec.allow_elapsed (userLastMessage w1) cid t2 t1) as Ha.
    rewrite RateLimiterSpec.allow_fst in Ha. apply negb_true_iff, Ha; [|exact Hlate].
    apply lookup_insert_eq. }
  pose proof (newcomer_begins w1 cid t2 Hnew1 Hlim1) as Hb2.
  assert (Hq : (canUserSearch (file w1) cid t2).2 = file w1).
  { apply (canUserSearch_quiet _ _ _ u); [exact Hu|].
    unfold lapsed. rewrite Hs. reflexivity. }
  rewrite Hq in Hb2.
  set (w2 := mkWorld (file w1) (<[cid := t2]> (userLastMessage w1))) in *.
  exists w1, w2. split; [exact Hb1|]. split; [exact Hb2|].
  unfold run. cbn [fold_left step]. rewrite Hb1. cbn [stageWorld]. rewrite Hb2.
  cbn [stageWorld].
  assert (Hu2 : record (file w2) (toString cid) = Some u) by exact Hu.
  pose proof (endLookup_success w2 cid FREE_TRIAL m1 l1 net1 data1 u Hok1 Hu2) as H3.
  set (w3 := (endLookup w2 cid FREE_TRIAL m1 l1 net1).2) in *.
  pose proof (endLookup_success w3 cid FREE_TRIAL m2 l2 net2 data2 _ Hok2 H3) as H4.
  unfold usage at 1. rewrite H4. simpl. rewrite Hf, Ht. f_equal; lia.
Qed.

Lemma unsubscribed_step userId w e :
  grants userId e = false ->
  every (unsubscribedAt userId) (file w) ->
  every (unsubscribedAt userId) (file (step w e)).
Proof.
  intros Hg H.
  assert (Hnew : forall k now, unsubscribedAt userId k (newUser k now))
    by (intros k now _; reflexivity).
  assert (Hexp : forall k u, unsubscribedAt userId k u ->
                             unsubscribedAt userId k (assign u expire))
    by (intros k u _ _; reflexivity).
  destruct e; simpl in *.
  - apply every_handleMobileNumber;
      [exact Hnew | exact Hexp | intros k u perm Hu _ _ Hk; exact (Hu Hk) | exact H].
  - destruct (beginLookup_file w cid now loading) as [->| ->]; [exact H|].
    apply every_canUserSearch; [exact Hnew | exact Hexp | exact H].
  - destruct (endLookup_file w cid searchPermission mobile now net) as [->| ->];
      [exact H|].
    apply every_updateUser; [intros u _ Hu Hk; exact (Hu Hk)|].
    apply every_getUser; [exact Hnew | exact H].
  - apply every_start;
      [exact Hnew | intros k u a b Hu Hk; exact (Hu Hk) | exact H].
  - apply every_getUser; auto.
  - apply every_getUser; auto.
  - unfold addUser. destruct (isAdmin sender); [|exact H].
    destruct (validTime _); [|exact H]. simpl in Hg.
    apply every_updateUser; [|exact H].
    simpl. intros u _ _ ->. rewrite String.eqb_refl in Hg. discriminate Hg.
  - unfold removeUser. destruct (isAdmin sender); [|exact H].
    apply every_updateUser; [intros; apply Hexp; assumption | exact H].
  - unfold userInfo. destruct (isAdmin sender); [|exact H].
    apply every_getUser; auto.
Qed.

(** X14: only the admin's grant subscribes a user: through any sequence of
    events without an admin /adduser for the id, a user without a
    subscription stays without one, and the check never answers
    subscribed. *)
Theorem only_grant_subscribes (userId : string) (w : World) (es : list Event) :
  Forall (fun e => grants userId e = false) es ->
  (forall u, record (file w) userId = Some u -> isSubscribed u = false) ->
  (forall u', record (file (run w es)) userId = Some u' -> isSubscribed u' = false)
  /\ (forall cid now, toString cid = userId ->
        (canUserSearch (file (run w es)) cid now).1 <> SUBSCRIBED).
Proof.
  intros Hg H0.
  assert (H : every (unsubscribedAt userId) (file (run w es))).
  { assert (Hw : every (unsubscribedAt userId) (file w))
      by (intros k u Hu ->; exact (H0 _ Hu)).
    clear H0. revert w Hw. induction es as [|e es IH]; intros w Hw; [exact Hw|].
    inversion Hg; subst. simpl. apply IH; [assumption|].
    apply unsubscribed_step; assumption. }
  split.
  - intros u' Hu'. exact (H _ _ Hu' eq_refl).
  - intros cid now <-. rewrite canUserSearch_perm. cbv zeta.
    assert (Hc : current now (default (newUser (toString cid) now)
                                (record (file (run w es)) (toString cid))) = false).
    { unfold current.
      destruct (record (file (run w es)) (toString cid)) as [u|] eqn:E; simpl;
        [rewrite (H _ _ E eq_refl)|]; reflexivity. }
    rewrite Hc, freeCheck_cases. destruct (_ <? 1); discriminate.
Qed.

(** ** Admin commands *)

Lemma setUser_twice data k u v : setUser (setUser data k u) k v = setUser data k v.
Proof. unfold setUser. simpl. rewrite insert_insert_eq. reflexivity. Qed.

Lemma updateUser_present file cid updates u :
  record file (toString cid) = Some u ->
  updateUser file cid updates =
    Some (setUser (loadUsersData file) (toString cid) (assign u updates)).
Proof. unfold record, updateUser. intros ->. reflexivity. Qed.

(** Two updates of one record in a row. *)
Lemma updateUser_twice file cid a b :
  (forall u, assign (assign u a) b = assign u b) ->
  updateUser (updateUser file cid a) cid b = updateUser file cid b.
Proof.
  intros Hab. destruct (record file (toString cid)) as [u|] eqn:E.
  - rewrite (updateUser_present _ _ a _ E), (updateUser_present _ _ b _ E).
    rewrite (updateUser_present _ _ b (assign u a)).
    + simpl. rewrite setUser_twice, Hab. reflexivity.
    + unfold record. simpl. apply lookup_insert_eq.
  - rewrite !(updateUser_absent _ _ _ E). reflexivity.
Qed.

(** X15: a revocation ends the subscription: after the admin's /removeuser
    the check does not answer subscribed, at any time; the counters are as
    before; a second revocation changes nothing; and for a user without a
    record so does the first. *)
Theorem revoke_ends_subscription (file : File) (sender : ChatId)
    (userId : string) (cid : ChatId) (now : Z) :
  isAdmin sender = true -> toString cid = userId ->
  let file1 := removeUser file sender userId in
  (canUserSearch file1 cid now).1 <> SUBSCRIBED
  /\ usage file1 cid = usage file cid
  /\ removeUser file1 sender userId = file1
  /\ (record file userId = None -> file1 = file).
Proof.
  intros Ha <-. cbv zeta. unfold removeUser. rewrite Ha.
  change (toString (StrId (toString cid))) with (toString cid).
  repeat split.
  - rewrite canUserSearch_perm. cbv zeta. rewrite updateUser_record.
    case_decide; [|contradiction].
    destruct (record file (toString cid)) as [u|]; simpl;
      rewrite freeCheck_cases; destruct (_ <? 1); discriminate.
  - unfold usage. rewrite updateUser_record.
    case_decide; [|contradiction].
    destruct (record file (toString cid)); reflexivity.
  - apply updateUser_twice. reflexivity.
  - intros Hn. apply updateUser_absent. exact Hn.
Qed.

(** X16: grants do not add up: a second grant replaces the expiry of the
    first, so two grants in a row leave the file that the second alone
    would leave; and a grant leaves the usage counters as they are. *)
Theorem regrant_replaces (file : File) (sender : ChatId) (userId : string)
    (days1 t1 days2 t2 : Z) (tz : TimeZone) :
  isAdmin sender = true ->
  validTime (setDateDays tz t1 days1) = true ->
  validTime (setDateDays tz t2 days2) = true ->
  addUser (addUser file sender userId days1 t1 tz) sender userId days2 t2 tz
  = addUser file sender userId days2 t2 tz
  /\ usage (addUser file sender userId days2 t2 tz) (StrId userId)
     = usage file (StrId userId).
Proof.
  intros Ha H1 H2. unfold addUser. rewrite Ha. cbv zeta. rewrite H1, H2. split.
  - apply updateUser_twice. reflexivity.
  - unfold usage. rewrite updateUser_record.
    case_decide; [|contradiction].
    destruct (record file (toString (StrId userId))); reflexivity.
Qed.

(** X17: asking for a user's info registers the user: the admin's
    /userinfo for an id without a record stores a new record for it, with
    no search used and no subscription, and the panel counts one user
    more; for an id with a record, and for any other sender, the file stays
    as it is. *)
Theorem userInfo_registers (file : File) (sender : ChatId) (userId : string) (now : Z) :
  (isAdmin sender = true -> record file userId = None ->
     record (userInfo file sender userId now) userId = Some (newUser userId now) /\
     (adminStats (userInfo file sender userId now)).1.1 = (adminStats file).1.1 + 1)
  /\ (isAdmin sender = false \/ is_Some (record file userId) ->
      userInfo file sender userId now = file).
Proof.
  unfold userInfo. split.
  - intros -> Hn. unfold getUser. change (toString (StrId userId)) with userId.
    unfold record in Hn. rewrite Hn. simpl. split.
    + unfold record. simpl. apply lookup_insert_eq.
    + rewrite map_size_insert_None by exact Hn. lia.
  - intros [->|[u Hu]]; [reflexivity|].
    destruct (isAdmin sender); [|reflexivity].
    rewrite (getUser_present _ (StrId userId) now u Hu). reflexivity.
Qed.

(** X24: once a newcomer's lookup has succeeded, the same chat's next
    request, made 2000 ms or more later, is refused with the limit message
    whatever number it asks for and whatever the service would answer; the
    users file is left as it is and only the limiter's stamp moves. *)
Theorem second_request_refused (w : World) (cid : ChatId) (mobile : string)
    (now : Z) (loading : bool) (net : AxiosOutcome) (msg : string)
    (mobile' : string) (later : Z) (loading' : bool) (net' : AxiosOutcome) :
  newcomer (toString cid) (file w) ->
  (handleMobileNumber w cid mobile now loading net).1 = ResultReply msg ->
  RateLimiter.RATE_LIMIT_MS <= later - now ->
  let w1 := (handleMobileNumber w cid mobile now loading net).2 in
  handleMobileNumber w1 cid mobile' later loading' net'
  = (LimitReachedReply, mkWorld (file w1) (<[cid := later]> (userLastMessage w1))).
Proof.
  intros Hnew Hr Hlate. cbv zeta.
  pose proof (newcomer_success _ _ _ _ _ _ _ Hnew Hr) as Hused.
  assert (Hst : userLastMessage (handleMobileNumber w cid mobile now loading net).2
                = <[cid := now]> (userLastMessage w)).
  { apply stamped_unless_limited. rewrite Hr. discriminate. }
  set (w1 := (handleMobileNumber w cid mobile now loading net).2) in *.
  rewrite handleMobileNumber_eq. cbv zeta.
  assert (Hlim : (RateLimiter.isRateLimited (userLastMessage w1) cid later).1 = false).
  { pose proof (RateLimiterSpec.allow_elapsed (userLastMessage w1) cid later now) as Ha.
    rewrite RateLimiterSpec.allow_fst in Ha. apply negb_true_iff, Ha; [|exact Hlate].
    rewrite Hst. apply lookup_insert_eq. }
  rewrite Hlim, (usedTrial_refused _ _ later Hused). reflexivity.
Qed.

End PipelineSpec.

(** * Further properties of the lookup client and of the formatter *)

Module TextSpec.
Import Lookup Outcome Formatter Address Facts.
Import LookupSpec FormatterSpec.

#[local] Arguments String.append : simpl nomatch.

Lemma hasMarkup_app a b : hasMarkup (a +:+ b) = hasMarkup a || hasMarkup b.
Proof.
  unfold hasMarkup. rewrite !mentions_app.
  destruct (mentions "<" a), (mentions "<" b), (mentions ">" a), (mentions ">" b);
    reflexivity.
Qed.

(** X19: apart from the status text of a response outside 2xx and an error
    field that is truthy and not a string, every error text that the fetch
    returns is free of the characters that open and close a tag. *)
Theorem error_text_escaped_otherwise (mobile : string) (net : AxiosOutcome)
    (error : string) :
  fetchFlipcartInfo mobile net = Fail error ->
  unescaped net = false ->
  hasMarkup error = false.
Proof.
  unfold fetchFlipcartInfo, unescaped.
  destruct net as [status statusText data|code message].
  - destruct (isNotFoundText data); [intros [= <-] _; reflexivity|].
    fold (is2xx status). destruct (is2xx status); [|discriminate].
    destruct (hasErrorField data); [|discriminate].
    unfold errorIsText. intros H He.
    apply (f_equal errorOf) in H. cbn [errorOf] in H. subst error.
    destruct (apiErrorOf data) as [| | |s| |]; try discriminate He.
    rewrite hasMarkup_app. change (Json.String_ (escapeHtmlEntities (JStr s)))
      with (escapeHtml s).
    rewrite escapeHtml_no_markup. reflexivity.
  - intros H _. apply (f_equal errorOf) in H. cbn [errorOf] in H. subst error.
    rewrite hasMarkup_app.
    change (Json.String_ (escapeHtmlEntities (JStr ?x))) with (escapeHtml x).
    rewrite escapeHtml_no_markup. reflexivity.
Qed.

(** ** Escaping *)

Lemma escapeHtml_cons c s : escapeHtml (String c s) = escapeChar c +:+ escapeHtml s.
Proof.
  unfold escapeHtml, escapeChar.
  change (Js.replaceChar "&" "&amp;" (String c s)) with
    (if Ascii.eqb c "&" then "&amp;" +:+ Js.replaceChar "&" "&amp;" s
     else String c (Js.replaceChar "&" "&amp;" s)).
  destruct (Ascii.eqb c "&") eqn:Ea.
  - rewrite !replaceChar_app. reflexivity.
  - change (Js.replaceChar "<" "&lt;" (String c ?x)) with
      (if Ascii.eqb c "<" then "&lt;" +:+ Js.replaceChar "<" "&lt;" x
       else String c (Js.replaceChar "<" "&lt;" x)).
    cbn [Js.replaceChar]. destruct (Ascii.eqb c "<") eqn:El.
    + rewrite replaceChar_app. reflexivity.
    + cbn [Js.replaceChar]. destruct (Ascii.eqb c ">"); reflexivity.
Qed.

Lemma escapeHtml_each s : escapeHtml s = escapeEach s.
Proof.
  induction s as [|c s IH]; [reflexivity|].
  rewrite escapeHtml_cons, IH. reflexivity.
Qed.

Lemma escapeChar_inj c d r r' :
  escapeChar c +:+ r = escapeChar d +:+ r' -> c = d /\ r = r'.
Proof.
  unfold escapeChar.
  destruct (Ascii.eqb_spec c "&") as [->|Hc1];
    [|destruct (Ascii.eqb_spec c "<") as [->|Hc2];
      [|destruct (Ascii.eqb_spec c ">") as [->|Hc3]]];
  (destruct (Ascii.eqb_spec d "&") as [->|Hd1];
    [|destruct (Ascii.eqb_spec d "<") as [->|Hd2];
      [|destruct (Ascii.eqb_spec d ">") as [->|Hd3]]]);
  simpl; intros H; injection H; intros; subst; try congruence; auto.
Qed.

Lemma escapeEach_inj s : forall t, escapeEach s = escapeEach t -> s = t.
Proof.
  induction s as [|c s IH]; intros [|d t]; simpl; intros H.
  - reflexivity.
  - exfalso. unfold escapeChar in H.
    destruct (Ascii.eqb d "&"); [discriminate H|].
    destruct (Ascii.eqb d "<"); [discriminate H|].
    destruct (Ascii.eqb d ">"); discriminate H.
  - exfalso. unfold escapeChar in H.
    destruct (Ascii.eqb c "&"); [discriminate H|].
    destruct (Ascii.eqb c "<"); [discriminate H|].
    destruct (Ascii.eqb c ">"); discriminate H.
  - destruct (escapeChar_inj _ _ _ _ H) as [-> Hr]. rewrite (IH _ Hr). reflexivity.
Qed.

Lemma escapeChar_length c : (1 <= String.length (escapeChar c))%nat.
Proof.
  unfold escapeChar. destruct (Ascii.eqb c "&"); [simpl; lia|].
  destruct (Ascii.eqb c "<"); [simpl; lia|].
  destruct (Ascii.eqb c ">"); simpl; lia.
Qed.

(** X20: escaping loses nothing and adds nothing it need not: two texts
    with the same escaped form are the same text, a text without the three
    characters is returned as it is, and no text gets shorter. *)
Theorem escapeHtml_faithful :
  (forall s t, escapeHtml s = escapeHtml t -> s = t)
  /\ (forall s, mentions "&" s = false -> hasMarkup s = false -> escapeHtml s = s)
  /\ (forall s, (String.length s <= String.length (escapeHtml s))%nat).
Proof.
  split; [|split].
  - intros s t. rewrite !escapeHtml_each. apply escapeEach_inj.
  - intros s. rewrite escapeHtml_each. unfold hasMarkup.
    induction s as [|c s IH]; [reflexivity|]. simpl.
    intros Ha Hm. apply orb_false_iff in Ha as [Ha1 Ha2].
    apply orb_false_iff in Hm as [Hl Hg].
    apply orb_false_iff in Hl as [Hl1 Hl2]. apply orb_false_iff in Hg as [Hg1 Hg2].
    unfold escapeChar. rewrite Ha1, Hl1, Hg1. simpl.
    rewrite IH; [reflexivity | exact Ha2 |]. rewrite Hl2, Hg2. reflexivity.
  - intros s. rewrite escapeHtml_each.
    induction s as [|c s IH]; [reflexivity|]. simpl.
    rewrite length_app. pose proof (escapeChar_length c). lia.
Qed.

(** X21: whatever the payload, the value of every field that is shown is
    escaped: it holds no character that opens or closes a tag. *)
Theorem shown_values_escaped (key : string) (value : JSON) (f : DisplayField) :
  displayField key value = Some f -> hasMarkup (displayValue f) = false.
Proof.
  unfold displayField. destruct (keeps (Json.String_ value)); [|discriminate].
  intros [= <-].
  repeat match goal with
         | |- context [if ?b then _ else _] => destruct b
         end; simpl; apply escapeHtml_no_markup.
Qed.

(** ** The clean-up of any address *)

Lemma mentions_dropStartFrom c width s : forall skip,
  mentions c s = false -> mentions c (Js.dropStartFrom width skip s) = false.
Proof.
  induction s as [|d s IH]; intros skip H; [reflexivity|].
  pose proof H as Hs. simpl in Hs. apply orb_false_iff in Hs as [_ Hs].
  simpl. destruct skip as [|k]; [|apply IH, Hs].
  destruct (width (String d s)); [exact H | apply IH, Hs].
Qed.

Lemma mentions_dropEnd c width s :
  mentions c s = false -> mentions c (Js.dropEnd width s) = false.
Proof.
  destruct (dropEnd_split width s) as (v & Hv & _). intros H.
  rewrite Hv, mentions_app in H. apply orb_false_iff in H. apply H.
Qed.

Lemma mentions_collapseFrom s : forall k,
  mentions "!" s = false -> mentions "!" (collapseFrom k s) = false.
Proof.
  induction s as [|d s IH]; intros k H; [reflexivity|].
  simpl in H. apply orb_false_iff in H as [Hd H].
  rewrite collapseFrom_cons. destruct k as [|k]; [|apply IH, H].
  destruct (Ascii.eqb d ",").
  - destruct (commaRun 0 s 0 None); simpl; [apply IH, H|].
    rewrite Hd. apply IH, H.
  - simpl. rewrite Hd. apply IH, H.
Qed.

(** X22: whatever the upstream value, the cleaned address holds no marker
    and neither starts nor ends with a comma or a white-space character,
    of one byte or of more. *)
Theorem cleanAddress_tidy (stringValue : string) :
  mentions "!" (cleanAddress stringValue) = false
  /\ separatorWidth (cleanAddress stringValue) = 0%nat
  /\ endsWithMember separatorWidth (cleanAddress stringValue) = false.
Proof.
  unfold cleanAddress, stripSeparators.
  split; [|split].
  - unfold Js.trim, Js.dropStart, collapseCommas, replaceBang.
    do 2 (apply mentions_dropEnd, mentions_dropStartFrom).
    apply mentions_collapseFrom, replaceChar_removes. reflexivity.
  - apply (dropEnd_start _ _ separator_class).
    apply (dropStartFrom_start _ _ separator_class).
  - apply (dropEnd_ends _ _ separator_class).
Qed.

(** ** No data *)

Lemma formatItems_found items : forall index all found,
  (formatItems items index all found).2 =
    found || existsb (fun item => isObject item &&
                        match itemFields item with [] => false | _ => true end) items.
Proof.
  induction items as [|item items IH]; intros index all found; simpl.
  - rewrite orb_false_r. reflexivity.
  - destruct (isObject item); simpl; [|apply IH].
    destruct (itemFields item); rewrite IH; simpl; [reflexivity|].
    rewrite orb_true_r. reflexivity.
Qed.

Lemma formatItems_extends items : forall index all found,
  exists rest, (formatItems items index all found).1 = all +:+ rest.
Proof.
  induction items as [|item items IH]; intros index all found; cbn [formatItems].
  - exists EmptyString. rewrite app_nil_r. reflexivity.
  - destruct (isObject item); [|apply IH].
    destruct (itemFields item) as [|d l];
      match goal with
      | |- context [formatItems items (S index) ?X ?b] =>
          destruct (IH (S index) X b) as [rest ->]
      end; rewrite !app_assoc; eauto.
Qed.

(** X23: the formatter answers "No details found" exactly when no item of
    the payload is an object with a field to show: for a payload that is
    no object, for an empty list or object, and for objects whose values
    are all empty, "not found" or "[not set]". *)
Theorem no_details_iff (data : JSON) :
  formatResponse data = NO_DETAILS <-> hasData data = false.
Proof.
  unfold formatResponse, hasData. fold (itemsOf data).
  pose proof (formatItems_found (itemsOf data) 0 HEADER false) as Hf.
  destruct (formatItems_extends (itemsOf data) 0 HEADER false) as [rest Hr].
  destruct (formatItems (itemsOf data) 0 HEADER false) as [all found].
  cbn [fst snd] in Hf, Hr. subst found all.
  destruct (existsb _ (itemsOf data)); cbn [orb]; [|split; reflexivity].
  split; [|discriminate]. intros H. exfalso.
  unfold Js.trim in H.
  assert (Hs : Js.dropStart Js.spaceWidth (HEADER +:+ rest) = HEADER +:+ rest)
    by reflexivity.
  rewrite Hs in H.
  change (HEADER +:+ rest)
    with ((EMOJI_INFO +:+ " <b>Flipcart Information</b>") +:+ (LF +:+ rest)) in H.
  rewrite (dropEnd_app _ _ space_class) in H by reflexivity.
  apply (f_equal (fun t => String.get 2 t)) in H. discriminate H.
Qed.

End TextSpec.

(** * The further statements at concrete inputs *)

Module MoreExamples.
Import Store Entitlement Lookup Bot Inv Outcome Formatter Address Facts Commands.
Import RateLimiter Sample.

(** X5 at chat 7, stamped at 1000, while chats 8 and 9 call. *)
Lemma limiter_isolation_witness :
  (allow (calls {[NumId 7 := 1000]} [(NumId 8, 1100); (NumId 9, 1200)]).2
         (NumId 7) 1500).1 = false.
Proof.
  destruct (StateSpec.limiter_isolation {[NumId 7 := 1000]} (NumId 7)
              [(NumId 8, 1100); (NumId 9, 1200)] 1500) as (H & _).
  - repeat constructor; discriminate.
  - rewrite H. reflexivity.
Defined.

(** X9 at chat 7, stamped at 1000, asking again at 1500. *)
Lemma no_fetch_when_stopped_witness :
  handleMobileNumber (mkWorld oneUser {[NumId 7 := 1000]}) (NumId 7) "9876543210" 1500
    false (Rejected None "down")
  = handleMobileNumber (mkWorld oneUser {[NumId 7 := 1000]}) (NumId 7) "9876543210" 1500
      true (Resolved 200 "OK" payload).
Proof.
  destruct (PipelineSpec.no_fetch_when_stopped
              (mkWorld oneUser {[NumId 7 := 1000]}) (NumId 7) "9876543210" 1500
              true false (Resolved 200 "OK" payload) (Rejected None "down")) as [H _].
  - left. reflexivity.
  - exact H.
Defined.

(** X10 at user 42, refused at 5000. *)
Lemma passed_request_is_stamped_witness :
  userLastMessage (handleMobileNumber (mkWorld oneUser ∅) (NumId 42) "9876543210" 5000
                     true (Resolved 200 "OK" payload)).2
  = <[NumId 42 := 5000]> ∅.
Proof.
  destruct (PipelineSpec.passed_request_is_stamped (mkWorld oneUser ∅) (NumId 42)
              "9876543210" 5000 true (Resolved 200 "OK" payload)) as [H _].
  - discriminate.
  - exact H.
Defined.

(** X11 at a first lookup in the empty state. *)
Lemma success_accounting_witness :
  usage (file (handleMobileNumber freshWorld (NumId 42) "9876543210" 1000
                 true (Resolved 200 "OK" payload)).2) (NumId 42) = (1, 1).
Proof.
  destruct (PipelineSpec.success_accounting freshWorld (NumId 42) "9876543210" 1000
              true (Resolved 200 "OK" payload) _ eq_refl) as (data & _ & H & _).
  exact H.
Defined.


(** X13 from the missing file: two lookups of chat 42, the second begun
    at 4000 while the first waits, both answered. *)
Lemma free_search_allowance_witness :
  usage (file (run freshWorld
                   [LookupBegin (NumId 42) 1000 true;
                    LookupBegin (NumId 42) 4000 true;
                    LookupEnd (NumId 42) FREE_TRIAL "9876543210" 5000
                              (Resolved 200 "OK" payload);
                    LookupEnd (NumId 42) FREE_TRIAL "9123456780" 6000
                              (Resolved 200 "OK" payload)]))
        (NumId 42)
  = (2, 2).
Proof.
  destruct PipelineSpec.free_search_allowance as [_ H].
  destruct (H freshWorld (NumId 42) 1000 4000 "9876543210" "9123456780" 5000 6000
              (Resolved 200 "OK" payload) (Resolved 200 "OK" payload) payload payload)
    as (w1 & w2 & _ & _ & Hu);
    [intros u Hu; discriminate Hu | reflexivity | discriminate
    | reflexivity | reflexivity | exact Hu].
Defined.

(** X14 at the sample user through a lookup, a revocation and a grant to
    another user. *)
Lemma only_grant_subscribes_witness :
  (canUserSearch
     (file (run (mkWorld oneUser ∅)
                [Lookup (NumId 42) "9876543210" 5000 true (Resolved 200 "OK" payload);
                 RemoveUser (StrId ADMIN_CHAT_ID) "42";
                 AddUser (StrId ADMIN_CHAT_ID) "43" 30 6000 UTC_ZONE]))
     (NumId 42) 7000).1 <> SUBSCRIBED.
Proof.
  destruct (PipelineSpec.only_grant_subscribes "42" (mkWorld oneUser ∅)
              [Lookup (NumId 42) "9876543210" 5000 true (Resolved 200 "OK" payload);
               RemoveUser (StrId ADMIN_CHAT_ID) "42";
               AddUser (StrId ADMIN_CHAT_ID) "43" 30 6000 UTC_ZONE]) as [_ H].
  - repeat constructor.
  - intros u Hu. vm_compute in Hu. injection Hu as <-. reflexivity.
  - apply H. reflexivity.
Defined.

(** X15 at the sample user after a grant. *)
Lemma revoke_ends_subscription_witness :
  (canUserSearch
     (removeUser (addUser oneUser (StrId ADMIN_CHAT_ID) "42" 30 2000 UTC_ZONE)
                 (StrId ADMIN_CHAT_ID) "42")
     (NumId 42) 5000).1 <> SUBSCRIBED.
Proof.
  destruct (PipelineSpec.revoke_ends_subscription
              (addUser oneUser (StrId ADMIN_CHAT_ID) "42" 30 2000 UTC_ZONE)
              (StrId ADMIN_CHAT_ID) "42" (NumId 42) 5000 eq_refl eq_refl) as [H _].
  exact H.
Defined.

(** X16 at the sample user: 30 days at 2000, then 7 days at 3000. *)
Lemma regrant_replaces_witness :
  addUser (addUser oneUser (StrId ADMIN_CHAT_ID) "42" 30 2000 SUMMER_ZONE)
          (StrId ADMIN_CHAT_ID) "42" 7 3000 SUMMER_ZONE
  = addUser oneUser (StrId ADMIN_CHAT_ID) "42" 7 3000 SUMMER_ZONE.
Proof.
  destruct (PipelineSpec.regrant_replaces oneUser (StrId ADMIN_CHAT_ID) "42"
              30 2000 7 3000 SUMMER_ZONE eq_refl eq_refl eq_refl) as [H _].
  exact H.
Defined.

(** X19 at a rejection with markup in its message. *)
Lemma error_text_escaped_otherwise_witness :
  hasMarkup "Network/API failure: getaddrinfo &lt;host&gt;" = false.
Proof.
  apply (TextSpec.error_text_escaped_otherwise "9876543210"
           (Rejected None "getaddrinfo <host>")); reflexivity.
Defined.

(** X21 at a name with markup in it. *)
Lemma shown_values_escaped_witness :
  hasMarkup "A &lt;b&gt; C" = false.
Proof.
  apply (TextSpec.shown_values_escaped "name" (JStr "A <b> C")
           (mkField EMOJI_NAME "Name" "A &lt;b&gt; C")).
  reflexivity.
Defined.

(** X24 at chat 42 in the empty state: lookups at 1000 and at 4000. *)
Lemma second_request_refused_witness :
  (handleMobileNumber
     (handleMobileNumber freshWorld (NumId 42) "9876543210" 1000 true
        (Resolved 200 "OK" payload)).2
     (NumId 42) "9123456780" 4000 true (Resolved 200 "OK" payload)).1
  = LimitReachedReply.
Proof.
  rewrite (PipelineSpec.second_request_refused freshWorld (NumId 42) "9876543210" 1000
             true (Resolved 200 "OK" payload)
             (formatResponse payload +:+ FREE_SEARCH_NOTICE)
             "9123456780" 4000 true (Resolved 200 "OK" payload)).
  - reflexivity.
  - intros u H. discriminate H.
  - vm_compute. reflexivity.
  - discriminate.
Defined.

End MoreExamples.
